(** * JiZhang: the expense normalisation and retrieval engine of [server.js]

    A shallow embedding of the back end (its later revision, the one with
    the text-to-expense route, which contains the earlier one unchanged)
    and the properties of its specification.

    Conventions of the embedding.
    - A JavaScript string is the list of its UTF-16 code units.
    - A JavaScript number is [NaN], an infinity, or the rational a finite
      double denotes.  A string is read as a number by rounding the value
      of its literal to binary64; the sums of the category summary are
      taken in the rationals.
    - A point in time is the number of milliseconds since the epoch.
    - What the program gets from its platform and not from its own text
      (the host's date parser, the zone database, the aggregation
      operators that parse dates, the extraction providers, the cast of a
      string to an ObjectId and of a stored value to the type of another
      schema path) is a field of the record [Platform]; the program is a
      function of it.
    - A route is a function from the collection and the request to the
      answer and the collection after it.  The header check [requireKey]
      stands in front of every route and is left out. *)

From Stdlib Require Import ZArith NArith QArith Bool List String Ascii Lia.
From Stdlib Require Import DecimalString Permutation Sorted.
Import ListNotations.

Local Close Scope Q_scope.
Local Open Scope string_scope.
Local Open Scope list_scope.

(* ================================================================== *)
(** * Strings *)

(** A string value: UTF-16 code units. *)
Definition jsstring := list N.

Fixpoint bytes_of (s : string) : list N :=
  match s with
  | EmptyString => []
  | String a s' => N_of_ascii a :: bytes_of s'
  end.

(** Code points of a UTF-8 byte sequence (the encoding of this file's
    literals). *)
Fixpoint utf8_points (bs : list N) : list N :=
  match bs with
  | [] => []
  | b0 :: t0 =>
    if (b0 <? 128)%N then b0 :: utf8_points t0
    else
      match t0 with
      | [] => []
      | b1 :: t1 =>
        if (b0 <? 224)%N
        then ((b0 mod 32) * 64 + b1 mod 64)%N :: utf8_points t1
        else
          match t1 with
          | [] => []
          | b2 :: t2 =>
            if (b0 <? 240)%N
            then ((b0 mod 16) * 4096 + (b1 mod 64) * 64 + b2 mod 64)%N
                   :: utf8_points t2
            else
              match t2 with
              | [] => []
              | b3 :: t3 =>
                ((b0 mod 8) * 262144 + (b1 mod 64) * 4096
                 + (b2 mod 64) * 64 + b3 mod 64)%N :: utf8_points t3
              end
          end
      end
  end.

Definition utf16_units (cp : N) : list N :=
  if (cp <? 65536)%N then [cp]
  else [(55296 + (cp - 65536) / 1024)%N; (56320 + (cp - 65536) mod 1024)%N].

(** The string value of a literal of this file. *)
Definition js (s : string) : jsstring :=
  flat_map utf16_units (utf8_points (bytes_of s)).

Definition jsstring_eqb (a b : jsstring) : bool :=
  if list_eq_dec N.eq_dec a b then true else false.

Fixpoint startsWith (t p : jsstring) : bool :=
  match p, t with
  | [], _ => true
  | _ :: _, [] => false
  | c :: p', d :: t' => (c =? d)%N && startsWith t' p'
  end.

(** [String.prototype.includes]. *)
Fixpoint includes (t p : jsstring) : bool :=
  startsWith t p ||
  match t with
  | [] => false
  | _ :: t' => includes t' p
  end.

(** [String.prototype.toLowerCase] on the Basic Latin letters; every other
    code unit is kept (the Han characters of the tables below have no case). *)
Definition lowerUnit (c : N) : N :=
  if ((65 <=? c) && (c <=? 90))%N then (c + 32)%N else c.

Definition toLowerCase (s : jsstring) : jsstring := map lowerUnit s.

(** WhiteSpace and LineTerminator of ECMAScript: what [trim] strips and
    what [\s] matches. *)
Definition isWhite (c : N) : bool :=
  ((9 <=? c) && (c <=? 13) || (c =? 32) || (c =? 160) || (c =? 5760)
   || (8192 <=? c) && (c <=? 8202) || (c =? 8232) || (c =? 8233)
   || (c =? 8239) || (c =? 8287) || (c =? 12288) || (c =? 65279))%N.

Fixpoint trimStart (s : jsstring) : jsstring :=
  match s with
  | c :: s' => if isWhite c then trimStart s' else s
  | [] => []
  end.

Definition trimEnd (s : jsstring) : jsstring := rev (trimStart (rev s)).

(** [String.prototype.trim]. *)
Definition trim (s : jsstring) : jsstring := trimEnd (trimStart s).

(** [String.prototype.replace] with a string pattern: the first
    occurrence only. *)
Fixpoint replaceFirst (s pat rep : jsstring) : jsstring :=
  if startsWith s pat then rep ++ skipn (List.length pat) s
  else
    match s with
    | [] => []
    | c :: s' => c :: replaceFirst s' pat rep
    end.

(** [s.slice(a, b)] for [0 <= a <= b]. *)
Definition slice (s : jsstring) (a b : nat) : jsstring :=
  firstn (b - a) (skipn a s).

(* ================================================================== *)
(** * Numbers *)

Inductive jsnum :=
| NaN
| Inf (negative : bool)
| Fin (q : Q).

Definition Number_isFinite (n : jsnum) : bool :=
  match n with Fin _ => true | _ => false end.

Definition Number_isNaN (n : jsnum) : bool :=
  match n with NaN => true | _ => false end.

(** [n === 0]. *)
Definition isZero (n : jsnum) : bool :=
  match n with Fin q => Qeq_bool q 0 | _ => false end.

(** [a >= b]; false as soon as one side is [NaN]. *)
Definition num_ge (a b : jsnum) : bool :=
  match a, b with
  | NaN, _ | _, NaN => false
  | Inf false, _ => true
  | _, Inf true => true
  | Inf true, _ => false
  | _, Inf false => false
  | Fin x, Fin y => Qle_bool y x
  end.

Definition num_eqb (a b : jsnum) : bool :=
  match a, b with
  | Fin x, Fin y => Qeq_bool x y
  | Inf s, Inf t => Bool.eqb s t
  | _, _ => false
  end.

Definition ofZ (z : Z) : jsnum := Fin (inject_Z z).

Definition isDigit (c : N) : bool := ((48 <=? c) && (c <=? 57))%N.

Fixpoint span (p : N -> bool) (s : jsstring) : jsstring * jsstring :=
  match s with
  | c :: s' =>
    if p c then let (a, b) := span p s' in (c :: a, b) else ([], s)
  | [] => ([], [])
  end.

Definition digitsVal (base : Z) (val : N -> Z) (ds : jsstring) : Z :=
  fold_left (fun a d => (base * a + val d)%Z) ds 0%Z.

Definition decVal (c : N) : Z := Z.of_N (c - 48).

Definition hexDigit (c : N) : bool :=
  (isDigit c || (97 <=? c) && (c <=? 102) || (65 <=? c) && (c <=? 70))%N.

Definition hexVal (c : N) : Z :=
  if isDigit c then decVal c
  else if (97 <=? c)%N then Z.of_N (c - 87) else Z.of_N (c - 55).

(** [m * 10^e], reduced. *)
Definition scale10 (m e : Z) : Q :=
  Qred (if (0 <=? e)%Z then inject_Z (m * 10 ^ e)
        else Qmake m (Z.to_pos (10 ^ (- e)))).

Definition signed (neg : bool) (q : Q) : Q := if neg then Qopp q else q.

(** An optional sign. *)
Definition takeSign (s : jsstring) : bool * jsstring :=
  match s with
  | 45%N :: s' => (true, s')
  | 43%N :: s' => (false, s')
  | _ => (false, s)
  end.

(** The exponent part of a decimal literal, when the rest of the literal is
    one, or nothing. *)
Definition exponentPart (s : jsstring) : option Z :=
  match s with
  | [] => Some 0%Z
  | c :: s' =>
    if ((c =? 101) || (c =? 69))%N then
      let (neg, s'') := takeSign s' in
      let (ds, rest) := span isDigit s'' in
      match ds, rest with
      | _ :: _, [] =>
        Some (if neg then (- digitsVal 10 decVal ds)%Z
              else digitsVal 10 decVal ds)
      | _, _ => None
      end
    else None
  end.

(** StrUnsignedDecimalLiteral without [Infinity]. *)
Definition unsignedDecimal (s : jsstring) : option Q :=
  let (ip, r1) := span isDigit s in
  let (fp, r2) :=
    match r1 with
    | 46%N :: r => span isDigit r
    | _ => ([], r1)
    end in
  match ip ++ fp with
  | [] => None
  | ds =>
    match exponentPart r2 with
    | Some e =>
      Some (scale10 (digitsVal 10 decVal ds) (e - Z.of_nat (List.length fp)))
    | None => None
    end
  end.

Definition radixLiteral (s : jsstring) : option Q :=
  let lit (ok : N -> bool) (base : Z) (val : N -> Z) (ds : jsstring) :=
    match ds with
    | [] => None
    | _ => if forallb ok ds then Some (inject_Z (digitsVal base val ds))
           else None
    end in
  match s with
  | 48%N :: c :: ds =>
    if ((c =? 120) || (c =? 88))%N then lit hexDigit 16%Z hexVal ds
    else if ((c =? 111) || (c =? 79))%N
    then lit (fun d => (48 <=? d) && (d <=? 55))%N 8%Z decVal ds
    else if ((c =? 98) || (c =? 66))%N
    then lit (fun d => (48 <=? d) && (d <=? 49))%N 2%Z decVal ds
    else None
  | _ => None
  end.

(** [a / b] for [0 <= a] and [0 < b], rounded to the nearest integer, a
    tie to the even one. *)
Definition roundHalfEven (a b : Z) : Z :=
  let fl := (a / b)%Z in
  match (2 * (a mod b) ?= b)%Z with
  | Lt => fl
  | Gt => (fl + 1)%Z
  | Eq => if Z.even fl then fl else (fl + 1)%Z
  end.

(** The exponent of the greatest power of two that is at most [n / d]. *)
Definition floorLog2 (n d : positive) : Z :=
  let e := (Z.log2 (Zpos n) - Z.log2 (Zpos d))%Z in
  if (if (0 <=? e)%Z then (2 ^ e * Zpos d <=? Zpos n)%Z
      else (Zpos d <=? 2 ^ (- e) * Zpos n)%Z)
  then e else (e - 1)%Z.

(** [m * 2^k], reduced. *)
Definition scale2 (m k : Z) : Q :=
  if (0 <=? k)%Z then inject_Z (m * 2 ^ k)
  else Qred (Qmake m (Z.to_pos (2 ^ (- k)))).

(** The Number value of the rational [n / d], with its sign: the nearest
    value of the binary64 format (a significand of 53 bits, exponents from
    -1022 to 1023, the subnormal values below them), a tie going to the
    even significand.  What rounds to [2^1024] is an infinity; what rounds
    to a significand of 0 is zero. *)
Definition binary64 (neg : bool) (n d : positive) : jsnum :=
  let e := Z.max (floorLog2 n d) (-1022) in
  let k := (e - 52)%Z in
  let m := if (0 <=? k)%Z then roundHalfEven (Zpos n) (Zpos d * 2 ^ k)
           else roundHalfEven (Zpos n * 2 ^ (- k)) (Zpos d) in
  if (1023 <? e)%Z || (e =? 1023)%Z && (m =? 2 ^ 53)%Z then Inf neg
  else Fin (signed neg (scale2 m k)).

(** The Number value for a mathematical value. *)
Definition NumberValue (q : Q) : jsnum :=
  match Qnum q with
  | Z0 => Fin 0
  | Zpos n => binary64 false n (Qden q)
  | Zneg n => binary64 true n (Qden q)
  end.

(** StringToNumber: what [Number(s)] and unary plus do to a string; the
    mathematical value of the literal, rounded to a Number. *)
Definition StringToNumber (s : jsstring) : jsnum :=
  let t := trim s in
  match t with
  | [] => Fin 0
  | _ =>
    match radixLiteral t with
    | Some q => NumberValue q
    | None =>
      let (neg, u) := takeSign t in
      if jsstring_eqb u (js "Infinity") then Inf neg
      else
        match unsignedDecimal u with
        | Some q => NumberValue (signed neg q)
        | None => NaN
        end
    end
  end.

(** [parseInt(s, 10)]: the integer of the leading digits, rounded to a
    Number. *)
Definition parseInt10 (s : jsstring) : jsnum :=
  let (neg, u) := takeSign (trimStart s) in
  match fst (span isDigit u) with
  | [] => NaN
  | ds => NumberValue (signed neg (inject_Z (digitsVal 10 decVal ds)))
  end.

(** [Math.max] and [Math.min] of two numbers. *)
Definition Math_max (a b : jsnum) : jsnum :=
  if Number_isNaN a || Number_isNaN b then NaN
  else if num_ge a b then a else b.

Definition Math_min (a b : jsnum) : jsnum :=
  if Number_isNaN a || Number_isNaN b then NaN
  else if num_ge a b then b else a.

(** A scalar of a JSON body or of a draft; an absent key reads
    [VUndefined].  Objects and arrays in the place of a scalar are not
    part of the embedding. *)
Inductive jsval :=
| VUndefined
| VNull
| VBool (b : bool)
| VNum (n : jsnum)
| VStr (s : jsstring).

(** [Number(v)]. *)
Definition ToNumber (v : jsval) : jsnum :=
  match v with
  | VUndefined => NaN
  | VNull => Fin 0
  | VBool b => if b then Fin 1 else Fin 0
  | VNum n => n
  | VStr s => StringToNumber s
  end.

(** Truthiness. *)
Definition truthy (v : jsval) : bool :=
  match v with
  | VUndefined | VNull => false
  | VBool b => b
  | VNum n => negb (isZero n || Number_isNaN n)
  | VStr [] => false
  | VStr _ => true
  end.

(** [s || d] for a string that may be absent. *)
Definition orElse (s : option jsstring) (d : jsstring) : jsstring :=
  match s with
  | Some (c :: r) => c :: r
  | _ => d
  end.

(* ================================================================== *)
(** * Category classifier *)

(** [CATEGORY_KEYWORDS], in the order of its entries. *)
Definition CATEGORY_KEYWORDS : list (jsstring * list jsstring) :=
  [ (js "餐饮",
     map js ["麦当劳"; "肯德基"; "星巴克"; "美团"; "饿了么"; "必胜客";
             "海底捞"; "喜茶"; "奶茶"; "餐饮"; "外卖"; "饭"; "午饭";
             "晚饭"; "早餐"; "火锅"]);
    (js "购物",
     map js ["淘宝"; "天猫"; "京东"; "拼多多"; "超市"; "沃尔玛"; "山姆";
             "购物"; "买菜"]);
    (js "出行",
     map js ["滴滴"; "高德"; "打车"; "共享单车"; "地铁"; "公交"; "高速";
             "停车"]);
    (js "数码", map js ["Apple"; "苹果"; "小米"; "华为"; "数码"; "配件"]);
    (js "娱乐",
     map js ["腾讯视频"; "爱奇艺"; "优酷"; "B站"; "QQ音乐"; "网易云";
             "游戏"; "会员"; "电影"]);
    (js "通讯", map js ["话费"; "流量"; "联通"; "移动"; "电信"; "宽带"]);
    (js "医疗", map js ["医院"; "药店"; "医保"; "体检"; "诊所"]);
    (js "转账", map js ["转账"; "收款"; "还款"; "红包"; "待确认收款"]);
    (js "生活缴费",
     map js ["水费"; "电费"; "燃气"; "物业"; "供暖"; "生活缴费"]) ].

Definition CATEGORY_PRIORITY : list jsstring :=
  map js ["转账"; "生活缴费"; "出行"; "餐饮"; "购物"; "数码"; "娱乐";
          "通讯"; "医疗"].

(** One turn of the inner loop: empty keywords are skipped, the first
    keyword found in the text ends the loop. *)
Definition kwHit (text kw : jsstring) : bool :=
  match kw with
  | [] => false
  | _ => includes text (toLowerCase kw)
  end.

(** The set [hits], as the list of its members in insertion order. *)
Definition hitsOf (text : jsstring) : list jsstring :=
  map fst (filter (fun e => existsb (kwHit text) (snd e)) CATEGORY_KEYWORDS).

Definition has (hits : list jsstring) (c : jsstring) : bool :=
  existsb (jsstring_eqb c) hits.

Definition guessCategory (payee note : jsstring) : jsstring :=
  let text := toLowerCase (payee ++ js " " ++ note) in
  let hits := hitsOf text in
  match hits with
  | [] =>
    if includes text (js "转账") || includes text (js "收款")
    then js "转账" else js "其他"
  | h0 :: _ =>
    match find (has hits) CATEGORY_PRIORITY with
    | Some c => c
    | None => h0
    end
  end.

(** The text the classifier searches. *)
Definition textOf (payee note : jsstring) : jsstring :=
  toLowerCase (payee ++ js " " ++ note).

(** Category [c] matches: an entry of the table under that label has a
    keyword in the text. *)
Definition hit (text c : jsstring) : bool :=
  existsb (fun e => jsstring_eqb c (fst e) && existsb (kwHit text) (snd e))
          CATEGORY_KEYWORDS.

(** The keywords the table lists under a label. *)
Definition keywordsOf (c : jsstring) : list jsstring :=
  flat_map (fun e => if jsstring_eqb c (fst e) then snd e else [])
           CATEGORY_KEYWORDS.

(* ================================================================== *)
(** * Regular expressions

    The patterns of the program, as syntax trees, and the backtracking
    matcher of ECMAScript over them: greedy quantifiers, alternatives tried
    left to right, a quantified pattern that matched the empty string is not
    repeated. *)

Inductive regex :=
| REmpty
| RChar (p : N -> bool)
| RSeq (a b : regex)
| RAlt (a b : regex)
| RRep (lo : nat) (hi : option nat) (a : regex)
| RGroup (i : nat) (a : regex)
| RBegin
| REnd.

(** Group [i] spans the code units from [fst] to [snd]. *)
Definition captures := list (nat * (nat * nat)).

Definition cont := nat -> jsstring -> captures -> option captures.

Definition hiZero (hi : option nat) : bool :=
  match hi with Some O => true | _ => false end.

Fixpoint rmatch (r : regex) (pos : nat) (rest : jsstring) (cs : captures)
    (k : cont) {struct r} : option captures :=
  match r with
  | REmpty => k pos rest cs
  | RChar p =>
    match rest with
    | c :: rest' => if p c then k (S pos) rest' cs else None
    | [] => None
    end
  | RSeq a b => rmatch a pos rest cs (fun pos' rest' cs' => rmatch b pos' rest' cs' k)
  | RAlt a b =>
    match rmatch a pos rest cs k with
    | Some out => Some out
    | None => rmatch b pos rest cs k
    end
  | RGroup i a =>
    rmatch a pos rest cs (fun pos' rest' cs' => k pos' rest' ((i, (pos, pos')) :: cs'))
  | RBegin => if Nat.eqb pos 0 then k pos rest cs else None
  | REnd => match rest with [] => k pos rest cs | _ => None end
  | RRep lo hi a =>
    (fix rep (fuel lo : nat) (hi : option nat) (pos : nat) (rest : jsstring)
         (cs : captures) {struct fuel} : option captures :=
       let stop := if Nat.eqb lo 0 then k pos rest cs else None in
       match fuel with
       | O => stop
       | S fuel' =>
         if hiZero hi then stop
         else
           match rmatch a pos rest cs
                   (fun pos' rest' cs' =>
                      if Nat.eqb lo 0 && Nat.eqb pos' pos then None
                      else rep fuel' (Nat.pred lo) (option_map Nat.pred hi)
                               pos' rest' cs') with
           | Some out => Some out
           | None => stop
           end
       end) (lo + List.length rest) lo hi pos rest cs
  end.

(** The match at the leftmost position where there is one; group 0 is the
    whole match. *)
Fixpoint searchFrom (r : regex) (pos : nat) (rest : jsstring)
    : option captures :=
  match rmatch r pos rest [] (fun pos' _ cs => Some ((0, (pos, pos')) :: cs)) with
  | Some cs => Some cs
  | None =>
    match rest with
    | [] => None
    | _ :: rest' => searchFrom r (S pos) rest'
    end
  end.

Fixpoint capture (cs : captures) (i : nat) : option (nat * nat) :=
  match cs with
  | [] => None
  | (j, se) :: cs' => if Nat.eqb i j then Some se else capture cs' i
  end.

(** [s.match(r)], read at index [i]: [None] when there is no match (or the
    group took no part in it). *)
Definition matchGroup (s : jsstring) (r : regex) (i : nat) : option jsstring :=
  match searchFrom r 0 s with
  | Some cs =>
    match capture cs i with
    | Some (a, b) => Some (slice s a b)
    | None => None
    end
  | None => None
  end.

(** Building blocks, named after the notation of the source. *)
Definition lit (c : N) : regex := RChar (N.eqb c).
Definition litI (c : N) : regex := RChar (fun d => N.eqb (lowerUnit d) (lowerUnit c)).
Definition digit : regex := RChar isDigit.
Definition opt (a : regex) : regex := RRep 0 (Some 1) a.
Definition plus (a : regex) : regex := RRep 1 None a.
Definition star (a : regex) : regex := RRep 0 None a.
Definition between (lo hi : nat) (a : regex) : regex := RRep lo (Some hi) a.
Definition exactly (n : nat) (a : regex) : regex := RRep n (Some n) a.
Definition oneOf (s : string) : regex := RChar (fun c => existsb (N.eqb c) (js s)).

Fixpoint seqs (rs : list regex) : regex :=
  match rs with
  | [] => REmpty
  | [a] => a
  | a :: rs' => RSeq a (seqs rs')
  end.

Fixpoint alts (rs : list regex) : regex :=
  match rs with
  | [] => RChar (fun _ => false)
  | [a] => a
  | a :: rs' => RAlt a (alts rs')
  end.

Definition word (ch : N -> regex) (s : string) : regex := seqs (map ch (js s)).

Definition isHan (c : N) : bool := ((19968 <=? c) && (c <=? 40869))%N.
Definition isLatin (c : N) : bool :=
  ((65 <=? c) && (c <=? 90) || (97 <=? c) && (c <=? 122))%N.

(** [/(-?\d+(?:[.,]\d+)?)(?:\s*(?:元|块|rmb|cny|￥))?/i] *)
Definition reAmount : regex :=
  seqs [ RGroup 1 (seqs [opt (lit 45); plus digit;
                         opt (seqs [oneOf ".,"; plus digit])]);
         opt (seqs [star (RChar isWhite);
                    alts [word litI "元"; word litI "块"; word litI "rmb";
                          word litI "cny"; word litI "￥"]]) ].

(** [\d{4}-\d{1,2}-\d{1,2}] and [\d{1,2}:\d{2}] *)
Definition ymd : regex :=
  seqs [exactly 4 digit; lit 45; between 1 2 digit; lit 45; between 1 2 digit].
Definition hhmm : regex := seqs [between 1 2 digit; lit 58; exactly 2 digit].

(** [/(\d{4}-\d{1,2}-\d{1,2})[ T]?(\d{1,2}:\d{2})/] *)
Definition reFull : regex := seqs [RGroup 1 ymd; opt (oneOf " T"); RGroup 2 hhmm].
(** [/(\d{4}-\d{1,2}-\d{1,2})/] *)
Definition reYMD : regex := RGroup 1 ymd.
(** [/(\d{1,2}:\d{2})/] *)
Definition reHM : regex := RGroup 1 hhmm.
(** [/^(\d{1,2}:\d{2})$/] *)
Definition reBareHM : regex := seqs [RBegin; RGroup 1 hhmm; REnd].

(** [/[在于去给向]([一-龥A-Za-z0-9_\-·]{2,20})/] *)
Definition rePayee : regex :=
  seqs [ oneOf "在于去给向";
         RGroup 1 (between 2 20
           (RChar (fun c => isHan c || isLatin c || isDigit c
                            || existsb (N.eqb c) (js "_-·")))) ].

(** [/([一-龥A-Za-z]{2,20})/] *)
Definition reWord : regex :=
  RGroup 1 (between 2 20 (RChar (fun c => isHan c || isLatin c))).

(* ================================================================== *)
(** * Heuristic field extractor *)

(** The shape both extractors answer in.  The amount is any JSON scalar;
    the text fields are a string or null. *)
Record draft := {
  d_amount : jsval;
  d_time : option jsstring;
  d_category : option jsstring;
  d_payee : option jsstring;
  d_note : option jsstring
}.

Definition parseTextHeuristic (text : jsstring) : draft :=
  let s := trim text in
  let amount :=
    match matchGroup s reAmount 1 with
    | Some g => VNum (StringToNumber (replaceFirst g (js ",") []))
    | None => VNull
    end in
  let timeStr :=
    match matchGroup s reFull 1, matchGroup s reFull 2 with
    | Some d, Some t => Some (d ++ js " " ++ t)
    | _, _ =>
      match matchGroup s reYMD 1, matchGroup s reHM 1 with
      | Some d, Some t => Some (d ++ js " " ++ t)
      | _, Some t => Some t
      | _, None => None
      end
    end in
  let payee :=
    match matchGroup s rePayee 1 with
    | Some (c :: p) => c :: p
    | _ =>
      match matchGroup s reWord 1 with
      | Some p => p
      | None => []
      end
    end in
  {| d_amount := amount;
     d_time := timeStr;
     d_category := Some (guessCategory payee s);
     d_payee := Some payee;
     d_note := Some s |}.

(* ================================================================== *)
(** * Dates *)

(** A [Date] object: its time value, [None] for an Invalid Date. *)
Definition jsdate := option Z.

Definition msPerDay : Z := 86400000.

(** Year, month (1..12) and day of the month of a day number, in the
    proleptic Gregorian calendar. *)
Definition civil_from_days (z0 : Z) : Z * Z * Z :=
  let z := (z0 + 719468)%Z in
  let era := (z / 146097)%Z in
  let doe := (z - era * 146097)%Z in
  let yoe := ((doe - doe / 1460 + doe / 36524 - doe / 146096) / 365)%Z in
  let doy := (doe - (365 * yoe + yoe / 4 - yoe / 100))%Z in
  let mp := ((5 * doy + 2) / 153)%Z in
  let d := (doy - (153 * mp + 2) / 5 + 1)%Z in
  let m := (if (mp <? 10)%Z then mp + 3 else mp - 9)%Z in
  ((yoe + era * 400 + (if (m <=? 2)%Z then 1 else 0))%Z, m, d).

Definition days_from_civil (y0 m d : Z) : Z :=
  let y := (if (m <=? 2)%Z then y0 - 1 else y0)%Z in
  let era := (y / 400)%Z in
  let yoe := (y - era * 400)%Z in
  let doy := ((153 * (if (m >? 2)%Z then m - 3 else m + 9) + 2) / 5 + d - 1)%Z in
  let doe := (yoe * 365 + yoe / 4 - yoe / 100 + doy)%Z in
  (era * 146097 + doe - 719468)%Z.

Definition getUTCFullYear (t : Z) : Z := fst (fst (civil_from_days (t / msPerDay))).
Definition getUTCMonth (t : Z) : Z := (snd (fst (civil_from_days (t / msPerDay))) - 1)%Z.
Definition getUTCDate (t : Z) : Z := snd (civil_from_days (t / msPerDay)).
Definition getUTCHours (t : Z) : Z := ((t mod msPerDay) / 3600000)%Z.
Definition getUTCMinutes (t : Z) : Z := (((t mod msPerDay) / 60000) mod 60)%Z.
Definition getUTCSeconds (t : Z) : Z := (((t mod msPerDay) / 1000) mod 60)%Z.
Definition getUTCMilliseconds (t : Z) : Z := (t mod 1000)%Z.

(** [String(n)] of an integer. *)
Definition intString (z : Z) : jsstring :=
  js (DecimalString.NilZero.string_of_int (Z.to_int z)).

(** [s.padStart(n, "0")]. *)
Definition padStart0 (n : nat) (s : jsstring) : jsstring :=
  repeat 48%N (n - List.length s) ++ s.

(** [pad] of [formatTimeLocal]. *)
Definition pad (z : Z) : jsstring := padStart0 2 (intString z).

(** [Date.prototype.toISOString] of a valid date; an Invalid Date makes
    it throw a RangeError, the [None] here. *)
Definition toISOString (d : jsdate) : option jsstring :=
  match d with
  | None => None
  | Some t =>
    let y := getUTCFullYear t in
    let year :=
      if ((0 <=? y) && (y <=? 9999))%Z then padStart0 4 (intString y)
      else (if (y <? 0)%Z then js "-" else js "+") ++ padStart0 6 (intString (Z.abs y)) in
    Some (year ++ js "-" ++ pad (getUTCMonth t + 1) ++ js "-" ++ pad (getUTCDate t)
          ++ js "T" ++ pad (getUTCHours t) ++ js ":" ++ pad (getUTCMinutes t)
          ++ js ":" ++ pad (getUTCSeconds t) ++ js "."
          ++ padStart0 3 (intString (getUTCMilliseconds t)) ++ js "Z")
  end.

(** The time value a number denotes as the argument of [new Date]. *)
Definition TimeClip (n : jsnum) : jsdate :=
  match n with
  | Fin q =>
    let t := (Qnum q ÷ Zpos (Qden q))%Z in
    if (Z.abs t <=? 8640000000000000)%Z then Some t else None
  | _ => None
  end.

(* ================================================================== *)
(** * The platform *)

(** The parts an [Intl.DateTimeFormat] of locale en-CA yields. *)
Record dateParts := {
  p_year : jsstring;
  p_month : jsstring;
  p_day : jsstring;
  p_hour : jsstring;
  p_minute : jsstring
}.

(** Values of the document store. *)
Inductive bson :=
| BMissing
| BNull
| BBool (b : bool)
| BNum (n : jsnum)
| BStr (s : jsstring)
| BDate (t : Z).

(** What a date-parsing operator of the store does with a string: a date,
    a conversion failure (which an [onError] clause catches), or another
    error (an unusable [timezone] argument), which no clause catches. *)
Inductive parsed :=
| PDate (t : Z)
| PConversionFailure
| PError.

(** The types of the paths of [expenseSchema]. *)
Inductive schemaType :=
| TNumber
| TString
| TDate.

Record Platform := {
  (** [Date.parse] of the host: [None] is [NaN]. *)
  DateParse : jsstring -> option Z;
  (** Wall-clock parts of an instant in a zone: [None] is the RangeError
      of an identifier the zone database does not know. *)
  zoneParts : jsstring -> Z -> option dateParts;
  (** [$dateFromString] with an optional [format] and [timezone]. *)
  dateFromString : option jsstring -> option bson -> jsstring -> parsed;
  (** [$toDate] of a string: [None] is the error the operator raises on a
      string it cannot convert. *)
  toDate : jsstring -> option Z;
  (** The instant the driver writes for a [Date] whose time value is
      [NaN]. *)
  invalidDateBound : Z;
  (** The two extraction providers, each behind its adapter and the
      [.catch(() => null)] of the route: [None] is every answer that is
      not an object. *)
  callOpenAIExtract : jsstring -> option draft;
  callQwenExtract : jsstring -> option draft;
  (** The ObjectId a string denotes when a query casts its [_id]: [None]
      is the CastError of a string that denotes none. *)
  castObjectId : jsstring -> option N;
  (** The cast of a stored value to the type of its path, for a value of
      another type, when a document is loaded from the store: [None] is
      the CastError. *)
  castStored : schemaType -> bson -> option bson
}.

(** [new Date(v)]. *)
Definition newDate (P : Platform) (v : jsval) : jsdate :=
  match v with
  | VStr s => DateParse P s
  | VUndefined => None
  | _ => TimeClip (ToNumber v)
  end.

(** [tz || "Asia/Shanghai"]. *)
Definition zoneOr (tz : jsstring) : jsstring :=
  match tz with [] => js "Asia/Shanghai" | _ => tz end.

(** [formatToParts] throws on an unknown zone and on an Invalid Date. *)
Definition formatToParts (P : Platform) (tz : jsstring) (d : jsdate)
    : option dateParts :=
  match d with
  | Some t => zoneParts P tz t
  | None => None
  end.

Definition formatTimeLocal (P : Platform) (date : jsdate) (tz : jsstring)
    : jsstring :=
  match formatToParts P tz date with
  | Some parts =>
    p_year parts ++ js "-" ++ p_month parts ++ js "-" ++ p_day parts
    ++ js " " ++ p_hour parts ++ js ":" ++ p_minute parts
  | None =>
    match date with
    | Some t =>
      intString (getUTCFullYear t) ++ js "-" ++ pad (getUTCMonth t + 1)
      ++ js "-" ++ pad (getUTCDate t) ++ js " " ++ pad (getUTCHours t)
      ++ js ":" ++ pad (getUTCMinutes t)
    | None => js "NaN-NaN-NaN NaN:NaN"
    end
  end.

(** [localStr] of a bare time of day: today's date in the zone, then the
    time. *)
Definition anchored (parts : dateParts) (hm : jsstring) : jsstring :=
  p_year parts ++ js "-" ++ p_month parts ++ js "-" ++ p_day parts
  ++ js " " ++ hm.

(** [combineDateTime(tz, timeStr)] at the instant [now] of the clock.  The
    only statement of its [try] block that can throw is the formatter of
    an unknown zone. *)
Definition combineDateTime (P : Platform) (now : Z) (tz timeStr : jsstring)
    : jsdate :=
  let tzIntl := zoneOr tz in
  match timeStr with
  | [] => Some now
  | _ =>
    match matchGroup timeStr reBareHM 1 with
    | Some hm =>
      match formatToParts P tzIntl (Some now) with
      | Some parts =>
        DateParse P (replaceFirst (anchored parts hm) (js "/") (js "-"))
      | None => Some now
      end
    | None => DateParse P (replaceFirst timeStr (js "/") (js "-"))
    end
  end.

(* ================================================================== *)
(** * Configuration and documents *)

Record Config := {
  AI_PROVIDER : jsstring;
  OPENAI_API_KEY : jsstring;
  DASHSCOPE_API_KEY : jsstring;
  (** The variable of the environment, when it is set. *)
  FORCE_CHAT_ID : option jsstring
}.

(** [CHAT_ID]: the number [FORCE_CHAT_ID] reads as, or null. *)
Definition CHAT_ID (cfg : Config) : option jsnum :=
  match FORCE_CHAT_ID cfg with
  | Some (c :: e) =>
    let n := StringToNumber (c :: e) in
    if Number_isNaN n then None else Some n
  | _ => None
  end.

(** [CHAT_ID] where the program tests it for truth: the enforced scope. *)
Definition enforced (cfg : Config) : option jsnum :=
  match CHAT_ID cfg with
  | Some n => if isZero n then None else Some n
  | None => None
  end.

(** A document of the collection.  The schema is not strict: a field holds
    whatever its producer wrote, or is missing. *)
Record doc := {
  _id : N;
  amount : bson;
  category : bson;
  payee : bson;
  time : bson;
  chat_id : bson;
  ts_utc : bson;
  time_local : bson;
  tz : bson;
  ym : bson;
  created_at_utc : bson;
  note : bson;
  source : bson;
  createdAt : bson
}.

(* ================================================================== *)
(** * Time reconciliation at read time *)

(** What an expression of the pipeline evaluates to; [Raised] fails the
    whole aggregation. *)
Inductive evaluated :=
| Value (v : bson)
| Raised.

Definition bsonType (v : bson) : string :=
  match v with
  | BMissing => "missing"
  | BNull => "null"
  | BBool _ => "bool"
  | BNum _ => "double"
  | BStr _ => "string"
  | BDate _ => "date"
  end.

(** [$ifNull: [a, b]]. *)
Definition ifNull (a b : evaluated) : evaluated :=
  match a with
  | Value BNull | Value BMissing => b
  | _ => a
  end.

(** [$switch]: the [then] of the first branch whose [case] holds. *)
Definition switch (branches : list (bool * evaluated)) (default : evaluated)
    : evaluated :=
  match find fst branches with
  | Some (_, v) => v
  | None => default
  end.

(** [$dateFromString] with [onNull: null, onError: null] on a field [v]. *)
Definition dateFromStringOrNull (P : Platform) (v : bson)
    (format : option jsstring) (timezone : option bson) : evaluated :=
  match v with
  | BStr s =>
    match dateFromString P format timezone s with
    | PDate t => Value (BDate t)
    | PConversionFailure => Value BNull
    | PError => Raised
    end
  | _ => Value BNull
  end.

(** [$toDate] on a field [v] that holds a string. *)
Definition toDateOf (P : Platform) (v : bson) : evaluated :=
  match v with
  | BStr s =>
    match toDate P s with
    | Some t => Value (BDate t)
    | None => Raised
    end
  | _ => Value BNull
  end.

(** The variable [tz] of the stage: [$ifNull: ["$tz", "Asia/Shanghai"]]. *)
Definition zoneOfDoc (d : doc) : bson :=
  match tz d with
  | BMissing | BNull => BStr (js "Asia/Shanghai")
  | v => v
  end.

(** A field holds a point in time; a field holds a string. *)
Definition isDate (v : bson) : Prop := exists t, v = BDate t.
Definition isString (v : bson) : Prop := exists s, v = BStr s.

(** The expression [_time] of [addParsedTimeStage]. *)
Definition parsedTime (P : Platform) (d : doc) : evaluated :=
  let tz := zoneOfDoc d in
  switch
    [ (String.eqb (bsonType (time d)) "date", Value (time d));
      (String.eqb (bsonType (time d)) "string",
       ifNull (dateFromStringOrNull P (time d) (Some (js "%Y-%m-%d %H:%M")) None)
         (ifNull (dateFromStringOrNull P (time d) (Some (js "%Y/%m/%d, %H:%M")) None)
            (toDateOf P (time d))));
      (String.eqb (bsonType (ts_utc d)) "date", Value (ts_utc d));
      (String.eqb (bsonType (created_at_utc d)) "date", Value (created_at_utc d));
      (String.eqb (bsonType (time_local d)) "string",
       ifNull (dateFromStringOrNull P (time_local d) (Some (js "%Y-%m-%d %H:%M")) (Some tz))
         (dateFromStringOrNull P (time_local d) None (Some tz)));
      (String.eqb (bsonType (createdAt d)) "date", Value (createdAt d)) ]
    (Value BNull).

(** [addParsedTimeStage] over the collection: every document with its
    [_time]; one expression that raises fails the stage. *)
Fixpoint addParsedTimeStage (P : Platform) (ds : list doc)
    : option (list (doc * bson)) :=
  match ds with
  | [] => Some []
  | d :: ds' =>
    match parsedTime P d, addParsedTimeStage P ds' with
    | Value t, Some out => Some ((d, t) :: out)
    | _, _ => None
    end
  end.

(* ================================================================== *)
(** * Query engine *)

(** What a route answers: a body with its status, or an error. *)
Inductive response (A : Type) :=
| Sent (status : nat) (body : A)
| Failed (status : nat) (error : string).
Arguments Sent {A} status body.
Arguments Failed {A} status error.

(** [{ chat_id: n }]: the field holds a number equal to [n]. *)
Definition chatIs (n : jsnum) (d : doc) : bool :=
  match chat_id d with
  | BNum m => num_eqb m n
  | _ => false
  end.

(** [{ chat_id: { $exists: false } }]. *)
Definition chatMissing (d : doc) : bool :=
  match chat_id d with
  | BMissing => true
  | _ => false
  end.

(** [chatGuardStage], when there is one. *)
Definition chatGuardStage (cfg : Config) : option (doc -> bool) :=
  match enforced cfg with
  | Some n => Some (fun d => chatIs n d || chatMissing d)
  | None => None
  end.

(** The parameters of a query string; each is a string or absent. *)
Record query := {
  q_page : option jsstring;
  q_limit : option jsstring;
  q_start : option jsstring;
  q_end : option jsstring;
  q_q : option jsstring;
  q_chat_id : option jsstring
}.

(** [parseDate]. *)
Definition parseDate (P : Platform) (s : option jsstring) : option jsdate :=
  match s with
  | Some (c :: r) => Some (DateParse P (c :: r))
  | _ => None
  end.

Definition boundOf (P : Platform) (d : jsdate) : Z :=
  match d with
  | Some t => t
  | None => invalidDateBound P
  end.

(** [{ _time: bound }]: a null [_time] is in no range. *)
Definition inRange (P : Platform) (start end_ : option jsdate) (t : bson) : bool :=
  match t with
  | BDate x =>
    match start with Some b => (boundOf P b <=? x)%Z | None => true end
    && match end_ with Some b => (x <=? boundOf P b)%Z | None => true end
  | _ => false
  end.

(** A field matches [new RegExp(rxEscape(q), "i")]: it is a string and
    holds [q], letter case apart. *)
Definition holdsText (q : jsstring) (v : bson) : bool :=
  match v with
  | BStr s => includes (toLowerCase s) (toLowerCase q)
  | _ => false
  end.

(** The [$match] on [_time], when the request has a bound. *)
Definition rangeStage (P : Platform) (rq : query) (t : bson) : bool :=
  match parseDate P (q_start rq), parseDate P (q_end rq) with
  | None, None => true
  | start, end_ => inRange P start end_ t
  end.

(** The [$match] on the scope of the request, when it reads as a number. *)
Definition requestedScope (rq : query) (d : doc) : bool :=
  match q_chat_id rq with
  | Some (c :: r) =>
    let reqChatId := StringToNumber (c :: r) in
    if Number_isNaN reqChatId then true else chatIs reqChatId d
  | _ => true
  end.

(** The stages both queries begin with, as one filter over the documents
    with their [_time]: the guard, the scope of the request, the range. *)
Definition scopeAndRange (P : Platform) (cfg : Config) (rq : query)
    (dt : doc * bson) : bool :=
  match chatGuardStage cfg with
  | Some guard => guard (fst dt)
  | None => true
  end
  && requestedScope rq (fst dt)
  && rangeStage P rq (snd dt).

Definition textFilter (rq : query) (dt : doc * bson) : bool :=
  match trim (orElse (q_q rq) []) with
  | [] => true
  | q => holdsText q (payee (fst dt)) || holdsText q (category (fst dt))
         || holdsText q (note (fst dt))
  end.

(** [{ _time: -1, _id: -1 }]: [a] goes before [b].  Null is below every
    date. *)
Definition before (a b : doc * bson) : bool :=
  let key (t : bson) := match t with BDate x => Some x | _ => None end in
  match key (snd a), key (snd b) with
  | Some x, Some y => (y <? x)%Z || (x =? y)%Z && (_id (fst b) <? _id (fst a))%N
  | Some _, None => true
  | None, Some _ => false
  | None, None => (_id (fst b) <? _id (fst a))%N
  end.

Fixpoint insertBy {A} (lt : A -> A -> bool) (x : A) (l : list A) : list A :=
  match l with
  | [] => [x]
  | y :: l' => if lt y x then y :: insertBy lt x l' else x :: l
  end.

Definition sortBy {A} (lt : A -> A -> bool) (l : list A) : list A :=
  fold_right (insertBy lt) [] l.

(** A document of the listing, after [$project]. *)
Record row := {
  r_id : N;
  r_amount : bson;
  r_category : bson;
  r_payee : bson;
  r_note : bson;
  r_source : bson;
  r_chat_id : bson;
  r_createdAt : bson;
  r_time : bson
}.

Definition project (dt : doc * bson) : row :=
  let d := fst dt in
  {| r_id := _id d; r_amount := amount d; r_category := category d;
     r_payee := payee d; r_note := note d; r_source := source d;
     r_chat_id := chat_id d; r_createdAt := createdAt d; r_time := snd dt |}.

Record listing := {
  l_total : nat;
  l_page : nat;
  l_pages : nat;
  l_limit : nat;
  l_data : list row
}.

(** A whole number that came out of [parseInt] and [Math.max]. *)
Definition wholeOf (n : jsnum) : option nat :=
  match n with
  | Fin q => Some (Z.to_nat (Qnum q / Zpos (Qden q)))
  | _ => None
  end.

Definition ceilDiv (a b : nat) : nat := (a + b - 1) / b.

(** [page] and [limit] of a request. *)
Definition pageOf (rq : query) : jsnum :=
  Math_max (parseInt10 (orElse (q_page rq) (js "1"))) (Fin 1).

Definition limitOf (rq : query) : jsnum :=
  Math_min (Math_max (parseInt10 (orElse (q_limit rq) (js "50"))) (Fin 1))
           (Fin 500).

(** The documents that pass every [$match] of the listing, sorted and
    projected: what [$facet] counts and cuts the page from. *)
Definition listed (P : Platform) (cfg : Config) (rq : query)
    (timed : list (doc * bson)) : list row :=
  map project
      (sortBy before
         (filter (textFilter rq) (filter (scopeAndRange P cfg rq) timed))).

(** [GET /api/expenses].  A [page] or [limit] that is not a number reaches
    [$skip] and [$limit] as [NaN], which fails the aggregation, as does a
    [_time] that raises. *)
Definition listExpenses (P : Platform) (cfg : Config) (store : list doc)
    (rq : query) : response listing :=
  match wholeOf (pageOf rq), wholeOf (limitOf rq), addParsedTimeStage P store with
  | Some page, Some limit, Some timed =>
    let sorted := listed P cfg rq timed in
    let data := firstn limit (skipn ((page - 1) * limit) sorted) in
    let total := List.length sorted in
    Sent 200 {| l_total := total; l_page := page; l_pages := ceilDiv total limit;
                l_limit := limit; l_data := data |}
  | _, _, _ => Failed 500 "Failed to fetch expenses"
  end.

(** A request with another [page]; a request with its [chat_id] taken
    out. *)
Definition withPage (rq : query) (page : jsstring) : query :=
  {| q_page := Some page; q_limit := q_limit rq; q_start := q_start rq;
     q_end := q_end rq; q_q := q_q rq; q_chat_id := q_chat_id rq |}.


(** [a + b]. *)
Definition num_add (a b : jsnum) : jsnum :=
  match a, b with
  | NaN, _ | _, NaN => NaN
  | Inf s, Inf t => if Bool.eqb s t then Inf s else NaN
  | Inf s, _ | _, Inf s => Inf s
  | Fin x, Fin y => Fin (Qred (Qplus x y))
  end.

Definition bson_eqb (a b : bson) : bool :=
  match a, b with
  | BMissing, BMissing | BNull, BNull => true
  | BBool x, BBool y => Bool.eqb x y
  | BNum x, BNum y => num_eqb x y || Number_isNaN x && Number_isNaN y
  | BStr x, BStr y => jsstring_eqb x y
  | BDate x, BDate y => (x =? y)%Z
  | _, _ => false
  end.

(** A group of the summary, after [$project]. *)
Record group := {
  g_category : bson;
  g_total : jsnum;
  g_count : nat
}.

(** [$group] by [$category]: a missing category groups under null; what
    is not a number adds nothing to [$sum]. *)
Fixpoint addToGroups (key : bson) (amt : jsnum) (gs : list group) : list group :=
  match gs with
  | [] => [{| g_category := key; g_total := amt; g_count := 1 |}]
  | g :: gs' =>
    if bson_eqb (g_category g) key
    then {| g_category := key; g_total := num_add (g_total g) amt;
            g_count := S (g_count g) |} :: gs'
    else g :: addToGroups key amt gs'
  end.

Definition groupByCategory (ds : list (doc * bson)) : list group :=
  fold_left
    (fun gs dt =>
       addToGroups
         (match category (fst dt) with BMissing => BNull | v => v end)
         (match amount (fst dt) with BNum n => n | _ => Fin 0 end) gs)
    ds [].

(** [{ total: -1 }]; [NaN] is below every number. *)
Definition largerTotal (a b : group) : bool :=
  match g_total a, g_total b with
  | NaN, _ => false
  | _, NaN => true
  | x, y => negb (num_ge y x)
  end.

(** [GET /api/stats/category]. *)
Definition categoryStats (P : Platform) (cfg : Config) (store : list doc)
    (rq : query) : response (list group) :=
  match addParsedTimeStage P store with
  | Some timed =>
    let groups := groupByCategory (filter (scopeAndRange P cfg rq) timed) in
    Sent 200
      (map (fun g =>
              {| g_category := match g_category g with
                               | BNull => BStr (js "Uncategorized")
                               | v => v
                               end;
                 g_total := g_total g; g_count := g_count g |})
           (sortBy largerTotal groups))
  | None => Failed 500 "Failed to build summary"
  end.

(** The documents a summary has counted. *)
Definition counted (gs : list group) : nat := list_sum (map g_count gs).

(* ================================================================== *)
(** * The model of the collection *)

Definition sourceEnum : list jsstring := map js ["telegram"; "web"; "import"; "other"].

(** The validators of [expenseSchema] on a document about to be saved:
    [amount] is required, casts to a number ([NaN] does not) and is at
    least [min: 0]; [source] is in its [enum]. *)
Definition validates (d : doc) : bool :=
  match amount d with
  | BNum n => negb (Number_isNaN n) && num_ge n (Fin 0)
  | _ => false
  end
  && match source d with
     | BStr s => existsb (jsstring_eqb s) sourceEnum
     | BMissing => true
     | _ => false
     end.

(** The identifier the store gives a new document: above all it holds. *)
Definition nextId (store : list doc) : N :=
  N.succ (fold_right (fun d m => N.max (_id d) m) 0%N store).

Definition withId (i : N) (now : Z) (d : doc) : doc :=
  {| _id := i; amount := amount d; category := category d; payee := payee d;
     time := time d; chat_id := chat_id d; ts_utc := ts_utc d;
     time_local := time_local d; tz := tz d; ym := ym d;
     created_at_utc := created_at_utc d; note := note d; source := source d;
     createdAt := BDate now |}.

(** [Expense.create(payload)]: validation, then the insertion; [None] is
    the ValidationError it throws. *)
Definition Expense_create (now : Z) (store : list doc) (payload : doc)
    : option (doc * list doc) :=
  if validates payload
  then let d := withId (nextId store) now payload in Some (d, store ++ [d])
  else None.

(** The object [fields] of the update route. *)
Record fields := {
  f_amount : option jsnum;
  f_category : option jsstring;
  f_payee : option jsstring;
  f_note : option jsstring;
  f_time : option Z;
  f_ts_utc : option Z;
  f_time_local : option jsstring;
  f_tz : option jsstring;
  f_ym : option jsstring
}.

Definition setField {A} (wrap : A -> bson) (new : option A) (old : bson) : bson :=
  match new with
  | Some v => wrap v
  | None => old
  end.

Definition applyFields (f : fields) (d : doc) : doc :=
  {| _id := _id d;
     amount := setField BNum (f_amount f) (amount d);
     category := setField BStr (f_category f) (category d);
     payee := setField BStr (f_payee f) (payee d);
     time := setField BDate (f_time f) (time d);
     chat_id := chat_id d;
     ts_utc := setField BDate (f_ts_utc f) (ts_utc d);
     time_local := setField BStr (f_time_local f) (time_local d);
     tz := setField BStr (f_tz f) (tz d);
     ym := setField BStr (f_ym f) (ym d);
     created_at_utc := created_at_utc d;
     note := setField BStr (f_note f) (note d);
     source := source d;
     createdAt := createdAt d |}.

(** The validators of the schema on the paths of an update. *)
Definition validatesUpdate (f : fields) : bool :=
  match f_amount f with
  | Some n => num_ge n (Fin 0)
  | None => true
  end.

Inductive updated :=
| Threw
| NoSuchDocument
| Updated (d : doc) (store : list doc).

(** The cast of a stored value to the type of its path: a value of that
    type is kept (a number unless it is [NaN], which no number path
    takes), a value of another type is cast by the library. *)
Definition castPath (P : Platform) (ty : schemaType) (v : bson) : option bson :=
  match ty, v with
  | TNumber, BNum n => if Number_isNaN n then None else Some v
  | TString, BStr _ => Some v
  | TDate, BDate _ => Some v
  | _, _ => castStored P ty v
  end.

(** A path of a document that is loaded from the store: null stays null,
    another value is cast to the type of the path, and a path that is
    missing, or whose value does not cast, gets the default of the schema,
    when it has one. *)
Definition initPath (P : Platform) (ty : schemaType) (dflt v : bson) : bson :=
  match v with
  | BMissing => dflt
  | BNull => BNull
  | _ =>
    match castPath P ty v with
    | Some w => w
    | None => dflt
    end
  end.

(** The document a query of the model answers with for a stored one, at
    the instant [now]: the paths of [expenseSchema] with their types and
    defaults. *)
Definition hydrate (P : Platform) (now : Z) (d : doc) : doc :=
  {| _id := _id d;
     amount := initPath P TNumber BMissing (amount d);
     category := initPath P TString (BStr (js "Uncategorized")) (category d);
     payee := initPath P TString (BStr []) (payee d);
     time := initPath P TDate BMissing (time d);
     chat_id := initPath P TNumber BMissing (chat_id d);
     ts_utc := initPath P TDate BMissing (ts_utc d);
     time_local := initPath P TString BMissing (time_local d);
     tz := initPath P TString BMissing (tz d);
     ym := initPath P TString BMissing (ym d);
     created_at_utc := initPath P TDate BMissing (created_at_utc d);
     note := initPath P TString (BStr []) (note d);
     source := initPath P TString (BStr (js "telegram")) (source d);
     createdAt := initPath P TDate (BDate now) (createdAt d) |}.

(** [Expense.findByIdAndUpdate(id, fields, options)] with [new: true],
    answering the new document as the model loads it.  The identifier is
    cast to an ObjectId and the paths of [fields] to their schema types (a
    string that denotes no ObjectId and a [NaN] amount throw); the
    validators run on an update only when [options] asks for them with
    [runValidators]. *)
Definition findByIdAndUpdate (P : Platform) (now : Z) (runValidators : bool)
    (store : list doc) (id : jsstring) (f : fields) : updated :=
  match castObjectId P id with
  | None => Threw
  | Some i =>
    if match f_amount f with Some n => Number_isNaN n | None => false end
    then Threw
    else if runValidators && negb (validatesUpdate f) then Threw
    else
      match find (fun d => (_id d =? i)%N) store with
      | Some d =>
        Updated (hydrate P now (applyFields f d))
                (map (fun e => if (_id e =? i)%N then applyFields f e else e) store)
      | None => NoSuchDocument
      end
  end.

(* ================================================================== *)
(** * Ingestion *)

(** The body of a create request. *)
Record createBody := {
  b_amount : jsval;
  b_category : option jsstring;
  b_payee : option jsstring;
  b_time : jsval;
  b_note : option jsstring;
  b_source : option jsstring;
  b_tz : option jsstring;
  b_chat_id : jsval
}.

(** The scope of a new document: the enforced one, else the one of the
    request when it reads as a number. *)
Definition scopeOf (cfg : Config) (requested : jsval) : bson :=
  match enforced cfg with
  | Some n => BNum n
  | None =>
    if truthy requested && negb (Number_isNaN (ToNumber requested))
    then BNum (ToNumber requested) else BMissing
  end.

(** The payload both creating routes build: the fields, the scope and the
    legacy mirrors of [time].  [None] is the RangeError of [toISOString]
    on an Invalid Date. *)
Definition payloadOf (P : Platform) (cfg : Config) (now : Z) (amt : jsnum)
    (cat pay nte src : jsstring) (t : jsdate) (tzStr : jsstring)
    (requested : jsval) : option doc :=
  match t, toISOString t with
  | Some x, Some iso =>
    Some {| _id := 0%N;
            amount := BNum amt;
            category := BStr cat;
            payee := BStr pay;
            note := BStr nte;
            source := BStr src;
            time := BDate x;
            chat_id := scopeOf cfg requested;
            ts_utc := BDate x;
            tz := BStr tzStr;
            time_local := BStr (formatTimeLocal P t tzStr);
            ym := BStr (slice iso 0 7);
            created_at_utc := BDate now;
            createdAt := BMissing |}
  | _, _ => None
  end.

(** [POST /api/expenses]. *)
Definition createExpense (P : Platform) (cfg : Config) (now : Z)
    (store : list doc) (body : createBody) : response doc * list doc :=
  if negb (truthy (b_amount body)) || negb (truthy (b_time body))
  then (Failed 400 "amount and time are required", store)
  else
    match payloadOf P cfg now (ToNumber (b_amount body))
            (orElse (b_category body) (js "Uncategorized"))
            (orElse (b_payee body) []) (orElse (b_note body) [])
            (orElse (b_source body) (js "web"))
            (newDate P (b_time body))
            (orElse (b_tz body) (js "Asia/Shanghai")) (b_chat_id body) with
    | Some payload =>
      match Expense_create now store payload with
      | Some (d, store') => (Sent 201 d, store')
      | None => (Failed 500 "Failed to create expense", store)
      end
    | None => (Failed 500 "Failed to create expense", store)
    end.

(** The body of a parse-and-create request. *)
Record parseBody := {
  pb_text : option jsstring;
  pb_tz : option jsstring;
  pb_chat_id : jsval
}.

Definition nonEmpty (s : jsstring) : bool :=
  match s with [] => false | _ => true end.

(** The choice of a provider; [None] when none is configured or the one
    chosen gave no object. *)
Definition extractByAI (P : Platform) (cfg : Config) (text : jsstring)
    : option draft :=
  if jsstring_eqb (AI_PROVIDER cfg) (js "openai") && nonEmpty (OPENAI_API_KEY cfg)
  then callOpenAIExtract P text
  else if jsstring_eqb (AI_PROVIDER cfg) (js "dashscope")
          && nonEmpty (DASHSCOPE_API_KEY cfg)
  then callQwenExtract P text
  else if nonEmpty (OPENAI_API_KEY cfg) then callOpenAIExtract P text
  else if nonEmpty (DASHSCOPE_API_KEY cfg) then callQwenExtract P text
  else None.

(** The draft the route goes on with. *)
Definition extract (P : Platform) (cfg : Config) (text : jsstring) : draft :=
  match extractByAI P cfg text with
  | Some parsed => parsed
  | None => parseTextHeuristic text
  end.

(** [POST /api/expenses/parse]; the answer holds the document and the
    draft. *)
Definition parseExpense (P : Platform) (cfg : Config) (now : Z)
    (store : list doc) (body : parseBody)
    : response (doc * draft) * list doc :=
  match pb_text body with
  | Some text =>
    if negb (nonEmpty (trim text)) then (Failed 400 "text is required", store)
    else
      let tzStr := orElse (pb_tz body) (js "Asia/Shanghai") in
      let parsed := extract P cfg text in
      let amt := ToNumber (d_amount parsed) in
      if negb (Number_isFinite amt) || isZero amt
      then (Failed 400 "failed to parse amount", store)
      else
        let pay := orElse (d_payee parsed) [] in
        let nte := orElse (d_note parsed) text in
        let cat := match orElse (d_category parsed) [] with
                   | [] => guessCategory pay nte
                   | c => c
                   end in
        let dt := combineDateTime P now tzStr (trim (orElse (d_time parsed) [])) in
        match payloadOf P cfg now amt
                (match cat with [] => js "Uncategorized" | _ => cat end)
                pay nte (js "web") dt tzStr (pb_chat_id body) with
        | Some payload =>
          match Expense_create now store payload with
          | Some (d, store') => (Sent 201 (d, parsed), store')
          | None => (Failed 500 "Failed to parse and create expense", store)
          end
        | None => (Failed 500 "Failed to parse and create expense", store)
        end
  | None => (Failed 400 "text is required", store)
  end.

(** The body of an update request; [VUndefined] and [None] are absent
    keys. *)
Record patchBody := {
  u_amount : jsval;
  u_category : option jsstring;
  u_payee : option jsstring;
  u_note : option jsstring;
  u_time : jsval;
  u_tz : option jsstring
}.

Definition isUndefined (v : jsval) : bool :=
  match v with VUndefined => true | _ => false end.

(** The object [fields] of a body; [None] is the RangeError of
    [toISOString] on an Invalid Date. *)
Definition fieldsOf (P : Platform) (body : patchBody) : option fields :=
  let amt := if isUndefined (u_amount body) then None
             else Some (ToNumber (u_amount body)) in
  let text (v : option jsstring) (d : jsstring) :=
    match v with Some s => Some (orElse (Some s) d) | None => None end in
  let cat := text (u_category body) (js "Uncategorized") in
  let pay := text (u_payee body) [] in
  let nte := text (u_note body) [] in
  if isUndefined (u_time body)
  then Some {| f_amount := amt; f_category := cat; f_payee := pay; f_note := nte;
               f_time := None; f_ts_utc := None; f_time_local := None;
               f_tz := None; f_ym := None |}
  else
    let t := newDate P (u_time body) in
    let tzStr := orElse (u_tz body) (js "Asia/Shanghai") in
    match t, toISOString t with
    | Some x, Some iso =>
      Some {| f_amount := amt; f_category := cat; f_payee := pay; f_note := nte;
              f_time := Some x; f_ts_utc := Some x;
              f_time_local := Some (formatTimeLocal P t tzStr);
              f_tz := Some tzStr; f_ym := Some (slice iso 0 7) |}
    | _, _ => None
    end.

(** [PATCH /api/expenses/:id] at the instant [now], for the [id] of the
    path.  The options of the update are [{ new: true }]: no
    [runValidators]. *)
Definition patchExpense (P : Platform) (now : Z) (store : list doc)
    (id : jsstring) (body : patchBody) : response doc * list doc :=
  match fieldsOf P body with
  | Some f =>
    match findByIdAndUpdate P now false store id f with
    | Updated d store' => (Sent 200 d, store')
    | NoSuchDocument => (Failed 404 "Not found", store)
    | Threw => (Failed 500 "Failed to update expense", store)
    end
  | None => (Failed 500 "Failed to update expense", store)
  end.

(** [DELETE /api/expenses/:id], for the [id] of the path:
    [Expense.findByIdAndDelete(id)] casts it to an ObjectId and throws on a
    string that denotes none. *)
Definition deleteExpense (P : Platform) (store : list doc) (id : jsstring)
    : response bool * list doc :=
  match castObjectId P id with
  | None => (Failed 500 "Failed to delete expense", store)
  | Some i =>
    match find (fun d => (_id d =? i)%N) store with
    | Some _ => (Sent 200 true, filter (fun d => negb (_id d =? i)%N) store)
    | None => (Failed 404 "Not found", store)
    end
  end.

(** The canonical time of a document with its four mirrors. *)
Definition timeFields (d : doc) : bson * bson * bson * bson * bson :=
  (time d, ts_utc d, time_local d, tz d, ym d).



(** The amount of a document is a number and is not below zero. *)
Definition nonNegative (d : doc) : Prop :=
  exists n, amount d = BNum n /\ num_ge n (Fin 0) = true.

(* ================================================================== *)
(** * A platform to run the program on

    A host whose own zone is UTC, with a zone database of two entries, a
    date parser for year-month-day hour:minute strings, and no extraction
    provider.  The instances of the theorems below are evaluated on it. *)

Definition zoneOffset (tz : jsstring) : option Z :=
  if jsstring_eqb tz (js "Asia/Shanghai") then Some 480%Z
  else if jsstring_eqb tz (js "UTC") then Some 0%Z
  else None.

Definition partsAt (off t : Z) : dateParts :=
  let l := (t + off * 60000)%Z in
  {| p_year := padStart0 4 (intString (getUTCFullYear l));
     p_month := pad (getUTCMonth l + 1);
     p_day := pad (getUTCDate l);
     p_hour := pad (getUTCHours l);
     p_minute := pad (getUTCMinutes l) |}.

Definition num (s : jsstring) (r : regex) (i : nat) : Z :=
  match matchGroup s r i with
  | Some g => digitsVal 10 decVal g
  | None => 0%Z
  end.

(** The instant of a string that matches [r] whole, its five groups read
    as year, month, day, hour and minute of a wall clock [off] minutes
    ahead of UTC. *)
Definition readWith (r : regex) (off : Z) (s : jsstring) : option Z :=
  match searchFrom r 0 s with
  | Some _ =>
    let mo := num s r 2 in
    let d := num s r 3 in
    let h := num s r 4 in
    let mi := num s r 5 in
    if ((1 <=? mo) && (mo <=? 12) && (1 <=? d) && (d <=? 31)
        && (h <=? 23) && (mi <=? 59))%Z
    then Some ((days_from_civil (num s r 1) mo d * msPerDay
                + h * 3600000 + mi * 60000 - off * 60000)%Z)
    else None
  | None => None
  end.

Definition five (sep1 : N) (gap : regex) (lo : nat) : regex :=
  seqs [ RBegin; RGroup 1 (exactly 4 digit); lit sep1;
         RGroup 2 (between lo 2 digit); lit sep1; RGroup 3 (between lo 2 digit);
         gap; RGroup 4 (between lo 2 digit); lit 58; RGroup 5 (exactly 2 digit);
         REnd ].

Definition reLoose : regex := five 45 (oneOf " T") 1.
Definition reDash : regex := five 45 (lit 32) 2.
Definition reSlash : regex := five 47 (seqs [lit 44; lit 32]) 2.

Definition hostDateFromString (format : option jsstring) (timezone : option bson)
    (s : jsstring) : parsed :=
  let off := match timezone with
             | None => Some 0%Z
             | Some (BStr z) => zoneOffset z
             | Some _ => None
             end in
  let r := match format with
           | None => Some reLoose
           | Some f =>
             if jsstring_eqb f (js "%Y-%m-%d %H:%M") then Some reDash
             else if jsstring_eqb f (js "%Y/%m/%d, %H:%M") then Some reSlash
             else None
           end in
  match off, r with
  | Some o, Some r =>
    match readWith r o s with
    | Some t => PDate t
    | None => PConversionFailure
    end
  | _, _ => PError
  end.

(** An ObjectId is written in 24 hexadecimal digits. *)
Definition hostObjectId (s : jsstring) : option N :=
  if Nat.eqb (List.length s) 24 && forallb hexDigit s
  then Some (Z.to_N (digitsVal 16 hexVal s))
  else None.

(** Of the casts between types, this host knows those to a number and to
    a date; it casts nothing to a string. *)
Definition hostCastStored (ty : schemaType) (v : bson) : option bson :=
  match ty, v with
  | TNumber, BStr [] => Some BNull
  | TNumber, BStr s =>
    match StringToNumber s with
    | NaN => None
    | n => Some (BNum n)
    end
  | TNumber, BBool b => Some (BNum (if b then Fin 1 else Fin 0))
  | TNumber, BDate t => Some (BNum (ofZ t))
  | TDate, BStr [] => Some BNull
  | TDate, BStr s => option_map BDate (readWith reLoose 0 s)
  | TDate, BNum n => option_map BDate (TimeClip n)
  | _, _ => None
  end.

Definition host : Platform :=
  {| DateParse := readWith reLoose 0;
     zoneParts := fun tz t => option_map (fun off => partsAt off t) (zoneOffset tz);
     dateFromString := hostDateFromString;
     toDate := readWith reLoose 0;
     invalidDateBound := 0%Z;
     callOpenAIExtract := fun _ => None;
     callQwenExtract := fun _ => None;
     castObjectId := hostObjectId;
     castStored := hostCastStored |}.

(** The identifier of a document of the examples, as a request names it:
    zeros, then the two digits given. *)
Definition oid (last : string) : jsstring :=
  js "0000000000000000000000" ++ js last.

(** No key, no provider, no enforced scope. *)
Definition plain : Config :=
  {| AI_PROVIDER := []; OPENAI_API_KEY := []; DASHSCOPE_API_KEY := [];
     FORCE_CHAT_ID := None |}.

(** The scope 957879521 enforced. *)
Definition forced : Config :=
  {| AI_PROVIDER := []; OPENAI_API_KEY := []; DASHSCOPE_API_KEY := [];
     FORCE_CHAT_ID := Some (js "957879521") |}.

(** A document with nothing but its identifier. *)
Definition blank (i : N) : doc :=
  {| _id := i; amount := BMissing; category := BMissing; payee := BMissing;
     time := BMissing; chat_id := BMissing; ts_utc := BMissing;
     time_local := BMissing; tz := BMissing; ym := BMissing;
     created_at_utc := BMissing; note := BMissing; source := BMissing;
     createdAt := BMissing |}.

(** A document of a legacy producer: an identifier, an amount, a scope
    and the time fields. *)
Definition legacy (i : N) (amt chat tm ts tl zone created : bson) : doc :=
  {| _id := i; amount := amt; category := BMissing; payee := BMissing;
     time := tm; chat_id := chat; ts_utc := ts; time_local := tl; tz := zone;
     ym := BMissing; created_at_utc := BMissing; note := BMissing;
     source := BMissing; createdAt := created |}.

(** A document written on 12 August 2025, 20:50 in Shanghai. *)
Definition lunch : doc :=
  legacy 7 (BNum (Fin 12)) BMissing (BDate 1755003000000) (BDate 1755003000000)
         (BStr (js "2025-08-12 20:50")) (BStr (js "Asia/Shanghai")) BMissing.

(** An update of the category alone, and one of the time alone. *)
Definition recategorise : patchBody :=
  {| u_amount := VUndefined; u_category := Some (js "餐饮"); u_payee := None;
     u_note := None; u_time := VUndefined; u_tz := None |}.


(** A create request for 10 at 12:50 of 12 August 2025, and an update of
    the amount to five below zero. *)
Definition ten : createBody :=
  {| b_amount := VNum (Fin 10); b_category := None; b_payee := None;
     b_time := VStr (js "2025-08-12 12:50"); b_note := None; b_source := None;
     b_tz := None; b_chat_id := VUndefined |}.

Definition minusFive : patchBody :=
  {| u_amount := VNum (Fin (-5 # 1)%Q); u_category := None; u_payee := None;
     u_note := None; u_time := VUndefined; u_tz := None |}.

(** A request for pages of two, and one for pages of one. *)
Definition byTwo : query :=
  {| q_page := None; q_limit := Some (js "2"); q_start := None; q_end := None;
     q_q := None; q_chat_id := None |}.

Definition byOne : query :=
  {| q_page := None; q_limit := Some (js "1"); q_start := None; q_end := None;
     q_q := None; q_chat_id := None |}.

(** Three legacy documents: one of the scope 957879521, one of the scope
    42, one without a scope. *)
Definition three : list doc :=
  [ legacy 1 (BNum (Fin 12)) (BNum (Fin 957879521)) BMissing (BDate 1755003000000)
           BMissing BMissing BMissing;
    legacy 2 (BNum (Fin 30)) (BNum (Fin 42)) BMissing (BDate 1755006600000)
           BMissing BMissing BMissing;
    legacy 3 (BNum (Fin 8)) BMissing BMissing BMissing
           (BStr (js "2025-08-12 21:30")) BMissing BMissing ].

(** The documents of a collection with their [_time], when no expression
    raises. *)
Definition timedOf (P : Platform) (store : list doc) : list (doc * bson) :=
  match addParsedTimeStage P store with
  | Some timed => timed
  | None => []
  end.

(** A listing of everything, and one that asks for the scope 42. *)
Definition everything : query :=
  {| q_page := None; q_limit := None; q_start := None; q_end := None;
     q_q := None; q_chat_id := None |}.


(** The third of the three documents, which has no scope, and its
    [_time]: 21:30 in Shanghai. *)
Definition scopeless : doc * bson :=
  (legacy 3 (BNum (Fin 8)) BMissing BMissing BMissing
          (BStr (js "2025-08-12 21:30")) BMissing BMissing,
   BDate 1755005400000).

(** A create request of the scope 42 for 23.5 in the zone UTC, and a
    request whose amount is zero. *)
Definition scoped : createBody :=
  {| b_amount := VStr (js "23.5"); b_category := Some (js "餐饮");
     b_payee := Some (js "麦当劳"); b_time := VNum (Fin 1755003000000);
     b_note := None; b_source := None; b_tz := Some (js "UTC");
     b_chat_id := VNum (Fin 42) |}.

Definition free : createBody :=
  {| b_amount := VNum (Fin 0); b_category := None; b_payee := None;
     b_time := VStr (js "2025-08-12 12:50"); b_note := None; b_source := None;
     b_tz := None; b_chat_id := VUndefined |}.

(** What an update leaves alone in a document, and what it leaves alone
    when the body does not name it. *)
Definition keptByUpdate (i : N) (body : patchBody) (e e' : doc) : Prop :=
  _id e' = _id e
  /\ chat_id e' = chat_id e /\ source e' = source e
  /\ created_at_utc e' = created_at_utc e /\ createdAt e' = createdAt e
  /\ (_id e <> i -> e' = e)
  /\ (u_amount body = VUndefined -> amount e' = amount e)
  /\ (u_category body = None -> category e' = category e)
  /\ (u_payee body = None -> payee e' = payee e)
  /\ (u_note body = None -> note e' = note e).

(** The scope 42 enforced. *)
Definition forced42 : Config :=
  {| AI_PROVIDER := []; OPENAI_API_KEY := []; DASHSCOPE_API_KEY := [];
     FORCE_CHAT_ID := Some (js "42") |}.

(** A row may stand before another in a listing: its time is later, or
    the other has no time, or the times agree and its identifier is not
    the smaller one. *)
Definition mayPrecede (a b : row) : Prop :=
  match r_time a, r_time b with
  | BDate x, BDate y => (y < x)%Z \/ x = y /\ (r_id b <= r_id a)%N
  | BDate _, _ => True
  | _, BDate _ => False
  | _, _ => (r_id b <= r_id a)%N
  end.

(** A row is the projection of a document of the collection, with the
    resolved time of that document. *)
Definition rowOf (P : Platform) (store : list doc) (r : row) : Prop :=
  exists d, In d store /\ parsedTime P d = Value (r_time r)
            /\ r_id r = _id d /\ r_amount r = amount d
            /\ r_category r = category d /\ r_payee r = payee d
            /\ r_note r = note d /\ r_source r = source d
            /\ r_chat_id r = chat_id d /\ r_createdAt r = createdAt d.

(** A listing of August 2025 in pages of two, and a search for "kfc". *)
Definition august : query :=
  {| q_page := Some (js "1"); q_limit := Some (js "2");
     q_start := Some (js "2025-08-01 00:00"); q_end := Some (js "2025-08-31 23:59");
     q_q := None; q_chat_id := None |}.

(** A create request that asks for the scope 957879521. *)
Definition asks957 : createBody :=
  {| b_amount := VNum (Fin 10); b_category := None; b_payee := None;
     b_time := VStr (js "2025-08-12 12:50"); b_note := None;
     b_source := None; b_tz := None; b_chat_id := VNum (Fin 957879521) |}.

(** The answer of no listing. *)
Definition noListing : listing :=
  {| l_total := 0; l_page := 0; l_pages := 0; l_limit := 0; l_data := [] |}.

(** A one with 309 zeros behind it, which is above every finite number,
    and a one with a point and 400 zeros before it, which is nearer to
    zero than to any other number. *)
Definition tooLong : jsstring := 49%N :: repeat 48%N 309.

Definition tooSmall : jsstring := js "0." ++ repeat 48%N 400 ++ js "1".

(* ================================================================== *)
(** * Reading the answer of a provider *)

(** [[\s\S]]: any code unit. *)
Definition anyUnit : regex := RChar (fun _ => true).

(** [a*?] before what follows it, on an input of at most [n] code units
    for an [a] that takes at least one: the lazy star first goes on with
    what follows, and takes one more [a] only when that fails. *)
Fixpoint lazyStar (n : nat) (a : regex) : regex :=
  match n with
  | O => REmpty
  | S n' => RAlt REmpty (RSeq a (lazyStar n' a))
  end.

(** [/```json\s*(\{[\s\S]*?\})\s*```/i] on an input of [n] code units. *)
Definition reFence (n : nat) : regex :=
  seqs [ word litI "```json"; star (RChar isWhite);
         RGroup 1 (seqs [lit 123; lazyStar n anyUnit; lit 125]);
         star (RChar isWhite); word litI "```" ].

(** [/(\{[\s\S]*\})/] *)
Definition reObject : regex := RGroup 1 (seqs [lit 123; star anyUnit; lit 125]).

Section Loose.

(** The values of JSON with [null] among them, and [JSON.parse], [None]
    when it throws. *)
Variable J : Type.
Variable null : J.
Variable JSON_parse : jsstring -> option J.

(** [extractJsonLoose]. *)
Definition extractJsonLoose (str : jsstring) : J :=
  match str with
  | [] => null
  | _ =>
    match JSON_parse str with
    | Some v => v
    | None =>
      let objLike :=
        match matchGroup str reObject 1 with
        | Some g =>
          match JSON_parse g with
          | Some v => v
          | None => null
          end
        | None => null
        end in
      match matchGroup str (reFence (List.length str)) 1 with
      | Some g =>
        match JSON_parse g with
        | Some v => v
        | None => objLike
        end
      | None => objLike
      end
    end
  end.

End Loose.

(** A string from an opening brace to a closing brace. *)
Definition braced (g : jsstring) : Prop := exists mid, g = 123%N :: mid ++ [125%N].

(** A parser for the examples: it reads [{}], as the number 0, and
    nothing else. *)
Definition emptyObjectOnly (s : jsstring) : option jsval :=
  if jsstring_eqb s (js "{}") then Some (VNum (Fin 0)) else None.

(* ================================================================== *)
(** * Vocabulary of the statements *)

(** A group is not below another: its total is at least the other's, or
    the other's total is not a number. *)
Definition notBelow (a b : group) : Prop :=
  num_ge (g_total a) (g_total b) = true \/ g_total b = NaN.

(** The label of a category in the summary. *)
Definition labelOf (v : bson) : bson :=
  match v with
  | BMissing | BNull => BStr (js "Uncategorized")
  | v => v
  end.

(** A key has its group. *)
Definition covered (gs : list group) (key : bson) : Prop :=
  exists g, In g gs /\ bson_eqb (g_category g) key = true.

(** Two documents without a category, one with. *)
Definition mixed : list doc :=
  [ legacy 1 (BNum (Fin 12)) BMissing (BDate 1755003000000) BMissing BMissing
           BMissing BMissing;
    {| _id := 2; amount := BNum (Fin 30); category := BStr (js "餐饮");
       payee := BStr (js "KFC"); time := BDate 1755006600000; chat_id := BMissing;
       ts_utc := BMissing; time_local := BMissing; tz := BMissing; ym := BMissing;
       created_at_utc := BMissing; note := BStr (js "午饭"); source := BMissing;
       createdAt := BMissing |};
    legacy 3 (BNum (Fin 8)) BMissing (BDate 1755010200000) BMissing BMissing
           BMissing BMissing ].

(** Both keys set, DashScope named. *)
Definition bothKeys : Config :=
  {| AI_PROVIDER := js "dashscope"; OPENAI_API_KEY := js "sk-a";
     DASHSCOPE_API_KEY := js "sk-b"; FORCE_CHAT_ID := None |}.

(** A platform whose providers answer, each with a draft of its own. *)
Definition answering : Platform :=
  {| DateParse := DateParse host; zoneParts := zoneParts host;
     dateFromString := dateFromString host; toDate := toDate host;
     invalidDateBound := 0%Z;
     callOpenAIExtract := fun _ =>
       Some {| d_amount := VNum (Fin 1); d_time := None; d_category := None;
               d_payee := None; d_note := None |};
     callQwenExtract := fun _ =>
       Some {| d_amount := VStr (js "28"); d_time := Some (js "2025-08-12 12:05");
               d_category := Some (js "餐饮"); d_payee := Some (js "星巴克");
               d_note := None |};
     castObjectId := castObjectId host;
     castStored := castStored host |}.

(** The strings a pattern matches, anchors and groups apart: what the
    matcher consumes is one of them. *)
Fixpoint lang (r : regex) (w : jsstring) : Prop :=
  match r with
  | REmpty | RBegin | REnd => w = []
  | RChar p => exists c, w = [c] /\ p c = true
  | RSeq a b => exists u v, w = u ++ v /\ lang a u /\ lang b v
  | RAlt a b => lang a w \/ lang b w
  | RGroup _ a => lang a w
  | RRep lo hi a =>
    exists ws, w = List.concat ws /\ Forall (lang a) ws /\ lo <= List.length ws
               /\ match hi with
                  | Some h => List.length ws <= h
                  | None => True
                  end
  end.

(** The groups of a pattern. *)
Fixpoint groupsOf (r : regex) : list nat :=
  match r with
  | RSeq a b | RAlt a b => groupsOf a ++ groupsOf b
  | RRep _ _ a => groupsOf a
  | RGroup i a => i :: groupsOf a
  | _ => []
  end.

(** The matcher on a pattern in three parts, the middle one being group
    [i], from the position [pos] of a search. *)
Definition framed (A G T : regex) (i pos : nat) (rest : jsstring)
    : option captures :=
  rmatch A pos rest []
    (fun p1 r1 c1 =>
       rmatch G p1 r1 c1
         (fun p2 r2 c2 =>
            rmatch T p2 r2 ((i, (p1, p2)) :: c2)
              (fun p _ c => Some ((0, (pos, p)) :: c)))).

(** The parts of the patterns of the heuristic extractor. *)
Definition amountPart : regex :=
  seqs [opt (lit 45); plus digit; opt (seqs [oneOf ".,"; plus digit])].

Definition currencyPart : regex :=
  opt (seqs [star (RChar isWhite);
             alts [word litI "元"; word litI "块"; word litI "rmb";
                   word litI "cny"; word litI "￥"]]).

Definition payeeClass (c : N) : bool :=
  isHan c || isLatin c || isDigit c || existsb (N.eqb c) (js "_-·").

Definition wordClass (c : N) : bool := isHan c || isLatin c.

(** An hour and minutes: one or two digits, a colon, two digits. *)
Definition clockString (w : jsstring) : Prop :=
  exists h m,
    w = h ++ 58%N :: m /\ 1 <= List.length h <= 2 /\ List.length m = 2
    /\ Forall (fun c => isDigit c = true) (h ++ m).

(** A day: four digits, and twice a dash and one or two digits. *)
Definition dayString (w : jsstring) : Prop :=
  exists y mo da,
    w = y ++ 45%N :: mo ++ 45%N :: da /\ List.length y = 4
    /\ 1 <= List.length mo <= 2 /\ 1 <= List.length da <= 2
    /\ Forall (fun c => isDigit c = true) (y ++ mo ++ da).

(** A month of a year: four digits, a dash, two digits. *)
Definition monthString (w : jsstring) : Prop :=
  exists y m,
    w = y ++ 45%N :: m /\ List.length y = 4 /\ List.length m = 2
    /\ Forall (fun c => isDigit c = true) (y ++ m).

(** [f] holds of the [n] integers from [z] on. *)
Fixpoint upTo (f : Z -> bool) (n : nat) (z : Z) : bool :=
  match n with
  | O => true
  | S n' => f z && upTo f n' (z + 1)
  end.

(** A create request for an amount of 5 at a time value. *)
Definition atInstant (t : Z) : createBody :=
  {| b_amount := VNum (Fin 5); b_category := None; b_payee := None;
     b_time := VNum (Fin (inject_Z t)); b_note := None; b_source := None;
     b_tz := None; b_chat_id := VUndefined |}.

(* ================================================================== *)
(** * Properties *)

Section Strings.

Lemma jsstring_eqb_eq (a b : jsstring) : jsstring_eqb a b = true <-> a = b.
Proof.
  unfold jsstring_eqb. destruct (list_eq_dec N.eq_dec a b); split; congruence.
Qed.

Lemma jsstring_eqb_refl (a : jsstring) : jsstring_eqb a a = true.
Proof. now apply jsstring_eqb_eq. Qed.

Lemma startsWith_app (t p : jsstring) :
  startsWith t p = true <-> exists b, t = p ++ b.
Proof.
  revert t. induction p as [|c p IH]; intros t.
  - destruct t; simpl; split; eauto.
  - destruct t as [|d t]; cbn [startsWith].
    + split; [discriminate | intros [b Hb]; discriminate].
    + rewrite andb_true_iff, N.eqb_eq, IH. split.
      * intros [-> [b ->]]. now exists b.
      * intros [b Hb]. injection Hb as -> ->. eauto.
Qed.

Lemma includes_app (t p : jsstring) :
  includes t p = true <-> exists a b, t = a ++ p ++ b.
Proof.
  induction t as [|d t IH].
  - cbn [includes]. rewrite orb_false_r, startsWith_app. split.
    + intros [b Hb]. now exists [], b.
    + intros [a [b Hb]]. destruct a; [now exists b|discriminate].
  - cbn [includes]. rewrite orb_true_iff, startsWith_app, IH. split.
    + intros [[b Hb] | [a [b Hb]]].
      * now exists [], b.
      * exists (d :: a), b. now rewrite Hb.
    + intros [[|e a] [b Hb]].
      * left. now exists b.
      * right. injection Hb as -> ->. now exists a, b.
Qed.

Lemma includes_left (a t p : jsstring) :
  includes t p = true -> includes (a ++ t) p = true.
Proof.
  rewrite !includes_app. intros [x [y ->]]. exists (a ++ x), y.
  now rewrite <- app_assoc.
Qed.

Lemma includes_right (t b p : jsstring) :
  includes t p = true -> includes (t ++ b) p = true.
Proof.
  rewrite !includes_app. intros [x [y ->]]. exists x, (y ++ b).
  now rewrite <- !app_assoc.
Qed.

Lemma includes_lower (t p : jsstring) :
  includes t p = true -> includes (toLowerCase t) (toLowerCase p) = true.
Proof.
  rewrite !includes_app. intros [x [y ->]].
  exists (toLowerCase x), (toLowerCase y). unfold toLowerCase.
  now rewrite !map_app.
Qed.

(** A keyword without capitals that is in the payee or in the note is in
    the text the classifier searches. *)
Lemma textOf_includes (payee note kw : jsstring) :
  toLowerCase kw = kw ->
  includes payee kw = true \/ includes note kw = true ->
  includes (textOf payee note) kw = true.
Proof.
  intros Hkw H. rewrite <- Hkw. apply includes_lower.
  destruct H as [H|H].
  - now apply includes_right.
  - apply includes_left. now apply includes_left.
Qed.

End Strings.

Section Classifier.

Lemma has_hitsOf (text c : jsstring) : has (hitsOf text) c = hit text c.
Proof.
  unfold has, hitsOf, hit.
  induction CATEGORY_KEYWORDS as [|e T IH]; [reflexivity|].
  cbn [filter existsb]. destruct (existsb (kwHit text) (snd e)).
  - cbn [map existsb]. now rewrite IH, andb_true_r.
  - now rewrite IH, andb_false_r.
Qed.

Lemma hitsOf_hit (text c : jsstring) : In c (hitsOf text) -> hit text c = true.
Proof.
  intros H. rewrite <- has_hitsOf. unfold has. apply existsb_exists.
  exists c. split; [exact H | apply jsstring_eqb_refl].
Qed.

Lemma hitsOf_ranked (text c : jsstring) :
  In c (hitsOf text) -> In c CATEGORY_PRIORITY.
Proof.
  unfold hitsOf. intros H. apply in_map_iff in H. destruct H as [e [<- He]].
  apply filter_In in He. destruct He as [He _].
  assert (Hall : forallb (fun e => existsb (jsstring_eqb (fst e)) CATEGORY_PRIORITY)
                         CATEGORY_KEYWORDS = true) by (vm_compute; reflexivity).
  rewrite forallb_forall in Hall. specialize (Hall e He).
  apply existsb_exists in Hall. destruct Hall as [x [Hx Hex]].
  apply jsstring_eqb_eq in Hex. now rewrite Hex.
Qed.

(** The classifier answers with the first category of the priority order
    that matches; when none matches, with the transfer category if a
    transfer term is in the text, and with "other" if not. *)
Lemma guessCategory_spec (payee note : jsstring) :
  guessCategory payee note =
  match find (hit (textOf payee note)) CATEGORY_PRIORITY with
  | Some c => c
  | None =>
    if includes (textOf payee note) (js "转账")
       || includes (textOf payee note) (js "收款")
    then js "转账" else js "其他"
  end.
Proof.
  unfold guessCategory. fold (textOf payee note).
  set (text := textOf payee note).
  assert (Hfind : find (has (hitsOf text)) CATEGORY_PRIORITY
                  = find (hit text) CATEGORY_PRIORITY).
  { induction CATEGORY_PRIORITY as [|c l IH]; [reflexivity|].
    cbn [find]. now rewrite has_hitsOf, IH. }
  destruct (hitsOf text) as [|h0 hs] eqn:Hh.
  - destruct (find (hit text) CATEGORY_PRIORITY) as [c|] eqn:Hf; [|reflexivity].
    apply find_some in Hf. destruct Hf as [_ Hc].
    rewrite <- has_hitsOf, Hh in Hc. discriminate.
  - rewrite Hfind.
    destruct (find (hit text) CATEGORY_PRIORITY) as [c|] eqn:Hf; [reflexivity|].
    exfalso.
    assert (Hin : In h0 (hitsOf text)) by (rewrite Hh; now left).
    pose proof (find_none _ _ Hf h0 (hitsOf_ranked _ _ Hin)) as Hn.
    rewrite (hitsOf_hit _ _ Hin) in Hn. discriminate.
Qed.

Lemma hit_keywordsOf (text c : jsstring) :
  hit text c = existsb (kwHit text) (keywordsOf c).
Proof.
  unfold hit, keywordsOf.
  induction CATEGORY_KEYWORDS as [|e T IH]; [reflexivity|].
  cbn [existsb flat_map]. rewrite existsb_app, IH.
  now destruct (jsstring_eqb c (fst e)).
Qed.

(** A keyword of a category, written without capitals, that is in the
    payee or in the note makes the category match. *)
Lemma hit_keyword (payee note c kw : jsstring) :
  In kw (keywordsOf c) -> kw <> [] -> toLowerCase kw = kw ->
  includes payee kw = true \/ includes note kw = true ->
  hit (textOf payee note) c = true.
Proof.
  intros Hin Hne Hlow Hinc. rewrite hit_keywordsOf. apply existsb_exists.
  exists kw. split; [exact Hin|]. unfold kwHit.
  destruct kw as [|k kw]; [congruence|]. rewrite Hlow.
  now apply textOf_includes.
Qed.

Lemma transfer_keywords_plain (kw : jsstring) :
  In kw (keywordsOf (js "转账")) -> kw <> [] /\ toLowerCase kw = kw.
Proof.
  assert (H : forallb (fun kw => nonEmpty kw && jsstring_eqb (toLowerCase kw) kw)
                      (keywordsOf (js "转账")) = true) by (vm_compute; reflexivity).
  rewrite forallb_forall in H. intros Hin. specialize (H kw Hin).
  apply andb_true_iff in H. destruct H as [Hne Hl]. apply jsstring_eqb_eq in Hl.
  split; [|exact Hl]. destruct kw; [discriminate|congruence].
Qed.

End Classifier.

(** C8, as amended.  The classifier is a total function of the payee and
    the note.  Its answer is the first category of the fixed priority order
    whose keyword set matches the text; a transfer keyword in the payee or
    the note therefore yields the transfer category whatever else matches;
    when no keyword set matches, the answer is the transfer category if the
    text holds a transfer term and "other" if it holds none; and a text that
    holds the Starbucks keyword and matches none of the three categories
    ranked above dining (transfer, utilities, transport) yields dining. *)
Theorem guessCategory_by_priority (payee note : jsstring) :
  let text := textOf payee note in
  (forall c, find (hit text) CATEGORY_PRIORITY = Some c ->
             guessCategory payee note = c)
  /\ (forall kw, In kw (keywordsOf (js "转账")) ->
                 includes payee kw = true \/ includes note kw = true ->
                 guessCategory payee note = js "转账")
  /\ (find (hit text) CATEGORY_PRIORITY = None ->
      guessCategory payee note =
      if includes text (js "转账") || includes text (js "收款")
      then js "转账" else js "其他")
  /\ (includes payee (js "星巴克") = true \/ includes note (js "星巴克") = true ->
      hit text (js "转账") = false -> hit text (js "生活缴费") = false ->
      hit text (js "出行") = false ->
      guessCategory payee note = js "餐饮").
Proof.
  intros text. subst text. repeat split.
  - intros c Hc. now rewrite guessCategory_spec, Hc.
  - intros kw Hin Hinc. destruct (transfer_keywords_plain _ Hin) as [Hne Hl].
    pose proof (hit_keyword payee note _ kw Hin Hne Hl Hinc) as Hhit.
    rewrite guessCategory_spec.
    change CATEGORY_PRIORITY with (js "转账" :: tl CATEGORY_PRIORITY).
    cbn [find]. now rewrite Hhit.
  - intros Hnone. now rewrite guessCategory_spec, Hnone.
  - intros Hinc H1 H2 H3.
    assert (Hhit : hit (textOf payee note) (js "餐饮") = true).
    { apply hit_keyword with (kw := js "星巴克"); try exact Hinc.
      - vm_compute. tauto.
      - discriminate.
      - reflexivity. }
    rewrite guessCategory_spec.
    change CATEGORY_PRIORITY
      with (js "转账" :: js "生活缴费" :: js "出行" :: js "餐饮"
               :: skipn 4 CATEGORY_PRIORITY).
    cbn [find]. now rewrite H1, H2, H3, Hhit.
Qed.

(** C8 on four texts: a transfer keyword beside a shopping keyword, no
    keyword at all, Starbucks alone, and a category of lower rank alone. *)
Lemma guessCategory_by_priority_witness :
  guessCategory [] (js "还款 淘宝") = js "转账"
  /\ guessCategory [] (js "hello") = js "其他"
  /\ guessCategory (js "星巴克") (js "午饭 星巴克 28") = js "餐饮"
  /\ guessCategory [] (js "京东 配件") = js "购物".
Proof.
  split; [|split; [|split]].
  - apply (proj1 (proj2 (guessCategory_by_priority [] (js "还款 淘宝"))) (js "还款")).
    + vm_compute. tauto.
    + right. vm_compute. reflexivity.
  - rewrite (proj1 (proj2 (proj2 (guessCategory_by_priority [] (js "hello"))))).
    + vm_compute. reflexivity.
    + vm_compute. reflexivity.
  - apply (proj2 (proj2 (proj2 (guessCategory_by_priority (js "星巴克") (js "午饭 星巴克 28"))))).
    + left. vm_compute. reflexivity.
    + vm_compute. reflexivity.
    + vm_compute. reflexivity.
    + vm_compute. reflexivity.
  - apply (proj1 (guessCategory_by_priority [] (js "京东 配件"))).
    vm_compute. reflexivity.
Defined.

(** C8 as stated fails: a text with the Starbucks keyword and no transfer
    keyword that also names the metro is classified as transport, which
    ranks above dining. *)
Lemma starbucks_at_the_metro :
  ~ (forall payee note : jsstring,
       includes payee (js "星巴克") = true \/ includes note (js "星巴克") = true ->
       hit (textOf payee note) (js "转账") = false ->
       guessCategory payee note = js "餐饮").
Proof.
  intros H. specialize (H [] (js "星巴克 地铁")).
  assert (Hg : guessCategory [] (js "星巴克 地铁") = js "出行")
    by (vm_compute; reflexivity).
  rewrite Hg in H.
  assert (Hne : js "出行" <> js "餐饮") by (vm_compute; discriminate).
  apply Hne, H.
  - right. vm_compute. reflexivity.
  - vm_compute. reflexivity.
Qed.

(** C9.  On the text "买菜 45.5 超市 18:30" the heuristic extractor yields
    the amount 45.5, a time string that contains "18:30" and a note that
    is the text itself, which is not empty; and on every text the note of
    the draft is the trimmed text, whatever the other extractions found. *)
Theorem parseTextHeuristic_note :
  (let text := js "买菜 45.5 超市 18:30" in
   let d := parseTextHeuristic text in
   d_amount d = VNum (Fin (91 # 2)%Q)
   /\ (exists t, d_time d = Some t /\ includes t (js "18:30") = true)
   /\ d_note d = Some text /\ text <> [])
  /\ forall text, d_note (parseTextHeuristic text) = Some (trim text).
Proof.
  split.
  - cbv zeta. split; [vm_compute; reflexivity|]. split; [|split].
    + exists (js "18:30"). split; vm_compute; reflexivity.
    + vm_compute. reflexivity.
    + vm_compute. discriminate.
  - intros text. reflexivity.
Qed.

(** C6.  A parse-and-create request with a text whose draft has an amount
    that does not read as a finite number other than zero is answered with
    the validation failure 400 and leaves the collection as it was; so is
    the text "hello there" whenever no provider answers for it, and so are
    then a run of digits too long for a finite number, whose amount is an
    infinity, and a fraction too small for a number other than zero. *)
Theorem parseExpense_rejects_amount (P : Platform) (cfg : Config) (now : Z)
    (store : list doc) :
  (forall body text,
     pb_text body = Some text -> trim text <> [] ->
     Number_isFinite (ToNumber (d_amount (extract P cfg text))) = false
     \/ isZero (ToNumber (d_amount (extract P cfg text))) = true ->
     parseExpense P cfg now store body
     = (Failed 400 "failed to parse amount", store))
  /\ (forall tz scope,
        extractByAI P cfg (js "hello there") = None ->
        parseExpense P cfg now store
          {| pb_text := Some (js "hello there"); pb_tz := tz; pb_chat_id := scope |}
        = (Failed 400 "failed to parse amount", store))
  /\ (forall text tz scope,
        text = tooLong \/ text = tooSmall ->
        extractByAI P cfg text = None ->
        (d_amount (parseTextHeuristic tooLong) = VNum (Inf false)
         /\ isZero (ToNumber (d_amount (parseTextHeuristic tooSmall))) = true)
        /\ parseExpense P cfg now store
             {| pb_text := Some text; pb_tz := tz; pb_chat_id := scope |}
           = (Failed 400 "failed to parse amount", store)).
Proof.
  assert (Hgen : forall body text,
     pb_text body = Some text -> trim text <> [] ->
     Number_isFinite (ToNumber (d_amount (extract P cfg text))) = false
     \/ isZero (ToNumber (d_amount (extract P cfg text))) = true ->
     parseExpense P cfg now store body
     = (Failed 400 "failed to parse amount", store)).
  { intros body text Ht Hne Hamt. unfold parseExpense. rewrite Ht.
    destruct (trim text) eqn:Htrim; [congruence|]. cbn [nonEmpty negb].
    destruct Hamt as [H|H]; rewrite H; [reflexivity|].
    now rewrite orb_true_r. }
  split; [exact Hgen|]. split.
  - intros tz scope Hai. apply Hgen with (text := js "hello there").
    + reflexivity.
    + vm_compute. discriminate.
    + right. unfold extract. rewrite Hai. vm_compute. reflexivity.
  - intros text tz scope Htext Hai.
    assert (Hl : d_amount (parseTextHeuristic tooLong) = VNum (Inf false))
      by (vm_compute; reflexivity).
    assert (Hs : isZero (ToNumber (d_amount (parseTextHeuristic tooSmall))) = true)
      by (vm_compute; reflexivity).
    split; [now split|]. apply Hgen with (text := text).
    + reflexivity.
    + destruct Htext as [->| ->]; vm_compute; discriminate.
    + unfold extract. rewrite Hai.
      destruct Htext as [->| ->]; [left; now rewrite Hl | right; exact Hs].
Qed.

(** C6 on the platform without providers: "hello there", "free 0 元", a
    one with 309 zeros behind it and one with 400 zeros before it. *)
Lemma parseExpense_rejects_amount_witness :
  parseExpense host plain 1755003000000 []
    {| pb_text := Some (js "hello there"); pb_tz := None; pb_chat_id := VUndefined |}
  = (Failed 400 "failed to parse amount", [])
  /\ parseExpense host plain 1755003000000 []
       {| pb_text := Some (js "free 0 元"); pb_tz := None; pb_chat_id := VUndefined |}
     = (Failed 400 "failed to parse amount", [])
  /\ parseExpense host plain 1755003000000 []
       {| pb_text := Some tooLong; pb_tz := None; pb_chat_id := VUndefined |}
     = (Failed 400 "failed to parse amount", [])
  /\ parseExpense host plain 1755003000000 []
       {| pb_text := Some tooSmall; pb_tz := None; pb_chat_id := VUndefined |}
     = (Failed 400 "failed to parse amount", []).
Proof.
  split; [|split; [|split]].
  - apply (proj1 (proj2 (parseExpense_rejects_amount host plain 1755003000000 []))).
    vm_compute. reflexivity.
  - apply (proj1 (parseExpense_rejects_amount host plain 1755003000000 []))
      with (text := js "free 0 元").
    + reflexivity.
    + vm_compute. discriminate.
    + right. vm_compute. reflexivity.
  - apply (proj2 (proj2 (parseExpense_rejects_amount host plain 1755003000000 []))
             tooLong None VUndefined); [now left | reflexivity].
  - apply (proj2 (proj2 (parseExpense_rejects_amount host plain 1755003000000 []))
             tooSmall None VUndefined); [now right | reflexivity].
Defined.

Section Composition.

Variable P : Platform.
Variables (now : Z) (tz : jsstring).

(** What [combineDateTime] answers, case by case: the clock for an absent
    string and for a bare time of day in a zone the formatter rejects; else
    whatever the date parser makes of the string, anchored to today in the
    zone when it is a bare time of day. *)
Lemma combineDateTime_cases (timeStr : jsstring) :
  (timeStr = [] -> combineDateTime P now tz timeStr = Some now)
  /\ (forall hm parts,
        matchGroup timeStr reBareHM 1 = Some hm ->
        zoneParts P (zoneOr tz) now = Some parts ->
        combineDateTime P now tz timeStr
        = DateParse P (replaceFirst (anchored parts hm) (js "/") (js "-")))
  /\ (forall hm,
        matchGroup timeStr reBareHM 1 = Some hm ->
        zoneParts P (zoneOr tz) now = None ->
        combineDateTime P now tz timeStr = Some now)
  /\ (timeStr <> [] -> matchGroup timeStr reBareHM 1 = None ->
      combineDateTime P now tz timeStr
      = DateParse P (replaceFirst timeStr (js "/") (js "-"))).
Proof.
  assert (Hnil : matchGroup [] reBareHM 1 = None) by (vm_compute; reflexivity).
  unfold combineDateTime, formatToParts. repeat split.
  - now intros ->.
  - intros hm parts Hm Hz. destruct timeStr; [congruence|]. now rewrite Hm, Hz.
  - intros hm Hm Hz. destruct timeStr; [congruence|]. now rewrite Hm, Hz.
  - intros Hne Hm. destruct timeStr; [congruence|]. now rewrite Hm.
Qed.

(** C4 fails on the code.  A time string the date parser cannot read does
    not make [combineDateTime] fall back to the clock: [new Date] of such a
    string does not throw, so the [catch] is not reached and the answer is
    an Invalid Date, for a full string as for a bare time of day anchored
    to today; the route then fails with 500 and creates nothing. *)
Theorem combineDateTime_invalid (timeStr : jsstring) :
  (timeStr <> [] -> matchGroup timeStr reBareHM 1 = None ->
   DateParse P (replaceFirst timeStr (js "/") (js "-")) = None ->
   combineDateTime P now tz timeStr = None)
  /\ (forall hm parts,
        matchGroup timeStr reBareHM 1 = Some hm ->
        zoneParts P (zoneOr tz) now = Some parts ->
        DateParse P (replaceFirst (anchored parts hm) (js "/") (js "-")) = None ->
        combineDateTime P now tz timeStr = None)
  /\ (forall cfg store body text,
        pb_text body = Some text -> trim text <> [] ->
        orElse (pb_tz body) (js "Asia/Shanghai") = tz ->
        Number_isFinite (ToNumber (d_amount (extract P cfg text))) = true ->
        isZero (ToNumber (d_amount (extract P cfg text))) = false ->
        trim (orElse (d_time (extract P cfg text)) []) = timeStr ->
        combineDateTime P now tz timeStr = None ->
        parseExpense P cfg now store body
        = (Failed 500 "Failed to parse and create expense", store)).
Proof.
  destruct (combineDateTime_cases timeStr) as [_ [Hbare [_ Hfull]]].
  split; [|split].
  - intros Hne Hm Hd. now rewrite Hfull.
  - intros hm parts Hm Hz Hd. now rewrite (Hbare hm parts).
  - intros cfg store body text Ht Hne Htz Hfin Hnz Htime Hc.
    unfold parseExpense. rewrite Ht.
    destruct (trim text) eqn:Htrim; [congruence|]. cbn [nonEmpty negb].
    rewrite Hfin, Hnz. cbn [negb orb]. rewrite Htz, Htime, Hc.
    reflexivity.
Qed.

End Composition.

(** C4 on the platform: "昨天晚上", the bare "25:70", and the text
    "晚饭 35 25:70" through the route. *)
Lemma combineDateTime_invalid_witness :
  combineDateTime host 1755003000000 (js "Asia/Shanghai") (js "昨天晚上") = None
  /\ combineDateTime host 1755003000000 (js "Asia/Shanghai") (js "25:70") = None
  /\ parseExpense host plain 1755003000000 []
       {| pb_text := Some (js "晚饭 35 25:70"); pb_tz := None; pb_chat_id := VUndefined |}
     = (Failed 500 "Failed to parse and create expense", []).
Proof.
  split; [|split].
  - apply (proj1 (combineDateTime_invalid host 1755003000000 (js "Asia/Shanghai")
                    (js "昨天晚上"))).
    + vm_compute. discriminate.
    + vm_compute. reflexivity.
    + vm_compute. reflexivity.
  - apply (proj1 (proj2 (combineDateTime_invalid host 1755003000000
                           (js "Asia/Shanghai") (js "25:70")))
             (js "25:70") (partsAt 480 1755003000000)).
    + vm_compute. reflexivity.
    + vm_compute. reflexivity.
    + vm_compute. reflexivity.
  - apply (proj2 (proj2 (combineDateTime_invalid host 1755003000000
                           (js "Asia/Shanghai") (js "25:70"))))
      with (text := js "晚饭 35 25:70").
    + reflexivity.
    + vm_compute. discriminate.
    + vm_compute. reflexivity.
    + vm_compute. reflexivity.
    + vm_compute. reflexivity.
    + vm_compute. reflexivity.
    + vm_compute. reflexivity.
Defined.

Section Reconciliation.

Variable P : Platform.

Lemma type_date (v : bson) : String.eqb (bsonType v) "date" = true <-> isDate v.
Proof.
  destruct v; cbn; split; try discriminate; try (intros [? ?]; discriminate).
  - intros _. now exists t.
  - reflexivity.
Qed.

Lemma type_string (v : bson) : String.eqb (bsonType v) "string" = true <-> isString v.
Proof.
  destruct v; cbn; split; try discriminate; try (intros [? ?]; discriminate).
  - intros _. now exists s.
  - reflexivity.
Qed.

Lemma not_date (v : bson) : ~ isDate v -> String.eqb (bsonType v) "date" = false.
Proof.
  intros H. destruct (String.eqb (bsonType v) "date") eqn:E; [|reflexivity].
  apply type_date in E. contradiction.
Qed.

Lemma not_string (v : bson) : ~ isString v -> String.eqb (bsonType v) "string" = false.
Proof.
  intros H. destruct (String.eqb (bsonType v) "string") eqn:E; [|reflexivity].
  apply type_string in E. contradiction.
Qed.

(** The precedence of the resolution, branch by branch, first match wins:
    a date in [time]; a string in [time], read with the pattern with
    dashes, then the pattern with slashes, then the generic conversion;
    a date in [ts_utc]; a date in [created_at_utc]; a string in
    [time_local], read in the zone of the document with the pattern, then
    generically; a date in [createdAt]; null. *)
Lemma parsedTime_precedence (d : doc) :
  (forall t, time d = BDate t -> parsedTime P d = Value (BDate t))
  /\ (forall s, time d = BStr s ->
        parsedTime P d =
        ifNull (dateFromStringOrNull P (BStr s) (Some (js "%Y-%m-%d %H:%M")) None)
          (ifNull (dateFromStringOrNull P (BStr s) (Some (js "%Y/%m/%d, %H:%M")) None)
             (toDateOf P (BStr s))))
  /\ (~ isDate (time d) -> ~ isString (time d) ->
      (forall t, ts_utc d = BDate t -> parsedTime P d = Value (BDate t))
      /\ (~ isDate (ts_utc d) ->
          (forall t, created_at_utc d = BDate t -> parsedTime P d = Value (BDate t))
          /\ (~ isDate (created_at_utc d) ->
              (forall s, time_local d = BStr s ->
                 parsedTime P d =
                 ifNull (dateFromStringOrNull P (BStr s) (Some (js "%Y-%m-%d %H:%M"))
                           (Some (zoneOfDoc d)))
                   (dateFromStringOrNull P (BStr s) None (Some (zoneOfDoc d))))
              /\ (~ isString (time_local d) ->
                  (forall t, createdAt d = BDate t -> parsedTime P d = Value (BDate t))
                  /\ (~ isDate (createdAt d) -> parsedTime P d = Value BNull))))).
Proof.
  unfold parsedTime, switch. split; [|split].
  - intros t Ht. rewrite Ht. reflexivity.
  - intros s Hs. rewrite Hs. reflexivity.
  - intros Hd Hs. cbn [find fst snd].
    rewrite (not_date _ Hd), (not_string _ Hs). split.
    + intros t Ht. rewrite Ht. reflexivity.
    + intros Hts. rewrite (not_date _ Hts). split.
      * intros t Ht. rewrite Ht. reflexivity.
      * intros Hc. rewrite (not_date _ Hc). split.
        -- intros s Hl. rewrite Hl. reflexivity.
        -- intros Hl. rewrite (not_string _ Hl). split.
           ++ intros t Ht. rewrite Ht. reflexivity.
           ++ intros Hca. rewrite (not_date _ Hca). reflexivity.
Qed.

Lemma addParsedTimeStage_raised (store : list doc) (d : doc) :
  In d store -> parsedTime P d = Raised -> addParsedTimeStage P store = None.
Proof.
  intros Hin Hr. induction store as [|e store IH]; [contradiction|].
  cbn [addParsedTimeStage]. destruct Hin as [->|Hin].
  - now rewrite Hr.
  - rewrite (IH Hin). now destruct (parsedTime P e).
Qed.

(** C1 fails on the code in its last clause.  A string in [time] that
    neither pattern reads and that the generic conversion cannot convert
    makes the resolution raise: [$toDate] stands there without the
    [onError: null] that the other parses carry.  It yields no null and no
    later field is tried, and every listing and every summary over a
    collection that holds such a document fails. *)
Theorem parsedTime_raises (d : doc) (s : jsstring) :
  time d = BStr s ->
  dateFromString P (Some (js "%Y-%m-%d %H:%M")) None s = PConversionFailure ->
  dateFromString P (Some (js "%Y/%m/%d, %H:%M")) None s = PConversionFailure ->
  toDate P s = None ->
  parsedTime P d = Raised
  /\ forall cfg store rq,
       In d store ->
       listExpenses P cfg store rq = Failed 500 "Failed to fetch expenses"
       /\ categoryStats P cfg store rq = Failed 500 "Failed to build summary".
Proof.
  intros Ht H1 H2 H3.
  assert (Hr : parsedTime P d = Raised).
  { rewrite (proj1 (proj2 (parsedTime_precedence d)) s Ht).
    unfold dateFromStringOrNull, toDateOf. now rewrite H1, H2, H3. }
  split; [exact Hr|]. intros cfg store rq Hin.
  unfold listExpenses, categoryStats.
  rewrite (addParsedTimeStage_raised store d Hin Hr).
  split; [|reflexivity].
  destruct (wholeOf (pageOf rq)); [|reflexivity].
  now destruct (wholeOf (limitOf rq)).
Qed.

End Reconciliation.

(** C1 on the platform: a legacy document whose [time] is the string
    "昨天" and whose [ts_utc] is a date. *)
Lemma parsedTime_raises_witness :
  let d := legacy 1 (BNum (Fin 12)) BMissing (BStr (js "昨天"))
                  (BDate 1755003000000) BMissing BMissing BMissing in
  parsedTime host d = Raised
  /\ forall cfg store rq,
       In d store ->
       listExpenses host cfg store rq = Failed 500 "Failed to fetch expenses"
       /\ categoryStats host cfg store rq = Failed 500 "Failed to build summary".
Proof.
  intros d. apply (parsedTime_raises host d (js "昨天")).
  - reflexivity.
  - vm_compute. reflexivity.
  - vm_compute. reflexivity.
  - vm_compute. reflexivity.
Defined.

Section Update.

Variable P : Platform.




Lemma update_store (now : Z) (store : list doc) (id : jsstring) (f : fields)
    (d : doc) (store' : list doc) (v : bool) :
  findByIdAndUpdate P now v store id f = Updated d store' ->
  exists i,
    castObjectId P id = Some i
    /\ store' = map (fun e => if (_id e =? i)%N then applyFields f e else e) store
    /\ exists d0, In d0 store /\ _id d0 = i
                  /\ d = hydrate P now (applyFields f d0).
Proof.
  unfold findByIdAndUpdate. intros H.
  destruct (castObjectId P id) as [i|]; [|discriminate]. exists i.
  destruct (match f_amount f with Some n => Number_isNaN n | None => false end);
    [discriminate|].
  destruct (v && negb (validatesUpdate f)); [discriminate|].
  destruct (find (fun d => (_id d =? i)%N) store) as [d0|] eqn:Hfind; [|discriminate].
  injection H as <- <-. split; [reflexivity|]. split; [reflexivity|].
  apply find_some in Hfind. destruct Hfind as [Hin Hid].
  apply N.eqb_eq in Hid. now exists d0.
Qed.





End Update.


Section Amounts.

Variable P : Platform.

Ltac cases :=
  repeat match goal with
         | |- context [match ?x with _ => _ end] => destruct x eqn:?
         end.

Lemma validates_nonNegative (d : doc) : validates d = true -> nonNegative d.
Proof.
  unfold validates, nonNegative. intros H. apply andb_true_iff in H.
  destruct H as [H _]. destruct (amount d) as [| | |n| |]; try discriminate.
  apply andb_true_iff in H. destruct H as [_ H]. now exists n.
Qed.

Lemma Expense_create_nonNegative (now : Z) (store store' : list doc)
    (payload d : doc) :
  Forall nonNegative store ->
  Expense_create now store payload = Some (d, store') ->
  Forall nonNegative store'.
Proof.
  unfold Expense_create. intros Hs H.
  destruct (validates payload) eqn:Hv; [|discriminate].
  injection H as <- <-. apply Forall_app. split; [exact Hs|].
  constructor; [|constructor]. apply validates_nonNegative in Hv.
  destruct Hv as [n Hn]. now exists n.
Qed.

(** The two creating routes keep every amount of the collection at or
    above zero: what they save has passed the validators of the schema. *)
Lemma creating_routes_nonNegative (cfg : Config) (now : Z) (store : list doc) :
  Forall nonNegative store ->
  (forall body, Forall nonNegative (snd (createExpense P cfg now store body)))
  /\ (forall body, Forall nonNegative (snd (parseExpense P cfg now store body))).
Proof.
  intros Hs. split; intros body.
  - unfold createExpense. cases; cbn [snd]; try exact Hs.
    eapply Expense_create_nonNegative; eauto.
  - unfold parseExpense. cases; cbn [snd]; try exact Hs.
    eapply Expense_create_nonNegative; eauto.
Qed.

(** So would an update that ran the validators. *)
Lemma validated_update_nonNegative (now : Z) (store store' : list doc)
    (id : jsstring) (f : fields) (d : doc) :
  Forall nonNegative store ->
  findByIdAndUpdate P now true store id f = Updated d store' ->
  Forall nonNegative store'.
Proof.
  intros Hs H. pose proof H as H'. apply update_store in H'.
  destruct H' as [i [Hi [-> _]]]. unfold findByIdAndUpdate in H.
  rewrite Hi in H.
  destruct (match f_amount f with Some n => Number_isNaN n | None => false end);
    [discriminate|].
  destruct (validatesUpdate f) eqn:Hv; [|discriminate].
  apply Forall_map. eapply Forall_impl; [|exact Hs].
  intros e [n [He Hn]]. destruct (_id e =? i)%N; [|now exists n].
  unfold nonNegative, applyFields, validatesUpdate in *. cbn.
  destruct (f_amount f) as [m|]; cbn; eauto.
Qed.

End Amounts.

(** C3 fails on the code.  A document is created with the amount 10; an
    update of its amount to -5 is accepted and written, since the route
    updates without [runValidators] and the [min: 0] of the schema is a
    validator: the collection then holds an amount below zero. *)
Theorem patchExpense_negative_amount :
  exists d0 d,
    createExpense host plain 1755003000000 [] ten = (Sent 201 d0, [d0])
    /\ nonNegative d0
    /\ castObjectId host (oid "01") = Some (_id d0)
    /\ patchExpense host 1755003000000 [d0] (oid "01") minusFive = (Sent 200 d, [d])
    /\ amount d = BNum (Fin (-5 # 1)%Q)
    /\ ~ nonNegative d.
Proof.
  eexists. eexists. split; [vm_compute; reflexivity|].
  split; [eexists; split; [reflexivity | vm_compute; reflexivity]|].
  split; [vm_compute; reflexivity|].
  split; [vm_compute; reflexivity|].
  split; [reflexivity|].
  intros [n [Hn Hge]]. cbn in Hn. injection Hn as <-. vm_compute in Hge.
  discriminate.
Qed.

Section Sorting.

Context {A : Type} (lt : A -> A -> bool).

Lemma insertBy_perm (x : A) (l : list A) : Permutation (insertBy lt x l) (x :: l).
Proof.
  induction l as [|y l IH]; cbn [insertBy]; [reflexivity|].
  destruct (lt y x); [|reflexivity].
  rewrite IH. apply perm_swap.
Qed.

Lemma sortBy_perm (l : list A) : Permutation (sortBy lt l) l.
Proof.
  unfold sortBy. induction l as [|x l IH]; cbn [fold_right]; [reflexivity|].
  rewrite insertBy_perm. now constructor.
Qed.

Lemma sortBy_length (l : list A) : List.length (sortBy lt l) = List.length l.
Proof. apply Permutation_length, sortBy_perm. Qed.

Lemma sortBy_In (x : A) (l : list A) : In x (sortBy lt l) <-> In x l.
Proof.
  split; apply Permutation_in; [|symmetry]; apply sortBy_perm.
Qed.

End Sorting.

Section Paging.

Lemma ceilDiv_cases (n l : nat) :
  1 <= l ->
  ceilDiv n l = if Nat.eqb (n mod l) 0 then n / l else S (n / l).
Proof.
  intros Hl. unfold ceilDiv.
  pose proof (Nat.div_mod_eq n l) as Hdm.
  pose proof (Nat.mod_upper_bound n l ltac:(lia)) as Hr.
  destruct (Nat.eqb (n mod l) 0) eqn:E.
  - apply Nat.eqb_eq in E. symmetry.
    apply Nat.div_unique with (r := l - 1); [lia|]. nia.
  - apply Nat.eqb_neq in E. symmetry.
    apply Nat.div_unique with (r := n mod l - 1); [lia|]. nia.
Qed.

(** What is left for the last page, and nothing after it. *)
Lemma last_page_size (n l : nat) :
  1 <= n -> 1 <= l ->
  1 <= ceilDiv n l
  /\ Nat.min l (n - (ceilDiv n l - 1) * l) = (if Nat.eqb (n mod l) 0 then l else n mod l)
  /\ n <= ceilDiv n l * l.
Proof.
  intros Hn Hl. rewrite (ceilDiv_cases n l Hl).
  pose proof (Nat.div_mod_eq n l) as Hdm.
  pose proof (Nat.mod_upper_bound n l ltac:(lia)) as Hr.
  destruct (Nat.eqb (n mod l) 0) eqn:E.
  - apply Nat.eqb_eq in E.
    assert (1 <= n / l) by (destruct (n / l); [nia | lia]).
    repeat split; try lia; nia.
  - apply Nat.eqb_neq in E. repeat split; try lia; nia.
Qed.

Lemma page_In {A : Type} (l k : nat) (xs : list A) (x : A) :
  In x (firstn l (skipn k xs)) -> In x xs.
Proof.
  intros H. rewrite <- (firstn_skipn k xs). apply in_or_app. right.
  rewrite <- (firstn_skipn l (skipn k xs)). apply in_or_app. now left.
Qed.

(** Every element of a list is on one of its pages. *)
Lemma on_a_page {A : Type} (x : A) (xs : list A) (l : nat) :
  1 <= l -> In x xs ->
  exists k, 1 <= k <= ceilDiv (List.length xs) l
            /\ In x (firstn l (skipn ((k - 1) * l) xs)).
Proof.
  intros Hl Hin. apply in_split in Hin. destruct Hin as [l1 [l2 ->]].
  set (n := List.length l1).
  pose proof (Nat.div_mod_eq n l) as Hdm.
  pose proof (Nat.mod_upper_bound n l ltac:(lia)) as Hr.
  exists (S (n / l)). split.
  - split; [lia|]. unfold ceilDiv. rewrite length_app. cbn [List.length].
    fold n. apply Nat.div_le_lower_bound; [lia|]. nia.
  - replace ((S (n / l) - 1) * l) with (n / l * l) by lia.
    rewrite skipn_app.
    replace (n / l * l - List.length l1) with 0 by (fold n; nia).
    cbn [skipn]. rewrite firstn_app. apply in_or_app. right.
    rewrite length_skipn. fold n.
    replace (l - (n - n / l * l)) with (S (l - (n - n / l * l) - 1)) by nia.
    now left.
Qed.

Lemma whole_at_least_one (x : jsnum) (p : nat) :
  wholeOf (Math_max x (Fin 1)) = Some p -> 1 <= p.
Proof.
  unfold Math_max. destruct x as [|[|]|q]; cbn; try discriminate.
  - intros H. injection H as <-. cbn. lia.
  - destruct (Qle_bool 1 q) eqn:E; cbn; intros H; injection H as <-.
    + unfold Qle_bool in E. cbn in E. apply Z.leb_le in E.
      assert (1 <= Qnum q / Z.pos (Qden q))%Z; [|lia].
      apply Z.div_le_lower_bound; lia.
    + cbn. lia.
Qed.

Lemma whole_limit (x : jsnum) (l : nat) :
  wholeOf (Math_min (Math_max x (Fin 1)) (Fin 500)) = Some l -> 1 <= l <= 500.
Proof.
  intros H. unfold Math_min in H.
  destruct (Math_max x (Fin 1)) as [|[|]|q] eqn:Hx; cbn in H; try discriminate.
  - injection H as <-. cbn. lia.
  - assert (Hq : 1 <= Z.to_nat (Qnum q / Z.pos (Qden q))).
    { apply (whole_at_least_one x). rewrite Hx. reflexivity. }
    destruct (Qle_bool 500 q) eqn:E; cbn in H; injection H as <-.
    + cbn. lia.
    + split; [exact Hq|].
      assert (Qnum q / Z.pos (Qden q) < 500)%Z; [|lia].
      apply Z.div_lt_upper_bound; [lia|].
      unfold Qle_bool in E. cbn in E. apply Z.leb_gt in E. lia.
Qed.

Lemma parseInt10_nonempty (s : jsstring) (q : Q) : parseInt10 s = Fin q -> s <> [].
Proof. intros H ->. vm_compute in H. discriminate. Qed.

Lemma Qle_bool_inject (a b : Z) : Qle_bool (inject_Z a) (inject_Z b) = (a <=? b)%Z.
Proof. unfold Qle_bool, inject_Z. cbn. now rewrite !Z.mul_1_r. Qed.

Lemma wholeOf_nat (n : nat) : wholeOf (Fin (inject_Z (Z.of_nat n))) = Some n.
Proof.
  unfold wholeOf, inject_Z. cbn [Qnum Qden]. now rewrite Z.div_1_r, Nat2Z.id.
Qed.

(** A [page] that reads as a whole number of at least one is that page. *)
Lemma pageOf_reads (rq : query) (s : jsstring) (n : nat) :
  parseInt10 s = Fin (inject_Z (Z.of_nat n)) -> 1 <= n ->
  wholeOf (pageOf (withPage rq s)) = Some n.
Proof.
  intros Hs Hn. unfold pageOf. cbn [withPage q_page].
  pose proof (parseInt10_nonempty s _ Hs) as Hne.
  destruct s as [|c s]; [congruence|]. cbn [orElse]. rewrite Hs.
  unfold Math_max. cbn [Number_isNaN orb num_ge].
  change 1%Q with (inject_Z 1). rewrite Qle_bool_inject.
  replace (1 <=? Z.of_nat n)%Z with true by (symmetry; apply Z.leb_le; lia).
  apply wholeOf_nat.
Qed.

(** A [page] that reads as zero is the first page. *)
Lemma pageOf_zero (rq : query) (s : jsstring) :
  parseInt10 s = Fin (inject_Z 0) -> wholeOf (pageOf (withPage rq s)) = Some 1.
Proof.
  intros Hs. unfold pageOf. cbn [withPage q_page].
  pose proof (parseInt10_nonempty s _ Hs) as Hne.
  destruct s as [|c s]; [congruence|]. cbn [orElse]. rewrite Hs. reflexivity.
Qed.

(** A [limit] that reads as a whole number from 1 to 500 is that limit. *)
Lemma limitOf_reads (rq : query) (s : jsstring) (n : nat) :
  q_limit rq = Some s -> parseInt10 s = Fin (inject_Z (Z.of_nat n)) ->
  1 <= n <= 500 -> wholeOf (limitOf rq) = Some n.
Proof.
  intros Hq Hs Hn. unfold limitOf. rewrite Hq.
  pose proof (parseInt10_nonempty s _ Hs) as Hne.
  destruct s as [|c s]; [congruence|]. cbn [orElse]. rewrite Hs.
  unfold Math_max, Math_min. cbn [Number_isNaN orb num_ge].
  change 1%Q with (inject_Z 1). rewrite Qle_bool_inject.
  replace (1 <=? Z.of_nat n)%Z with true by (symmetry; apply Z.leb_le; lia).
  cbn [Number_isNaN orb num_ge].
  change 500%Q with (inject_Z 500). rewrite Qle_bool_inject.
  destruct (500 <=? Z.of_nat n)%Z eqn:E.
  - apply Z.leb_le in E. assert (n = 500) as -> by lia. reflexivity.
  - apply wholeOf_nat.
Qed.

End Paging.

(** C7, as amended.  Let N >= 1 documents match a listing and let the
    page size L be from 1 to 500.  The request for page ceil(N/L) is
    answered with N mod L rows, or with L rows when L divides N; the
    request for the page after it is answered with no row; both answers
    carry the total N, which is the number of matching documents whatever
    the page. *)
Theorem last_page_and_after (P : Platform) (cfg : Config) (store : list doc)
    (timed : list (doc * bson)) (rq : query) (l pg pg' : jsstring) (L N : nat) :
  addParsedTimeStage P store = Some timed ->
  N = List.length (listed P cfg rq timed) ->
  1 <= N -> 1 <= L <= 500 ->
  q_limit rq = Some l -> parseInt10 l = Fin (inject_Z (Z.of_nat L)) ->
  parseInt10 pg = Fin (inject_Z (Z.of_nat (ceilDiv N L))) ->
  parseInt10 pg' = Fin (inject_Z (Z.of_nat (ceilDiv N L + 1))) ->
  exists b b',
    listExpenses P cfg store (withPage rq pg) = Sent 200 b
    /\ listExpenses P cfg store (withPage rq pg') = Sent 200 b'
    /\ List.length (l_data b) = (if Nat.eqb (N mod L) 0 then L else N mod L)
    /\ l_data b' = []
    /\ l_total b = N /\ l_total b' = N.
Proof.
  intros Hst HN Hn HL Hl Hlim Hpg Hpg'.
  destruct (last_page_size N L Hn ltac:(lia)) as [Hp [Hsize Hall]].
  unfold listExpenses.
  rewrite (pageOf_reads rq pg _ Hpg Hp).
  rewrite (pageOf_reads rq pg' _ Hpg' ltac:(lia)).
  change (limitOf (withPage rq pg)) with (limitOf rq).
  change (limitOf (withPage rq pg')) with (limitOf rq).
  rewrite (limitOf_reads rq l L Hl Hlim HL), Hst.
  change (listed P cfg (withPage rq pg) timed) with (listed P cfg rq timed).
  change (listed P cfg (withPage rq pg') timed) with (listed P cfg rq timed).
  eexists. eexists. split; [reflexivity|]. split; [reflexivity|].
  cbn [l_data l_total]. rewrite <- HN. repeat split.
  - rewrite length_firstn, length_skipn, <- HN. exact Hsize.
  - rewrite skipn_all2; [apply firstn_nil|]. rewrite <- HN. lia.
Qed.

(** C7 on three documents in pages of two: the second page has one row,
    the third has none, and both count three. *)
Lemma last_page_and_after_witness :
  exists b b',
    listExpenses host plain three (withPage byTwo (js "2")) = Sent 200 b
    /\ listExpenses host plain three (withPage byTwo (js "3")) = Sent 200 b'
    /\ List.length (l_data b) = (if Nat.eqb (3 mod 2) 0 then 2 else 3 mod 2)
    /\ l_data b' = []
    /\ l_total b = 3 /\ l_total b' = 3.
Proof.
  apply (last_page_and_after host plain three (timedOf host three) byTwo
           (js "2") (js "2") (js "3") 2 3).
  - vm_compute. reflexivity.
  - vm_compute. reflexivity.
  - lia.
  - lia.
  - reflexivity.
  - vm_compute. reflexivity.
  - vm_compute. reflexivity.
  - vm_compute. reflexivity.
Defined.

(** C7 as stated fails for N = 0: the page ceil(0/L) = 0 is read as the
    first page, and it has no row where the claim counts L. *)
Lemma empty_collection_page_zero :
  ~ (forall (P : Platform) (cfg : Config) (store : list doc)
            (timed : list (doc * bson)) (rq : query) (l pg pg' : jsstring)
            (L N : nat),
       addParsedTimeStage P store = Some timed ->
       N = List.length (listed P cfg rq timed) ->
       1 <= L <= 500 ->
       q_limit rq = Some l -> parseInt10 l = Fin (inject_Z (Z.of_nat L)) ->
       parseInt10 pg = Fin (inject_Z (Z.of_nat (ceilDiv N L))) ->
       parseInt10 pg' = Fin (inject_Z (Z.of_nat (ceilDiv N L + 1))) ->
       exists b b',
         listExpenses P cfg store (withPage rq pg) = Sent 200 b
         /\ listExpenses P cfg store (withPage rq pg') = Sent 200 b'
         /\ List.length (l_data b) = (if Nat.eqb (N mod L) 0 then L else N mod L)
         /\ l_data b' = []
         /\ l_total b = N /\ l_total b' = N).
Proof.
  intros H.
  destruct (H host plain [] [] byOne (js "1") (js "0") (js "1") 1 0)
    as [b [b' [Hb [_ [Hlen _]]]]];
    try (vm_compute; reflexivity); try lia.
  vm_compute in Hb. injection Hb as <-. vm_compute in Hlen. discriminate.
Qed.

Section Scope.

Variable P : Platform.




Lemma guard_enforced (cfg : Config) (n : jsnum) :
  enforced cfg = Some n ->
  chatGuardStage cfg = Some (fun d => chatIs n d || chatMissing d).
Proof. unfold chatGuardStage. now intros ->. Qed.



End Scope.



Section Pages.

Variable P : Platform.
Variable cfg : Config.

Lemma listed_In (rq : query) (timed : list (doc * bson)) (r : row) :
  In r (listed P cfg rq timed) <->
  exists dt, r = project dt /\ In dt timed
             /\ scopeAndRange P cfg rq dt = true /\ textFilter rq dt = true.
Proof.
  unfold listed. rewrite in_map_iff. split.
  - intros [dt [<- H]]. apply sortBy_In in H. apply filter_In in H.
    destruct H as [H Ht]. apply filter_In in H. destruct H as [H Hs].
    now exists dt.
  - intros [dt [-> [H [Hs Ht]]]]. exists dt. split; [reflexivity|].
    apply sortBy_In, filter_In. split; [|exact Ht]. apply filter_In. now split.
Qed.

(** The answer to a request for the page [k] of a listing. *)
Lemma listExpenses_page (store : list doc) (timed : list (doc * bson))
    (rq : query) (limit k : nat) (pg : jsstring) :
  addParsedTimeStage P store = Some timed ->
  wholeOf (limitOf rq) = Some limit -> 1 <= k ->
  parseInt10 pg = Fin (inject_Z (Z.of_nat k)) ->
  listExpenses P cfg store (withPage rq pg)
  = Sent 200
      {| l_total := List.length (listed P cfg rq timed);
         l_page := k;
         l_pages := ceilDiv (List.length (listed P cfg rq timed)) limit;
         l_limit := limit;
         l_data := firstn limit (skipn ((k - 1) * limit) (listed P cfg rq timed)) |}.
Proof.
  intros Hst Hl Hk Hpg. unfold listExpenses.
  rewrite (pageOf_reads rq pg k Hpg Hk).
  change (limitOf (withPage rq pg)) with (limitOf rq). rewrite Hl, Hst.
  reflexivity.
Qed.

(** A row that passes the stages of a listing is on one of its pages:
    whoever asks for that page gets it. *)
Lemma listed_on_a_page (store : list doc) (timed : list (doc * bson))
    (rq : query) (limit : nat) (r : row) :
  addParsedTimeStage P store = Some timed ->
  wholeOf (limitOf rq) = Some limit ->
  In r (listed P cfg rq timed) ->
  exists k,
    1 <= k <= ceilDiv (List.length (listed P cfg rq timed)) limit
    /\ forall pg,
         parseInt10 pg = Fin (inject_Z (Z.of_nat k)) ->
         exists b,
           listExpenses P cfg store (withPage rq pg) = Sent 200 b
           /\ In r (l_data b) /\ l_page b = k
           /\ l_total b = List.length (listed P cfg rq timed).
Proof.
  intros Hst Hl Hin.
  destruct (on_a_page r _ limit (proj1 (whole_limit _ _ Hl)) Hin) as [k [Hk Hr]].
  exists k. split; [exact Hk|]. intros pg Hpg. eexists.
  split; [apply (listExpenses_page store timed rq limit k pg Hst Hl (proj1 Hk) Hpg)|].
  cbn [l_data l_page l_total]. auto.
Qed.

End Pages.

Section Guard.

Variable P : Platform.

Lemma list_sum_perm (l l' : list nat) :
  Permutation l l' -> list_sum l = list_sum l'.
Proof. unfold list_sum. induction 1; cbn [fold_right]; lia. Qed.

Lemma counted_addToGroups (key : bson) (amt : jsnum) (gs : list group) :
  counted (addToGroups key amt gs) = S (counted gs).
Proof.
  unfold counted, list_sum. induction gs as [|g gs IH]; [reflexivity|].
  cbn [addToGroups].
  destruct (bson_eqb (g_category g) key); cbn [map fold_right g_count]; lia.
Qed.

Lemma counted_groupByCategory (ds : list (doc * bson)) :
  counted (groupByCategory ds) = List.length ds.
Proof.
  unfold groupByCategory.
  assert (H : forall init,
            counted (fold_left
                       (fun gs dt =>
                          addToGroups
                            (match category (fst dt) with BMissing => BNull | v => v end)
                            (match amount (fst dt) with BNum n => n | _ => Fin 0 end) gs)
                       ds init)
            = List.length ds + counted init).
  { induction ds as [|dt ds IH]; intros init; [reflexivity|].
    cbn [fold_left List.length]. rewrite IH, counted_addToGroups. lia. }
  rewrite H. cbn. lia.
Qed.

(** The summary counts every document that passes the stages before the
    grouping, once. *)
Lemma categoryStats_counted (cfg : Config) (store : list doc)
    (timed : list (doc * bson)) (rq : query) :
  addParsedTimeStage P store = Some timed ->
  exists gs, categoryStats P cfg store rq = Sent 200 gs
             /\ counted gs = List.length (filter (scopeAndRange P cfg rq) timed).
Proof.
  intros Hst. unfold categoryStats. rewrite Hst. eexists. split; [reflexivity|].
  rewrite <- counted_groupByCategory. unfold counted. rewrite map_map. cbn [g_count].
  apply list_sum_perm, Permutation_map, sortBy_perm.
Qed.

(** C10.  While a scope is enforced, the guard keeps the documents whose
    [chat_id] is the enforced value and those that have no [chat_id].  For
    a request without a scope of its own, a document without [chat_id] is
    filtered by the range of the request alone: when it is in range it is
    among the documents the summary groups and counts, and, when it also
    passes the text filter, among the rows the listing counts and cuts its
    page from: its row is in the answer of the listing when all the rows
    fit on the first page and that page is asked for, and in any case in
    the answer to the request for one of the pages. *)
Theorem guard_keeps_scopeless (cfg : Config) (n : jsnum) :
  enforced cfg = Some n ->
  (exists guard,
     chatGuardStage cfg = Some guard
     /\ forall d, guard d = true <-> chatIs n d = true \/ chat_id d = BMissing)
  /\ (forall rq d t,
        chat_id d = BMissing -> q_chat_id rq = None ->
        scopeAndRange P cfg rq (d, t) = rangeStage P rq t)
  /\ (forall store timed rq d t,
        addParsedTimeStage P store = Some timed -> In (d, t) timed ->
        chat_id d = BMissing -> q_chat_id rq = None ->
        rangeStage P rq t = true ->
        (textFilter rq (d, t) = true ->
         In (project (d, t)) (listed P cfg rq timed)
         /\ (forall page limit,
               wholeOf (pageOf rq) = Some page ->
               wholeOf (limitOf rq) = Some limit ->
               exists b, listExpenses P cfg store rq = Sent 200 b
                         /\ l_total b = List.length (listed P cfg rq timed)
                         /\ (page = 1 -> l_total b <= limit ->
                             In (project (d, t)) (l_data b)))
         /\ forall limit,
              wholeOf (limitOf rq) = Some limit ->
              exists k,
                1 <= k <= ceilDiv (List.length (listed P cfg rq timed)) limit
                /\ forall pg,
                     parseInt10 pg = Fin (inject_Z (Z.of_nat k)) ->
                     exists b,
                       listExpenses P cfg store (withPage rq pg) = Sent 200 b
                       /\ In (project (d, t)) (l_data b) /\ l_page b = k
                       /\ l_total b = List.length (listed P cfg rq timed))
        /\ In (d, t) (filter (scopeAndRange P cfg rq) timed)
        /\ exists gs,
             categoryStats P cfg store rq = Sent 200 gs
             /\ counted gs
                = List.length (filter (scopeAndRange P cfg rq) timed)).
Proof.
  intros He.
  assert (Hpass : forall rq d t,
            chat_id d = BMissing -> q_chat_id rq = None ->
            scopeAndRange P cfg rq (d, t) = rangeStage P rq t).
  { intros rq d t Hd Hq. unfold scopeAndRange.
    rewrite (guard_enforced cfg n He). cbn [fst snd].
    unfold requestedScope, chatMissing. rewrite Hq, Hd.
    now rewrite orb_true_r. }
  split; [|split; [exact Hpass|]].
  - eexists. split; [apply (guard_enforced cfg n He)|].
    intros d. cbn beta. rewrite orb_true_iff. unfold chatMissing.
    destruct (chat_id d); intuition discriminate.
  - intros store timed rq d t Hst Hin Hd Hq Hr.
    assert (Hkept : In (d, t) (filter (scopeAndRange P cfg rq) timed)).
    { apply filter_In. split; [exact Hin|]. now rewrite Hpass. }
    split; [|split; [exact Hkept | now apply categoryStats_counted]].
    intros Ht.
    assert (Hrow : In (project (d, t)) (listed P cfg rq timed)).
    { unfold listed. apply in_map, sortBy_In, filter_In. now split. }
    split; [exact Hrow|]. split.
    + intros page limit Hp Hl. unfold listExpenses. rewrite Hp, Hl, Hst.
      eexists. split; [reflexivity|]. cbn [l_total l_data].
      split; [reflexivity|]. intros -> Hfit. cbn [Nat.sub Nat.mul skipn].
      now rewrite firstn_all2.
    + intros limit Hl.
      destruct (listed_on_a_page P cfg store timed rq limit _ Hst Hl Hrow)
        as [k [Hk Hpg]].
      exists k. split; [exact Hk | exact Hpg].
Qed.

End Guard.

(** C10 on the platform: the scope 957879521 is enforced, the request
    names none, and the third of the three documents has no [chat_id]. *)
Lemma guard_keeps_scopeless_witness :
  (exists guard,
     chatGuardStage forced = Some guard
     /\ forall d, guard d = true
                  <-> chatIs (Fin 957879521) d = true \/ chat_id d = BMissing)
  /\ In (project scopeless) (listed host forced everything (timedOf host three))
  /\ (exists b, listExpenses host forced three everything = Sent 200 b
                /\ l_total b = 2 /\ In (project scopeless) (l_data b))
  /\ In scopeless (filter (scopeAndRange host forced everything) (timedOf host three))
  /\ exists gs,
       categoryStats host forced three everything = Sent 200 gs
       /\ counted gs
          = List.length (filter (scopeAndRange host forced everything)
                                (timedOf host three)).
Proof.
  pose proof (guard_keeps_scopeless host forced (Fin 957879521)) as H.
  destruct H as [Hg [_ Hall]]; [vm_compute; reflexivity|].
  split; [exact Hg|].
  destruct (Hall three (timedOf host three) everything (fst scopeless) (snd scopeless))
    as [Hlist [Hkept Hstats]].
  - vm_compute. reflexivity.
  - vm_compute. tauto.
  - reflexivity.
  - reflexivity.
  - vm_compute. reflexivity.
  - destruct Hlist as [Hrow [Hfirst _]]; [vm_compute; reflexivity|].
    split; [exact Hrow|]. split; [|split; [exact Hkept | exact Hstats]].
    destruct (Hfirst 1 50) as [b [Hb [Htot Hin]]];
      [vm_compute; reflexivity | vm_compute; reflexivity |].
    exists b. split; [exact Hb|].
    assert (Hlen : List.length (listed host forced everything (timedOf host three)) = 2)
      by (vm_compute; reflexivity).
    rewrite Hlen in Htot. split; [exact Htot|].
    apply Hin; [reflexivity | lia].
Defined.

(** ** Further properties: the routes that write *)

Section Writing.

Variable P : Platform.
Variable cfg : Config.
Variable now : Z.

Ltac branches :=
  repeat match goal with
         | |- context [match ?x with _ => _ end] => destruct x eqn:?
         end.

Lemma nextId_above (store : list doc) (e : doc) :
  In e store -> (_id e < nextId store)%N.
Proof.
  unfold nextId. induction store as [|d store IH]; [contradiction|].
  cbn [fold_right]. intros [->|Hin]; [lia|]. specialize (IH Hin). lia.
Qed.

Lemma payloadOf_fields (amt : jsnum) (cat pay nte src : jsstring) (t : jsdate)
    (tzStr : jsstring) (requested : jsval) (payload : doc) :
  payloadOf P cfg now amt cat pay nte src t tzStr requested = Some payload ->
  exists x iso,
    t = Some x /\ toISOString (Some x) = Some iso
    /\ payload
       = {| _id := 0%N; amount := BNum amt; category := BStr cat;
            payee := BStr pay; note := BStr nte; source := BStr src;
            time := BDate x; chat_id := scopeOf cfg requested;
            ts_utc := BDate x; tz := BStr tzStr;
            time_local := BStr (formatTimeLocal P (Some x) tzStr);
            ym := BStr (slice iso 0 7); created_at_utc := BDate now;
            createdAt := BMissing |}.
Proof.
  unfold payloadOf. destruct t as [x|]; [|discriminate].
  destruct (toISOString (Some x)) as [iso|] eqn:Hi; [|discriminate].
  intros H. injection H as <-. now exists x, iso.
Qed.

Lemma Expense_create_inserts (store store' : list doc) (payload d : doc) :
  Expense_create now store payload = Some (d, store') ->
  validates payload = true /\ d = withId (nextId store) now payload
  /\ store' = store ++ [d].
Proof.
  unfold Expense_create. destruct (validates payload); [|discriminate].
  intros H. injection H as <- <-. auto.
Qed.

(** X1.  A route that answers with a failure has written nothing: after a
    create, a parse-and-create, an update or a delete that failed, whatever
    the status, the collection is what it was. *)
Theorem failed_routes_write_nothing (store : list doc) :
  (forall body status e,
     fst (createExpense P cfg now store body) = Failed status e ->
     snd (createExpense P cfg now store body) = store)
  /\ (forall body status e,
        fst (parseExpense P cfg now store body) = Failed status e ->
        snd (parseExpense P cfg now store body) = store)
  /\ (forall id body status e,
        fst (patchExpense P now store id body) = Failed status e ->
        snd (patchExpense P now store id body) = store)
  /\ (forall id status e,
        fst (deleteExpense P store id) = Failed status e ->
        snd (deleteExpense P store id) = store).
Proof.
  split; [|split; [|split]].
  - intros body status e. unfold createExpense. branches; cbn [fst snd];
      try reflexivity; discriminate.
  - intros body status e. unfold parseExpense. branches; cbn [fst snd];
      try reflexivity; discriminate.
  - intros i body status e. unfold patchExpense. branches; cbn [fst snd];
      try reflexivity; discriminate.
  - intros i status e. unfold deleteExpense. branches; cbn [fst snd];
      try reflexivity; discriminate.
Qed.

(** X2.  An accepted create appends exactly the document it answers with.
    That document has an identifier no other document has, the amount the
    body's amount reads as, which is not below zero, the defaults for the
    fields the body leaves out, and the instant of the body's time in
    [time] and [ts_utc], with [tz], [time_local] and [ym] made from that
    instant and the zone of the body. *)
Theorem createExpense_accepted (store : list doc) (body : createBody) (d : doc) :
  fst (createExpense P cfg now store body) = Sent 201 d ->
  snd (createExpense P cfg now store body) = store ++ [d]
  /\ Forall (fun e => _id e <> _id d) store
  /\ amount d = BNum (ToNumber (b_amount body)) /\ nonNegative d
  /\ category d = BStr (orElse (b_category body) (js "Uncategorized"))
  /\ payee d = BStr (orElse (b_payee body) [])
  /\ note d = BStr (orElse (b_note body) [])
  /\ source d = BStr (orElse (b_source body) (js "web"))
  /\ created_at_utc d = BDate now /\ createdAt d = BDate now
  /\ exists t iso,
       newDate P (b_time body) = Some t /\ toISOString (Some t) = Some iso
       /\ timeFields d
          = (BDate t, BDate t,
             BStr (formatTimeLocal P (Some t) (orElse (b_tz body) (js "Asia/Shanghai"))),
             BStr (orElse (b_tz body) (js "Asia/Shanghai")),
             BStr (slice iso 0 7)).
Proof.
  unfold createExpense.
  destruct (negb (truthy (b_amount body)) || negb (truthy (b_time body)));
    [discriminate|].
  destruct (payloadOf P cfg now _ _ _ _ _ _ _ _) as [payload|] eqn:Hp;
    [|discriminate].
  destruct (Expense_create now store payload) as [[d' store']|] eqn:Hc;
    [|discriminate].
  cbn [fst snd]. intros H. injection H as ->.
  apply Expense_create_inserts in Hc. destruct Hc as [Hv [-> ->]].
  apply payloadOf_fields in Hp. destruct Hp as [x [iso [Hx [Hi ->]]]].
  split; [reflexivity|]. split.
  { apply Forall_forall. intros e He. cbn [_id withId].
    pose proof (nextId_above store e He). lia. }
  split; [reflexivity|]. split.
  { apply validates_nonNegative in Hv. exact Hv. }
  repeat (split; [reflexivity|]).
  exists x, iso. repeat split; assumption.
Qed.

End Writing.

(** X1 on the platform: a create without an amount, a parse of a blank
    text, an update and a delete of a document that is not there. *)
Lemma failed_routes_write_nothing_witness :
  snd (createExpense host plain 1755003000000 [lunch] free) = [lunch]
  /\ snd (parseExpense host plain 1755003000000 [lunch]
            {| pb_text := Some (js "   "); pb_tz := None; pb_chat_id := VUndefined |})
     = [lunch]
  /\ snd (patchExpense host 1755003000000 [lunch] (oid "08") recategorise) = [lunch]
  /\ snd (deleteExpense host [lunch] (oid "08")) = [lunch]
  /\ snd (deleteExpense host [lunch] (js "7")) = [lunch].
Proof.
  destruct (failed_routes_write_nothing host plain 1755003000000 [lunch])
    as [Hc [Hp [Hu Hd]]].
  split; [|split; [|split; [|split]]].
  - apply (Hc free 400 "amount and time are required"). vm_compute. reflexivity.
  - apply (Hp _ 400 "text is required"). vm_compute. reflexivity.
  - apply (Hu (oid "08") recategorise 404 "Not found"). vm_compute. reflexivity.
  - apply (Hd (oid "08") 404 "Not found"). vm_compute. reflexivity.
  - apply (Hd (js "7") 500 "Failed to delete expense"). vm_compute. reflexivity.
Defined.

(** X2 on the platform: 23.5 at noon-fifty UTC of 12 August 2025, beside
    the document that is there. *)
Lemma createExpense_accepted_witness :
  exists d,
    fst (createExpense host plain 1755003000000 [lunch] scoped) = Sent 201 d
    /\ snd (createExpense host plain 1755003000000 [lunch] scoped) = [lunch] ++ [d]
    /\ _id d = 8%N /\ amount d = BNum (Fin (47 # 2)%Q)
    /\ timeFields d
       = (BDate 1755003000000, BDate 1755003000000,
          BStr (js "2025-08-12 12:50"), BStr (js "UTC"), BStr (js "2025-08")).
Proof.
  eexists. split; [vm_compute; reflexivity|].
  match goal with
  | |- snd _ = _ ++ [?d] /\ _ =>
    destruct (createExpense_accepted host plain 1755003000000 [lunch] scoped d)
      as [Hs _]; [vm_compute; reflexivity|]
  end.
  split; [exact Hs|]. vm_compute. repeat split.
Defined.

Section Lifecycle.

Variable P : Platform.
Variable cfg : Config.
Variable now : Z.

Ltac branches :=
  repeat match goal with
         | |- context [match ?x with _ => _ end] => destruct x eqn:?
         end.

Lemma created_has_time (amt : jsnum) (cat pay nte src : jsstring) (t : jsdate)
    (tzStr : jsstring) (requested : jsval) (payload d : doc)
    (store store' : list doc) :
  payloadOf P cfg now amt cat pay nte src t tzStr requested = Some payload ->
  Expense_create now store payload = Some (d, store') ->
  isDate (time d) /\ chat_id d = scopeOf cfg requested /\ store' = store ++ [d].
Proof.
  intros Hp Hc. apply payloadOf_fields in Hp. destruct Hp as [x [iso [_ [_ ->]]]].
  apply Expense_create_inserts in Hc. destruct Hc as [_ [-> ->]].
  cbn. split; [now exists x | auto].
Qed.

Lemma applyFields_time (f : fields) (e : doc) :
  isDate (time e) -> isDate (time (applyFields f e)).
Proof.
  intros H. unfold applyFields, setField. cbn.
  destruct (f_time f) as [t|]; [now exists t | exact H].
Qed.

Lemma resolves_to_time (store : list doc) :
  Forall (fun d => isDate (time d)) store ->
  addParsedTimeStage P store = Some (map (fun d => (d, time d)) store).
Proof.
  induction 1 as [|d store [t Ht] _ IH]; [reflexivity|].
  cbn [addParsedTimeStage map]. rewrite IH.
  unfold parsedTime, switch. rewrite Ht. reflexivity.
Qed.

(** X3.  A collection in which every [time] is a date stays so under the
    four writing routes, whatever the requests; and its documents resolve,
    each to its own [time], without the time stage ever raising.  So the
    listings and summaries of a collection that only these routes have
    written never fail in the time stage. *)
Theorem written_collection_resolves (store : list doc) :
  Forall (fun d => isDate (time d)) store ->
  (forall body,
     Forall (fun d => isDate (time d)) (snd (createExpense P cfg now store body)))
  /\ (forall body,
        Forall (fun d => isDate (time d)) (snd (parseExpense P cfg now store body)))
  /\ (forall id body,
        Forall (fun d => isDate (time d)) (snd (patchExpense P now store id body)))
  /\ (forall id, Forall (fun d => isDate (time d)) (snd (deleteExpense P store id)))
  /\ addParsedTimeStage P store = Some (map (fun d => (d, time d)) store).
Proof.
  intros Hs. split; [|split; [|split; [|split]]].
  - intros body. unfold createExpense. branches; cbn [snd]; try exact Hs.
    match goal with
    | Hp : payloadOf _ _ _ _ _ _ _ _ _ _ _ = Some _,
      Hc : Expense_create _ _ _ = Some _ |- _ =>
      destruct (created_has_time _ _ _ _ _ _ _ _ _ _ _ _ Hp Hc) as [Ht [_ ->]]
    end.
    apply Forall_app. split; [exact Hs | now constructor].
  - intros body. unfold parseExpense. branches; cbn [snd]; try exact Hs.
    match goal with
    | Hp : payloadOf _ _ _ _ _ _ _ _ _ _ _ = Some _,
      Hc : Expense_create _ _ _ = Some _ |- _ =>
      destruct (created_has_time _ _ _ _ _ _ _ _ _ _ _ _ Hp Hc) as [Ht [_ ->]]
    end.
    apply Forall_app. split; [exact Hs | now constructor].
  - intros id body. unfold patchExpense.
    destruct (fieldsOf P body) as [f|]; cbn [snd]; [|exact Hs].
    destruct (findByIdAndUpdate P now false store id f) as [| |d store'] eqn:Hup;
      cbn [snd]; try exact Hs.
    destruct (update_store _ _ _ _ _ _ _ _ Hup) as [i [_ [-> _]]].
    apply Forall_map. eapply Forall_impl; [|exact Hs].
    intros e He. cbn beta. destruct (_id e =? i)%N; [|exact He].
    now apply applyFields_time.
  - intros id. unfold deleteExpense.
    destruct (castObjectId P id) as [i|]; cbn [snd]; [|exact Hs].
    destruct (find _ store); cbn [snd]; [|exact Hs].
    apply Forall_forall. intros e He. apply filter_In in He.
    rewrite Forall_forall in Hs. now apply Hs.
  - now apply resolves_to_time.
Qed.

Lemma enforced_equals_itself (n : jsnum) :
  enforced cfg = Some n -> num_eqb n n = true.
Proof.
  unfold enforced, CHAT_ID. intros H.
  destruct (FORCE_CHAT_ID cfg) as [[|c e]|]; try discriminate.
  destruct (StringToNumber (c :: e)) as [|b|q] eqn:Hn; cbn in H; try discriminate.
  - injection H as <-. cbn. now destruct b.
  - destruct (Qeq_bool q 0); [discriminate|]. injection H as <-. cbn.
    apply Qeq_bool_iff. reflexivity.
Qed.

(** X4.  While a scope is enforced, every document a creating route
    writes carries the enforced scope, whatever scope the body asks for,
    and passes the guard of the listings; an update never changes the
    scope of a document. *)
Theorem enforced_scope_on_write (n : jsnum) (store : list doc) :
  enforced cfg = Some n ->
  (forall body d,
     fst (createExpense P cfg now store body) = Sent 201 d ->
     chat_id d = BNum n /\ chatIs n d = true)
  /\ (forall body d parsed,
        fst (parseExpense P cfg now store body) = Sent 201 (d, parsed) ->
        chat_id d = BNum n /\ chatIs n d = true)
  /\ (forall id body,
        map chat_id (snd (patchExpense P now store id body)) = map chat_id store).
Proof.
  intros He. pose proof (enforced_equals_itself n He) as Hnn.
  assert (Hscope : forall requested, scopeOf cfg requested = BNum n).
  { intros requested. unfold scopeOf. now rewrite He. }
  split; [|split].
  - intros body d. unfold createExpense. branches; cbn [fst]; try discriminate.
    intros H. injection H as <-.
    match goal with
    | Hp : payloadOf _ _ _ _ _ _ _ _ _ _ _ = Some _,
      Hc : Expense_create _ _ _ = Some _ |- _ =>
      destruct (created_has_time _ _ _ _ _ _ _ _ _ _ _ _ Hp Hc) as [_ [Hch _]]
    end.
    rewrite Hscope in Hch. split; [exact Hch|]. unfold chatIs. now rewrite Hch.
  - intros body d parsed. unfold parseExpense. branches; cbn [fst]; try discriminate.
    intros H. injection H as <- _.
    match goal with
    | Hp : payloadOf _ _ _ _ _ _ _ _ _ _ _ = Some _,
      Hc : Expense_create _ _ _ = Some _ |- _ =>
      destruct (created_has_time _ _ _ _ _ _ _ _ _ _ _ _ Hp Hc) as [_ [Hch _]]
    end.
    rewrite Hscope in Hch. split; [exact Hch|]. unfold chatIs. now rewrite Hch.
  - intros id body. unfold patchExpense.
    destruct (fieldsOf P body) as [f|]; cbn [snd]; [|reflexivity].
    destruct (findByIdAndUpdate P now false store id f) as [| |d store'] eqn:Hup;
      cbn [snd]; try reflexivity.
    destruct (update_store _ _ _ _ _ _ _ _ Hup) as [i [_ [-> _]]].
    rewrite map_map. apply map_ext. intros e. now destruct (_id e =? i)%N.
Qed.

End Lifecycle.

(** X3 on the platform: the collection of one document, after a create. *)
Lemma written_collection_resolves_witness :
  Forall (fun d => isDate (time d))
         (snd (createExpense host plain 1755003000000 [lunch] scoped))
  /\ addParsedTimeStage host [lunch] = Some [(lunch, time lunch)].
Proof.
  assert (H : Forall (fun d => isDate (time d)) [lunch]).
  { constructor; [|constructor]. now exists 1755003000000%Z. }
  destruct (written_collection_resolves host plain 1755003000000 [lunch] H)
    as [Hc [_ [_ [_ Hr]]]].
  split; [apply Hc | exact Hr].
Defined.

(** X4 on the platform: the scope 42 is enforced and the body asks for
    957879521. *)
Lemma enforced_scope_on_write_witness :
  exists d,
    fst (createExpense host forced42 1755003000000 [] asks957) = Sent 201 d
    /\ chat_id d = BNum (Fin 42) /\ chatIs (Fin 42) d = true.
Proof.
  eexists. split; [vm_compute; reflexivity|].
  apply (proj1 (enforced_scope_on_write host forced42 1755003000000 (Fin 42) []
                  ltac:(vm_compute; reflexivity)) asks957).
  vm_compute. reflexivity.
Defined.

Section UpdateAndDelete.

Variable P : Platform.

Lemma applyFields_kept (i : N) (body : patchBody) (f : fields) (e : doc) :
  fieldsOf P body = Some f -> _id e = i ->
  keptByUpdate i body e (applyFields f e).
Proof.
  intros Hf Hid. unfold keptByUpdate, applyFields. cbn.
  repeat (split; [reflexivity|]).
  split; [congruence|].
  unfold fieldsOf in Hf.
  destruct (isUndefined (u_time body));
    [|destruct (newDate P (u_time body)); [|discriminate]];
    cbn in Hf; injection Hf as <-; cbn; repeat split; intros ->; reflexivity.
Qed.

(** X5.  An accepted update rewrites the collection document by document
    and answers with the written document of the requested identifier as
    the model loads it.  In the collection the identifiers, the order and
    the number of documents stay; a document of another identifier is
    untouched; and in the document updated the scope, the source and the
    two creation stamps stay, as does each of amount, category, payee and
    note that the body does not name.  The answer has the identifier asked
    for and, where the written document lacks a category, a payee, a note,
    a source or [createdAt], the default of the schema in its place, which
    the collection does not get. *)
Theorem patchExpense_frame (now : Z) (store : list doc) (id : jsstring)
    (body : patchBody) (d : doc) :
  fst (patchExpense P now store id body) = Sent 200 d ->
  exists i e,
    castObjectId P id = Some i
    /\ In e (snd (patchExpense P now store id body)) /\ _id e = i
    /\ d = hydrate P now e /\ _id d = i
    /\ (category e = BMissing -> category d = BStr (js "Uncategorized"))
    /\ (payee e = BMissing -> payee d = BStr [])
    /\ (note e = BMissing -> note d = BStr [])
    /\ (source e = BMissing -> source d = BStr (js "telegram"))
    /\ (createdAt e = BMissing -> createdAt d = BDate now)
    /\ Forall2 (keptByUpdate i body) store (snd (patchExpense P now store id body)).
Proof.
  unfold patchExpense.
  destruct (fieldsOf P body) as [f|] eqn:Hf; [|discriminate].
  destruct (findByIdAndUpdate P now false store id f) as [| |d' store'] eqn:Hup;
    try discriminate.
  cbn [fst snd]. intros H. injection H as ->.
  destruct (update_store _ _ _ _ _ _ _ _ Hup) as [i [Hc [-> [d0 [Hin [Hid ->]]]]]].
  exists i, (applyFields f d0). split; [exact Hc|]. split.
  { apply in_map_iff. exists d0. split; [|exact Hin].
    rewrite Hid. now rewrite N.eqb_refl. }
  split; [exact Hid|]. split; [reflexivity|]. split; [exact Hid|].
  do 5 (split; [cbn [hydrate category payee note source createdAt];
                intros ->; reflexivity|]).
  clear Hin Hup. induction store as [|e store IH]; [constructor|].
  cbn [map]. constructor; [|exact IH].
  destruct (_id e =? i)%N eqn:E.
  - apply N.eqb_eq in E. now apply applyFields_kept.
  - unfold keptByUpdate. repeat split; reflexivity.
Qed.

(** X6.  A delete whose identifier denotes no ObjectId answers 500 and
    keeps the collection, and so does an update.  A delete whose
    identifier denotes one keeps exactly the documents of other
    identifiers, in their order; it answers 200 when a document has the
    identifier and 404 when none has; and after it, whatever it answered,
    another delete and an update of the same identifier with a body
    without [time] and [amount] answer 404. *)
Theorem deleteExpense_removes (now : Z) (store : list doc) (id : jsstring) :
  (castObjectId P id = None ->
   deleteExpense P store id = (Failed 500 "Failed to delete expense", store)
   /\ forall body,
        patchExpense P now store id body
        = (Failed 500 "Failed to update expense", store))
  /\ forall i,
       castObjectId P id = Some i ->
       snd (deleteExpense P store id) = filter (fun d => negb (_id d =? i)%N) store
       /\ ((exists d, In d store /\ _id d = i) ->
           fst (deleteExpense P store id) = Sent 200 true)
       /\ ((forall d, In d store -> _id d <> i) ->
           fst (deleteExpense P store id) = Failed 404 "Not found")
       /\ fst (deleteExpense P (snd (deleteExpense P store id)) id)
          = Failed 404 "Not found"
       /\ (forall body,
             u_time body = VUndefined -> u_amount body = VUndefined ->
             fst (patchExpense P now (snd (deleteExpense P store id)) id body)
             = Failed 404 "Not found").
Proof.
  split.
  { intros Hc. split; [unfold deleteExpense; now rewrite Hc|].
    intros body. unfold patchExpense, findByIdAndUpdate. rewrite Hc.
    now destruct (fieldsOf P body). }
  intros i Hc.
  assert (Hnone : forall l, (forall d, In d l -> _id d <> i) ->
                            find (fun d => (_id d =? i)%N) l = None).
  { intros l Hl. destruct (find _ l) as [d|] eqn:Hf; [|reflexivity].
    apply find_some in Hf. destruct Hf as [Hin Hid]. apply N.eqb_eq in Hid.
    now destruct (Hl d Hin). }
  assert (Hsame : forall l, find (fun d => (_id d =? i)%N) l = None ->
                            filter (fun d => negb (_id d =? i)%N) l = l).
  { induction l as [|d l IH]; [reflexivity|]. cbn [find filter].
    destruct (_id d =? i)%N; [discriminate|]. intros H. cbn [negb].
    now rewrite IH. }
  assert (Hsnd : snd (deleteExpense P store id)
                 = filter (fun d => negb (_id d =? i)%N) store).
  { unfold deleteExpense. rewrite Hc.
    destruct (find _ store) eqn:Hf; cbn [snd]; [reflexivity|].
    symmetry. now apply Hsame. }
  assert (Hgone : find (fun d => (_id d =? i)%N) (snd (deleteExpense P store id))
                  = None).
  { apply Hnone. rewrite Hsnd. intros d Hd. apply filter_In in Hd.
    destruct Hd as [_ Hd]. apply negb_true_iff, N.eqb_neq in Hd. exact Hd. }
  split; [exact Hsnd|]. split; [|split; [|split]].
  - intros [d [Hin Hid]]. unfold deleteExpense. rewrite Hc.
    destruct (find _ store) eqn:Hf; [reflexivity|].
    pose proof (find_none _ _ Hf d Hin) as Hn. cbn in Hn.
    rewrite Hid, N.eqb_refl in Hn. discriminate.
  - intros Hl. unfold deleteExpense. now rewrite Hc, (Hnone store Hl).
  - unfold deleteExpense at 1. now rewrite Hc, Hgone.
  - intros body Ht Ha. unfold patchExpense, fieldsOf, findByIdAndUpdate.
    rewrite Ht, Ha, Hc. cbn. now rewrite Hgone.
Qed.

End UpdateAndDelete.

(** X5 on the platform: the category of one of four documents is updated;
    the document has no payee and no source, and the answer has the
    defaults for them. *)
Lemma patchExpense_frame_witness :
  exists d,
    fst (patchExpense host 1756000000000 (three ++ [lunch]) (oid "07") recategorise)
    = Sent 200 d
    /\ payee lunch = BMissing /\ payee d = BStr []
    /\ source lunch = BMissing /\ source d = BStr (js "telegram")
    /\ createdAt d = BDate 1756000000000
    /\ exists e,
         In e (snd (patchExpense host 1756000000000 (three ++ [lunch]) (oid "07")
                      recategorise))
         /\ _id e = 7%N /\ d = hydrate host 1756000000000 e
         /\ Forall2 (keptByUpdate 7 recategorise) (three ++ [lunch])
                    (snd (patchExpense host 1756000000000 (three ++ [lunch])
                            (oid "07") recategorise)).
Proof.
  pose (d := match fst (patchExpense host 1756000000000 (three ++ [lunch])
                          (oid "07") recategorise) with
             | Sent _ d => d
             | Failed _ _ => lunch
             end).
  assert (Hd : fst (patchExpense host 1756000000000 (three ++ [lunch]) (oid "07")
                      recategorise) = Sent 200 d) by (vm_compute; reflexivity).
  destruct (patchExpense_frame host 1756000000000 (three ++ [lunch]) (oid "07")
              recategorise d Hd)
    as [i [e [Hc [Hin [Hid [He [_ [_ [_ [_ [_ [_ Hk]]]]]]]]]]]].
  assert (Hi : i = 7%N).
  { assert (H7 : castObjectId host (oid "07") = Some 7%N) by (vm_compute; reflexivity).
    rewrite H7 in Hc. now injection Hc. }
  rewrite Hi in Hid, Hk. exists d. split; [exact Hd|].
  split; [reflexivity|]. split; [vm_compute; reflexivity|].
  split; [reflexivity|]. split; [vm_compute; reflexivity|].
  split; [vm_compute; reflexivity|].
  exists e. split; [exact Hin|]. split; [exact Hid|]. split; [exact He | exact Hk].
Defined.

(** X6 on the platform: the second of three documents is deleted; a
    delete of a document that is not there; a delete whose identifier is
    no ObjectId. *)
Lemma deleteExpense_removes_witness :
  fst (deleteExpense host three (oid "02")) = Sent 200 true
  /\ map _id (snd (deleteExpense host three (oid "02"))) = [1%N; 3%N]
  /\ fst (deleteExpense host [lunch] (oid "02")) = Failed 404 "Not found"
  /\ deleteExpense host [lunch] (js "7")
     = (Failed 500 "Failed to delete expense", [lunch]).
Proof.
  destruct (deleteExpense_removes host 0 three (oid "02")) as [_ H3].
  destruct (H3 2%N ltac:(vm_compute; reflexivity)) as [Hs [Hok _]].
  destruct (deleteExpense_removes host 0 [lunch] (oid "02")) as [_ H1].
  destruct (H1 2%N ltac:(vm_compute; reflexivity)) as [_ [_ [Hno _]]].
  destruct (deleteExpense_removes host 0 [lunch] (js "7")) as [H0 _].
  split; [|split; [|split]].
  - apply Hok. eexists. split; [right; left; reflexivity | reflexivity].
  - rewrite Hs. vm_compute. reflexivity.
  - apply Hno. intros d [<-|[]]. vm_compute. discriminate.
  - apply H0. vm_compute. reflexivity.
Defined.

(** ** Further properties: the listing *)

Section Listing.

Variable P : Platform.
Variable cfg : Config.

Lemma stage_In (store : list doc) (timed : list (doc * bson)) :
  addParsedTimeStage P store = Some timed ->
  List.length timed = List.length store
  /\ forall dt, In dt timed ->
                In (fst dt) store /\ parsedTime P (fst dt) = Value (snd dt).
Proof.
  revert timed. induction store as [|d store IH]; intros timed H.
  - injection H as <-. split; [reflexivity | contradiction].
  - cbn [addParsedTimeStage] in H.
    destruct (parsedTime P d) as [t|] eqn:Ht; [|discriminate].
    destruct (addParsedTimeStage P store) as [out|]; [|discriminate].
    injection H as <-. destruct (IH out eq_refl) as [Hlen Hin].
    split; [cbn; now rewrite Hlen|].
    intros dt [<-|Hdt]; cbn [fst snd].
    + split; [now left | exact Ht].
    + destruct (Hin dt Hdt). split; [now right | assumption].
Qed.

(** X7.  An answered listing is within its bounds: the page is at least 1
    and the page size from 1 to 500, whatever the request asked for; the
    page holds no more rows than its size; the total counts no more than
    the documents of the collection and is the same for every page of the
    request; the number of pages is the total over the page size, rounded
    up; and every row is a document of the collection with its resolved
    time. *)
Theorem listing_bounds (store : list doc) (rq : query) (b : listing) :
  listExpenses P cfg store rq = Sent 200 b ->
  1 <= l_page b /\ 1 <= l_limit b <= 500
  /\ List.length (l_data b) <= l_limit b
  /\ l_total b <= List.length store
  /\ l_pages b = ceilDiv (l_total b) (l_limit b)
  /\ (forall r, In r (l_data b) -> rowOf P store r)
  /\ (forall page b',
        listExpenses P cfg store (withPage rq page) = Sent 200 b' ->
        l_total b' = l_total b).
Proof.
  unfold listExpenses.
  destruct (wholeOf (pageOf rq)) as [page|] eqn:Hp; [|discriminate].
  destruct (wholeOf (limitOf rq)) as [limit|] eqn:Hl; [|discriminate].
  destruct (addParsedTimeStage P store) as [timed|] eqn:Hst; [|discriminate].
  intros H. injection H as <-. cbn [l_page l_limit l_data l_total l_pages].
  destruct (stage_In store timed Hst) as [Hlen Hin].
  split; [exact (whole_at_least_one _ _ Hp)|].
  split; [exact (whole_limit _ _ Hl)|].
  split; [rewrite length_firstn; lia|]. split.
  { unfold listed. rewrite length_map, sortBy_length, <- Hlen.
    etransitivity; [apply filter_length_le|]. apply filter_length_le. }
  split; [reflexivity|]. split.
  - intros r Hr. apply page_In, listed_In in Hr.
    destruct Hr as [dt [-> [Hdt _]]]. destruct (Hin dt Hdt) as [Hd Ht].
    exists (fst dt). cbn. repeat split; assumption || reflexivity.
  - intros pg b'. change (limitOf (withPage rq pg)) with (limitOf rq).
    rewrite Hl.
    change (listed P cfg (withPage rq pg) timed) with (listed P cfg rq timed).
    destruct (wholeOf (pageOf (withPage rq pg))); [|discriminate].
    intros H. injection H as <-. reflexivity.
Qed.

End Listing.

(** X7 on the platform: the three documents, two to a page. *)
Lemma listing_bounds_witness :
  exists b,
    listExpenses host plain three byTwo = Sent 200 b
    /\ l_page b = 1 /\ l_limit b = 2 /\ l_total b = 3 /\ l_pages b = 2
    /\ List.length (l_data b) <= l_limit b
    /\ forall r, In r (l_data b) -> rowOf host three r.
Proof.
  eexists. split; [vm_compute; reflexivity|].
  match goal with
  | |- l_page ?b = _ /\ _ =>
    destruct (listing_bounds host plain three byTwo b) as [_ [_ [Hn [_ [_ [Hr _]]]]]];
      [vm_compute; reflexivity|]
  end.
  do 4 (split; [reflexivity|]). split; [exact Hn | exact Hr].
Defined.

Section Order.

Lemma insertBy_sorted {A : Type} (lt : A -> A -> bool) (x : A) (l : list A) :
  (forall a b, lt a b = true -> lt b a = false) ->
  Sorted (fun a b => lt b a = false) l ->
  Sorted (fun a b => lt b a = false) (insertBy lt x l).
Proof.
  intros Hasym Hs. induction l as [|y l IH]; cbn [insertBy].
  - repeat constructor.
  - apply Sorted_inv in Hs. destruct Hs as [Hs Hhd].
    destruct (lt y x) eqn:E.
    + constructor; [now apply IH|].
      destruct l as [|z l]; cbn [insertBy].
      * constructor. now apply Hasym.
      * destruct (lt z x); constructor; [now inversion Hhd | now apply Hasym].
    + constructor; [now constructor | now constructor].
Qed.

Lemma sortBy_sorted {A : Type} (lt : A -> A -> bool) (l : list A) :
  (forall a b, lt a b = true -> lt b a = false) ->
  Sorted (fun a b => lt b a = false) (sortBy lt l).
Proof.
  intros Hasym. unfold sortBy. induction l as [|x l IH]; cbn [fold_right].
  - constructor.
  - now apply insertBy_sorted.
Qed.

Lemma Sorted_map {A B : Type} (R : A -> A -> Prop) (S : B -> B -> Prop)
    (f : A -> B) (l : list A) :
  (forall a b, R a b -> S (f a) (f b)) -> Sorted R l -> Sorted S (map f l).
Proof.
  intros Hf. induction 1 as [|a l Hs IH Hhd]; cbn [map]; constructor; auto.
  destruct Hhd; cbn [map]; constructor; auto.
Qed.

Lemma Sorted_skipn {A : Type} (R : A -> A -> Prop) (n : nat) (l : list A) :
  Sorted R l -> Sorted R (skipn n l).
Proof.
  revert l. induction n as [|n IH]; intros l Hs; [exact Hs|].
  destruct l as [|a l]; [constructor|]. cbn [skipn]. apply IH.
  now apply Sorted_inv in Hs.
Qed.

Lemma Sorted_firstn {A : Type} (R : A -> A -> Prop) (n : nat) (l : list A) :
  Sorted R l -> Sorted R (firstn n l).
Proof.
  revert l. induction n as [|n IH]; intros l Hs; [constructor|].
  destruct l as [|a l]; [constructor|]. cbn [firstn].
  apply Sorted_inv in Hs. destruct Hs as [Hs Hhd].
  constructor; [now apply IH|].
  destruct Hhd; [destruct n; constructor|]. destruct n; constructor. assumption.
Qed.

Lemma before_asym (a b : doc * bson) : before a b = true -> before b a = false.
Proof.
  unfold before. destruct (snd a) as [| | | | |x], (snd b) as [| | | | |y];
    try discriminate; try reflexivity;
    rewrite ?orb_true_iff, ?andb_true_iff, ?orb_false_iff, ?andb_false_iff,
      ?Z.ltb_lt, ?Z.eqb_eq, ?N.ltb_lt, ?Z.ltb_ge, ?Z.eqb_neq, ?N.ltb_ge; lia.
Qed.

Lemma before_mayPrecede (a b : doc * bson) :
  before b a = false -> mayPrecede (project a) (project b).
Proof.
  unfold before, mayPrecede, project. cbn [r_time r_id].
  destruct (snd a) as [| | | | |x], (snd b) as [| | | | |y];
    try discriminate; try (intros _; exact I);
    rewrite ?orb_false_iff, ?andb_false_iff, ?Z.ltb_ge, ?Z.eqb_neq, ?N.ltb_ge;
    lia.
Qed.

(** X8.  The rows of an answered listing are in order: each row may stand
    before the next, that is, its time is later, or the next has no time,
    or the times agree and its identifier is at least the next one's.
    Rows without a time come last. *)
Theorem listing_in_order (P : Platform) (cfg : Config) (store : list doc)
    (rq : query) (b : listing) :
  listExpenses P cfg store rq = Sent 200 b -> Sorted mayPrecede (l_data b).
Proof.
  unfold listExpenses.
  destruct (wholeOf (pageOf rq)) as [page|]; [|discriminate].
  destruct (wholeOf (limitOf rq)) as [limit|]; [|discriminate].
  destruct (addParsedTimeStage P store) as [timed|]; [|discriminate].
  intros H. injection H as <-. cbn [l_data].
  apply Sorted_firstn, Sorted_skipn. unfold listed.
  apply Sorted_map with (R := fun a b => before b a = false).
  - exact before_mayPrecede.
  - apply sortBy_sorted. exact before_asym.
Qed.

End Order.

(** X8 on the platform: the three documents, the latest first. *)
Lemma listing_in_order_witness :
  exists b,
    listExpenses host plain three everything = Sent 200 b
    /\ map r_id (l_data b) = [2%N; 3%N; 1%N]
    /\ Sorted mayPrecede (l_data b).
Proof.
  eexists. split; [vm_compute; reflexivity|]. split; [vm_compute; reflexivity|].
  apply (listing_in_order host plain three everything). vm_compute. reflexivity.
Defined.

Section Filters.

Variable P : Platform.
Variable cfg : Config.


End Filters.


(** ** Further properties: the summary *)

Section Summary.

Variable P : Platform.
Variable cfg : Config.

Lemma num_eqb_euclid (x m n : jsnum) :
  num_eqb x m || Number_isNaN x && Number_isNaN m = true ->
  num_eqb x n || Number_isNaN x && Number_isNaN n = true ->
  num_eqb m n || Number_isNaN m && Number_isNaN n = true.
Proof.
  destruct x as [|a|q], m as [|b|r], n as [|c|u]; cbn; try discriminate;
    try reflexivity.
  - destruct a, b, c; cbn; congruence.
  - rewrite !orb_false_r, !Qeq_bool_iff. intros H1 H2. now rewrite <- H1, <- H2.
Qed.

Lemma bson_eqb_euclid (x m n : bson) :
  bson_eqb x m = true -> bson_eqb x n = true -> bson_eqb m n = true.
Proof.
  destruct x, m, n; cbn; try discriminate; try reflexivity.
  - destruct b, b0, b1; cbn; congruence.
  - apply num_eqb_euclid.
  - rewrite !jsstring_eqb_eq. congruence.
  - rewrite !Z.eqb_eq. congruence.
Qed.

Lemma bson_eqb_refl (x : bson) : bson_eqb x x = true.
Proof.
  destruct x as [| |b|n|s|t]; cbn; try reflexivity.
  - now destruct b.
  - destruct n as [|b|q]; cbn; try reflexivity.
    + now destruct b.
    + rewrite orb_false_r. apply Qeq_bool_iff. reflexivity.
  - apply jsstring_eqb_refl.
  - apply Z.eqb_refl.
Qed.

Lemma addToGroups_covers (key : bson) (amt : jsnum) (gs : list group) :
  covered (addToGroups key amt gs) key.
Proof.
  induction gs as [|g gs IH]; cbn [addToGroups].
  - eexists. split; [now left|]. apply bson_eqb_refl.
  - destruct (bson_eqb (g_category g) key) eqn:E.
    + eexists. split; [now left|]. apply bson_eqb_refl.
    + destruct IH as [h [Hin Hh]]. exists h. split; [now right | exact Hh].
Qed.

Lemma addToGroups_keeps (key k : bson) (amt : jsnum) (gs : list group) :
  covered gs k -> covered (addToGroups key amt gs) k.
Proof.
  intros [h [Hin Hh]]. induction gs as [|g gs IH]; [contradiction|].
  cbn [addToGroups]. destruct (bson_eqb (g_category g) key) eqn:E.
  - destruct Hin as [->|Hin].
    + eexists. split; [now left|]. cbn [g_category].
      now apply (bson_eqb_euclid (g_category h)).
    + exists h. split; [now right | exact Hh].
  - destruct Hin as [->|Hin].
    + exists h. split; [now left | exact Hh].
    + destruct (IH Hin) as [h' [Hin' Hh']]. exists h'. split; [now right | exact Hh'].
Qed.

Lemma addToGroups_positive (key : bson) (amt : jsnum) (gs : list group) :
  Forall (fun g => 1 <= g_count g /\ g_category g <> BMissing) gs ->
  key <> BMissing ->
  Forall (fun g => 1 <= g_count g /\ g_category g <> BMissing)
         (addToGroups key amt gs).
Proof.
  intros Hgs Hk. induction Hgs as [|g gs [Hg1 Hg2] Hgs IH]; cbn [addToGroups].
  - constructor; [|constructor]. cbn. split; [lia | exact Hk].
  - destruct (bson_eqb (g_category g) key).
    + constructor; [|exact Hgs]. cbn. split; [lia | exact Hk].
    + constructor; [now split | exact IH].
Qed.

Lemma groupByCategory_groups (ds : list (doc * bson)) :
  Forall (fun g => 1 <= g_count g /\ g_category g <> BMissing) (groupByCategory ds)
  /\ forall dt, In dt ds ->
       covered (groupByCategory ds)
               (match category (fst dt) with BMissing => BNull | v => v end).
Proof.
  unfold groupByCategory.
  set (step := fun gs (dt : doc * bson) =>
         addToGroups (match category (fst dt) with BMissing => BNull | v => v end)
                     (match amount (fst dt) with BNum n => n | _ => Fin 0 end) gs).
  assert (H : forall init,
            Forall (fun g => 1 <= g_count g /\ g_category g <> BMissing) init ->
            Forall (fun g => 1 <= g_count g /\ g_category g <> BMissing)
                   (fold_left step ds init)
            /\ (forall k, covered init k -> covered (fold_left step ds init) k)
            /\ forall dt, In dt ds ->
                 covered (fold_left step ds init)
                         (match category (fst dt) with BMissing => BNull | v => v end)).
  { induction ds as [|d ds IH]; intros init Hinit; cbn [fold_left].
    - split; [exact Hinit|]. split; [auto | contradiction].
    - assert (Hstep : Forall (fun g => 1 <= g_count g /\ g_category g <> BMissing)
                             (step init d)).
      { apply addToGroups_positive; [exact Hinit|].
        destruct (category (fst d)); discriminate. }
      destruct (IH (step init d) Hstep) as [H1 [H2 H3]].
      split; [exact H1|]. split.
      + intros k Hk. apply H2. now apply addToGroups_keeps.
      + intros dt [<-|Hdt]; [|now apply H3].
        apply H2. apply addToGroups_covers. }
  destruct (H [] (Forall_nil _)) as [H1 [_ H3]]. split; assumption.
Qed.

(** X10.  An answered summary partitions the documents that pass the
    guard, the scope and the range of the request: its counts add up to
    their number; every group counts at least one document and has a label
    that is neither null nor missing; and every such document has a group
    under its category, or under "Uncategorized" when it has none. *)
Theorem summary_partitions (store : list doc) (rq : query) (gs : list group) :
  categoryStats P cfg store rq = Sent 200 gs ->
  exists timed,
    addParsedTimeStage P store = Some timed
    /\ counted gs = List.length (filter (scopeAndRange P cfg rq) timed)
    /\ Forall (fun g => 1 <= g_count g /\ g_category g <> BNull
                        /\ g_category g <> BMissing) gs
    /\ forall dt, In dt timed -> scopeAndRange P cfg rq dt = true ->
                  covered gs (labelOf (category (fst dt))).
Proof.
  unfold categoryStats.
  destruct (addParsedTimeStage P store) as [timed|] eqn:Hst; [|discriminate].
  intros H. injection H as <-. exists timed. split; [reflexivity|].
  set (kept := filter (scopeAndRange P cfg rq) timed).
  destruct (groupByCategory_groups kept) as [Hpos Hcov].
  split; [|split].
  - rewrite <- (counted_groupByCategory kept). unfold counted.
    rewrite map_map. cbn [g_count].
    apply list_sum_perm, Permutation_map, sortBy_perm.
  - apply Forall_map, Forall_forall. intros g Hg. apply sortBy_In in Hg.
    rewrite Forall_forall in Hpos. destruct (Hpos g Hg) as [H1 H2]. cbn.
    split; [exact H1|]. destruct (g_category g); split; congruence.
  - intros dt Hdt Hs.
    destruct (Hcov dt) as [g [Hg Hk]]; [apply filter_In; now split|].
    eexists. split.
    + apply in_map, sortBy_In. exact Hg.
    + cbn [g_category]. rewrite Forall_forall in Hpos.
      destruct (Hpos g Hg) as [_ Hm].
      destruct (category (fst dt)) eqn:Hc, (g_category g) eqn:Hgc; cbn in *;
        try discriminate; try congruence; try reflexivity; exact Hk.
Qed.

Lemma largerTotal_asym (a b : group) :
  largerTotal a b = true -> largerTotal b a = false.
Proof.
  unfold largerTotal.
  destruct (g_total a) as [|s|x], (g_total b) as [|t|y]; cbn;
    try discriminate; try reflexivity.
  - destruct s, t; cbn; congruence.
  - now destruct s.
  - now destruct t.
  - rewrite !negb_true_iff, !negb_false_iff. unfold Qle_bool.
    rewrite Z.leb_gt, Z.leb_le. lia.
Qed.

Lemma largerTotal_notBelow (a b : group) :
  largerTotal b a = false -> notBelow a b.
Proof.
  unfold largerTotal, notBelow.
  destruct (g_total b) as [|t|y]; [now right| |];
    destruct (g_total a) as [|s|x]; cbn; try discriminate;
    rewrite ?negb_false_iff; auto.
Qed.

(** X11.  The groups of an answered summary are in descending order of
    their totals: each group's total is at least the next one's; a total
    that is not a number comes last. *)
Theorem summary_in_order (store : list doc) (rq : query) (gs : list group) :
  categoryStats P cfg store rq = Sent 200 gs -> Sorted notBelow gs.
Proof.
  unfold categoryStats.
  destruct (addParsedTimeStage P store) as [timed|]; [|discriminate].
  intros H. injection H as <-.
  apply Sorted_map with (R := fun a b => largerTotal b a = false).
  - intros a b Hab. apply largerTotal_notBelow in Hab. exact Hab.
  - apply sortBy_sorted. exact largerTotal_asym.
Qed.

End Summary.

(** X10 and X11 on the platform: three documents, two of them without a
    category. *)
Lemma summary_partitions_witness :
  exists gs timed,
    categoryStats host plain mixed everything = Sent 200 gs
    /\ addParsedTimeStage host mixed = Some timed
    /\ counted gs = List.length (filter (scopeAndRange host plain everything) timed)
    /\ map g_category gs = [BStr (js "餐饮"); BStr (js "Uncategorized")]
    /\ map g_count gs = [1; 2].
Proof.
  eexists.
  match goal with
  | |- exists timed, categoryStats _ _ _ _ = Sent 200 ?gs /\ _ =>
    destruct (summary_partitions host plain mixed everything gs)
      as [timed [Hst [Hc _]]]; [vm_compute; reflexivity|]; exists timed
  end.
  split; [vm_compute; reflexivity|]. split; [exact Hst|]. split; [exact Hc|].
  split; vm_compute; reflexivity.
Defined.

Lemma summary_in_order_witness :
  exists gs,
    categoryStats host plain mixed everything = Sent 200 gs
    /\ map g_total gs = [Fin 30; Fin 20] /\ Sorted notBelow gs.
Proof.
  eexists. split; [vm_compute; reflexivity|]. split; [vm_compute; reflexivity|].
  apply (summary_in_order host plain mixed everything). vm_compute. reflexivity.
Defined.

(** ** Further properties: the classifier and the extraction *)

Section Labels.

(** X12.  The classifier answers with one of ten labels: a category of
    the priority order, or "other". *)
Theorem guessCategory_labels (payee note : jsstring) :
  In (guessCategory payee note) (CATEGORY_PRIORITY ++ [js "其他"]).
Proof.
  rewrite guessCategory_spec. apply in_or_app.
  destruct (find (hit (textOf payee note)) CATEGORY_PRIORITY) as [c|] eqn:Hf.
  - left. apply find_some in Hf. tauto.
  - destruct (includes (textOf payee note) (js "转账")
              || includes (textOf payee note) (js "收款")).
    + left. vm_compute. tauto.
    + right. now left.
Qed.

(** X13.  The classifier answers "other" exactly when no keyword of any
    category is in the text: the test for a transfer term that follows an
    empty set of matches never succeeds, since both terms are keywords of
    the transfer category. *)
Theorem guessCategory_other (payee note : jsstring) :
  guessCategory payee note = js "其他"
  <-> forall c, In c CATEGORY_PRIORITY -> hit (textOf payee note) c = false.
Proof.
  rewrite guessCategory_spec. set (text := textOf payee note). split.
  - destruct (find (hit text) CATEGORY_PRIORITY) as [c|] eqn:Hf.
    + intros ->. apply find_some in Hf. destruct Hf as [Hin _].
      exfalso. revert Hin. vm_compute. intuition discriminate.
    + intros _ c Hc. exact (find_none _ _ Hf c Hc).
  - intros Hnone.
    destruct (find (hit text) CATEGORY_PRIORITY) as [c|] eqn:Hf.
    + apply find_some in Hf. destruct Hf as [Hin Hc].
      rewrite (Hnone c Hin) in Hc. discriminate.
    + assert (Hno : forall kw, In kw (keywordsOf (js "转账")) ->
                               includes text kw = false).
      { intros kw Hkw. destruct (includes text kw) eqn:E; [|reflexivity].
        destruct (transfer_keywords_plain kw Hkw) as [Hne Hl].
        assert (Hh : hit text (js "转账") = true).
        { rewrite hit_keywordsOf. apply existsb_exists. exists kw.
          split; [exact Hkw|]. unfold kwHit. destruct kw; [congruence|].
          now rewrite Hl. }
        rewrite Hnone in Hh; [discriminate|]. vm_compute. tauto. }
      rewrite (Hno (js "转账")), (Hno (js "收款")); [reflexivity| |];
        vm_compute; tauto.
Qed.

End Labels.

Section Providers.

Variable P : Platform.

(** X16.  Which provider a text is sent to.  With no key, to none: the
    draft is the heuristic one.  With one key, to the provider of that
    key, whatever [AI_PROVIDER] names.  With both keys, to DashScope when
    [AI_PROVIDER] names it and to OpenAI otherwise.  One provider at most
    is asked: when it gives no object the draft is the heuristic one. *)
Theorem provider_selection (cfg : Config) (text : jsstring) :
  (OPENAI_API_KEY cfg = [] -> DASHSCOPE_API_KEY cfg = [] ->
   extract P cfg text = parseTextHeuristic text)
  /\ (OPENAI_API_KEY cfg <> [] -> DASHSCOPE_API_KEY cfg = [] ->
      extractByAI P cfg text = callOpenAIExtract P text)
  /\ (OPENAI_API_KEY cfg = [] -> DASHSCOPE_API_KEY cfg <> [] ->
      extractByAI P cfg text = callQwenExtract P text)
  /\ (OPENAI_API_KEY cfg <> [] -> DASHSCOPE_API_KEY cfg <> [] ->
      extractByAI P cfg text
      = if jsstring_eqb (AI_PROVIDER cfg) (js "dashscope")
        then callQwenExtract P text else callOpenAIExtract P text)
  /\ (extractByAI P cfg text = None ->
      extract P cfg text = parseTextHeuristic text)
  /\ (forall d, extractByAI P cfg text = Some d -> extract P cfg text = d).
Proof.
  unfold extract, extractByAI.
  assert (Hne : jsstring_eqb (js "openai") (js "dashscope") = false)
    by (vm_compute; reflexivity).
  destruct (jsstring_eqb (AI_PROVIDER cfg) (js "openai")) eqn:Eo.
  - apply jsstring_eqb_eq in Eo. rewrite Eo, Hne.
    destruct (OPENAI_API_KEY cfg), (DASHSCOPE_API_KEY cfg); cbn;
      repeat split; intros; try congruence;
      match goal with H : _ = _ |- _ => now rewrite H end.
  - destruct (jsstring_eqb (AI_PROVIDER cfg) (js "dashscope"));
      destruct (OPENAI_API_KEY cfg), (DASHSCOPE_API_KEY cfg); cbn;
      repeat split; intros; try congruence;
      match goal with H : _ = _ |- _ => now rewrite H end.
Qed.

End Providers.

(** X16 on a platform whose providers answer: both keys are set and
    DashScope is named. *)
Lemma provider_selection_witness :
  extractByAI answering bothKeys (js "午饭 星巴克 28 12:05")
  = callQwenExtract answering (js "午饭 星巴克 28 12:05")
  /\ extract host plain (js "午饭 星巴克 28 12:05")
     = parseTextHeuristic (js "午饭 星巴克 28 12:05").
Proof.
  split.
  - apply (proj1 (proj2 (proj2 (proj2
             (provider_selection answering bothKeys (js "午饭 星巴克 28 12:05")))))).
    + vm_compute. discriminate.
    + vm_compute. discriminate.
  - apply (proj1 (provider_selection host plain (js "午饭 星巴克 28 12:05")));
      reflexivity.
Defined.

Lemma guessCategory_other_witness :
  guessCategory [] (js "hello") = js "其他".
Proof.
  apply (proj2 (guessCategory_other [] (js "hello"))).
  intros c Hc.
  assert (H : forallb (fun c => negb (hit (textOf [] (js "hello")) c))
                      CATEGORY_PRIORITY = true) by (vm_compute; reflexivity).
  rewrite forallb_forall in H. apply negb_true_iff. now apply H.
Defined.

Section Parsed.

Variable P : Platform.
Variable cfg : Config.
Variable now : Z.

(** X17.  An accepted parse-and-create appends exactly the document it
    answers with and answers with the draft it was made from.  The
    document has a finite amount above zero, the source "web", a category
    and a note that are not empty, and the time the draft's time string
    composes to, in [time] and [ts_utc]. *)
Theorem parseExpense_accepted (store : list doc) (body : parseBody) (d : doc)
    (parsed : draft) :
  fst (parseExpense P cfg now store body) = Sent 201 (d, parsed) ->
  snd (parseExpense P cfg now store body) = store ++ [d]
  /\ (exists text, pb_text body = Some text /\ parsed = extract P cfg text)
  /\ (exists q, amount d = BNum (Fin q) /\ (0 < q)%Q)
  /\ source d = BStr (js "web")
  /\ (exists c, category d = BStr c /\ c <> [])
  /\ (exists n, note d = BStr n /\ n <> [])
  /\ exists t,
       combineDateTime P now (orElse (pb_tz body) (js "Asia/Shanghai"))
         (trim (orElse (d_time parsed) [])) = Some t
       /\ time d = BDate t /\ ts_utc d = BDate t.
Proof.
  unfold parseExpense. destruct (pb_text body) as [text|]; [|discriminate].
  destruct (trim text) as [|c0 r0] eqn:Htrim; [discriminate|]. cbn [nonEmpty negb].
  set (draft0 := extract P cfg text).
  destruct (ToNumber (d_amount draft0)) as [|s|q] eqn:Hamt; try discriminate.
  cbn [Number_isFinite negb orb isZero].
  destruct (Qeq_bool q 0) eqn:Hz; [discriminate|].
  destruct (payloadOf P cfg now _ _ _ _ _ _ _ _) as [payload|] eqn:Hp;
    [|discriminate].
  destruct (Expense_create now store payload) as [[d' store']|] eqn:Hc;
    [|discriminate].
  cbn [fst snd]. intros H. injection H as -> <-.
  apply Expense_create_inserts in Hc. destruct Hc as [Hv [-> ->]].
  apply payloadOf_fields in Hp. destruct Hp as [x [iso [Hx [Hi ->]]]].
  split; [reflexivity|]. split; [now exists text|]. split.
  { exists q. split; [reflexivity|]. unfold validates in Hv. cbn in Hv.
    apply andb_true_iff in Hv. destruct Hv as [Hv _].
    unfold Qle_bool in Hv. apply Z.leb_le in Hv.
    assert (Hnz : ~ (q == 0)%Q) by (intros E; apply Qeq_bool_iff in E; congruence).
    unfold Qlt, Qeq in *. cbn in *. lia. }
  split; [reflexivity|]. split.
  { eexists. split; [reflexivity|].
    destruct (orElse (d_category draft0) []);
      [destruct (guessCategory _ _)|]; discriminate. }
  split.
  { eexists. split; [reflexivity|]. unfold orElse.
    destruct (d_note draft0) as [[|a r]|]; try discriminate;
      intros ->; vm_compute in Htrim; discriminate. }
  exists x. split; [exact Hx|]. split; reflexivity.
Qed.

End Parsed.

(** X17 on a platform whose provider answers with the amount "28". *)
Lemma parseExpense_accepted_witness :
  exists d parsed,
    fst (parseExpense answering bothKeys 1755003000000 []
           {| pb_text := Some (js "午饭 星巴克 28 12:05"); pb_tz := None;
              pb_chat_id := VUndefined |}) = Sent 201 (d, parsed)
    /\ (exists q, amount d = BNum (Fin q) /\ (0 < q)%Q)
    /\ source d = BStr (js "web").
Proof.
  eexists. eexists. split; [vm_compute; reflexivity|].
  match goal with
  | |- (exists q, amount ?d = _ /\ _) /\ _ =>
    destruct (parseExpense_accepted answering bothKeys 1755003000000 []
                {| pb_text := Some (js "午饭 星巴克 28 12:05"); pb_tz := None;
                   pb_chat_id := VUndefined |} d
                (extract answering bothKeys (js "午饭 星巴克 28 12:05")))
      as [_ [_ [Ha [Hs _]]]]; [vm_compute; reflexivity|]
  end.
  split; [exact Ha | exact Hs].
Defined.

Section Matcher.

(** What a successful run of the matcher has done when it reaches its
    continuation: consumed a string of the pattern from the front of the
    input and recorded groups of the pattern only. *)
Lemma rmatch_sound (r : regex) :
  forall pos rest cs k out,
    rmatch r pos rest cs k = Some out ->
    exists w rest' added,
      rest = w ++ rest' /\ lang r w
      /\ (forall i se, In (i, se) added -> In i (groupsOf r))
      /\ k (pos + List.length w) rest' (added ++ cs) = Some out.
Proof.
  induction r as [|p|a IHa b IHb|a IHa b IHb|lo hi a IHa|i a IHa| |];
    intros pos rest cs k out H; cbn [rmatch] in H.
  - exists [], rest, []. cbn. rewrite Nat.add_0_r. auto.
  - destruct rest as [|c rest']; [discriminate|].
    destruct (p c) eqn:Hp; [|discriminate].
    exists [c], rest', []. cbn. rewrite Nat.add_1_r. repeat split; eauto; contradiction.
  - apply IHa in H. destruct H as [u [rest1 [add1 [-> [Hu [Hg1 H]]]]]].
    apply IHb in H. destruct H as [v [rest2 [add2 [-> [Hv [Hg2 H]]]]]].
    exists (u ++ v), rest2, (add2 ++ add1). cbn [lang groupsOf].
    rewrite <- !app_assoc, length_app, Nat.add_assoc. repeat split; eauto.
    intros j se Hin. apply in_app_or in Hin. apply in_or_app.
    destruct Hin; [right | left]; eauto.
  - destruct (rmatch a pos rest cs k) as [o|] eqn:Ha.
    + injection H as ->. apply IHa in Ha.
      destruct Ha as [w [rest' [add [-> [Hw [Hg H]]]]]].
      exists w, rest', add. cbn [lang groupsOf]. repeat split; eauto.
      intros j se Hin. apply in_or_app. left. eauto.
    + apply IHb in H. destruct H as [w [rest' [add [-> [Hw [Hg H]]]]]].
      exists w, rest', add. cbn [lang groupsOf]. repeat split; eauto.
      intros j se Hin. apply in_or_app. right. eauto.
  - remember (lo + List.length rest) as fuel eqn:E. clear E.
    revert lo hi pos rest cs H.
    induction fuel as [|fuel IHf]; intros lo hi pos rest cs H.
    + destruct lo; [|discriminate]. cbn in H.
      exists [], rest, []. cbn. rewrite Nat.add_0_r. repeat split; auto; try contradiction.
      exists []. cbn. repeat split; auto. destruct hi; lia.
    + assert (Hstop : (if Nat.eqb lo 0 then k pos rest cs else None) = Some out ->
                exists w rest' added,
                  rest = w ++ rest' /\ lang (RRep lo hi a) w
                  /\ (forall i se, In (i, se) added -> In i (groupsOf (RRep lo hi a)))
                  /\ k (pos + List.length w) rest' (added ++ cs) = Some out).
      { destruct lo; [|discriminate]. cbn. intros Hk.
        exists [], rest, []. cbn. rewrite Nat.add_0_r. repeat split; auto; try contradiction.
        exists []. cbn. repeat split; auto. destruct hi; lia. }
      cbn beta iota fix in H. fold rmatch in H.
      destruct (hiZero hi) eqn:Hz; [now apply Hstop|].
      match type of H with
      | match ?m with _ => _ end = _ => destruct m as [o|] eqn:Ha
      end; [|now apply Hstop].
      injection H as ->. apply IHa in Ha.
      destruct Ha as [u [rest1 [add1 [-> [Hu [Hg1 H]]]]]].
      destruct (Nat.eqb lo 0 && Nat.eqb (pos + List.length u) pos); [discriminate|].
      apply IHf in H. destruct H as [v [rest2 [add2 [-> [Hv [Hg2 H]]]]]].
      cbn [lang] in Hv. destruct Hv as [ws [-> [Hws [Hlo Hhi]]]].
      exists (u ++ List.concat ws), rest2, (add2 ++ add1). cbn [lang groupsOf] in *.
      rewrite <- !app_assoc, length_app, Nat.add_assoc. repeat split; eauto.
      * exists (u :: ws). cbn. repeat split; auto; [lia|].
        destruct hi as [[|h]|]; cbn in *; try discriminate; lia.
      * intros j se Hin. apply in_app_or in Hin. destruct Hin; eauto.
  - apply IHa in H. destruct H as [w [rest' [add [-> [Hw [Hg H]]]]]].
    exists w, rest', ((i, (pos, pos + List.length w)) :: add).
    cbn [lang groupsOf]. repeat split; eauto.
    intros j se [Hj|Hin]; [left; congruence | right; eauto].
  - destruct (Nat.eqb pos 0); [|discriminate].
    exists [], rest, []. cbn. rewrite Nat.add_0_r. repeat split; auto; contradiction.
  - destruct rest; [|discriminate].
    exists [], [], []. cbn. rewrite Nat.add_0_r. repeat split; auto; contradiction.
Qed.

Lemma capture_skip (added cs : captures) (i : nat) :
  (forall j se, In (j, se) added -> j <> i) ->
  capture (added ++ cs) i = capture cs i.
Proof.
  intros H. induction added as [|[j se] added IH]; [reflexivity|].
  cbn [app capture]. destruct (Nat.eqb i j) eqn:E.
  - apply Nat.eqb_eq in E. exfalso. apply (H j se); [now left | congruence].
  - apply IH. intros k se' Hin. apply (H k se'). now right.
Qed.

Lemma framed_sound (A G T : regex) (i pos : nat) (rest : jsstring)
    (out : captures) :
  i <> 0 -> ~ In i (groupsOf T) ->
  framed A G T i pos rest = Some out ->
  exists u w rest',
    rest = u ++ w ++ rest' /\ lang A u /\ lang G w
    /\ capture out i
       = Some (pos + List.length u, pos + List.length u + List.length w).
Proof.
  intros Hi HT H. unfold framed in H.
  apply rmatch_sound in H. destruct H as [u [r1 [add1 [-> [Hu [_ H]]]]]].
  apply rmatch_sound in H. destruct H as [w [r2 [add2 [-> [Hw [_ H]]]]]].
  apply rmatch_sound in H. destruct H as [v [r3 [add3 [-> [_ [Hg3 H]]]]]].
  injection H as <-. exists u, w, (v ++ r3). repeat split; auto.
  cbn [capture]. destruct (Nat.eqb i 0) eqn:E; [apply Nat.eqb_eq in E; lia|].
  rewrite capture_skip.
  - cbn [capture]. now rewrite Nat.eqb_refl.
  - intros j se Hin ->. apply HT. eauto.
Qed.

Lemma slice_middle (a w b : jsstring) :
  slice (a ++ w ++ b) (List.length a) (List.length a + List.length w) = w.
Proof.
  unfold slice. rewrite skipn_app, skipn_all, Nat.sub_diag. cbn [skipn app].
  replace (List.length a + List.length w - List.length a) with (List.length w) by lia.
  rewrite firstn_app, firstn_all, Nat.sub_diag. cbn [firstn]. apply app_nil_r.
Qed.

(** What [match] finds in group [i] of a pattern in three parts: a string
    of the middle part, in the subject, after a string of the first. *)
Lemma matchGroup_framed (r A G T : regex) (i : nat) (s g : jsstring) :
  (forall pos rest,
     rmatch r pos rest [] (fun p _ c => Some ((0, (pos, p)) :: c))
     = framed A G T i pos rest) ->
  i <> 0 -> ~ In i (groupsOf T) ->
  matchGroup s r i = Some g ->
  exists before u after,
    s = before ++ u ++ g ++ after /\ lang A u /\ lang G g.
Proof.
  intros Hr Hi HT. unfold matchGroup.
  destruct (searchFrom r 0 s) as [out|] eqn:Hs; [|discriminate].
  destruct (capture out i) as [[a b]|] eqn:Hc; [|discriminate].
  intros H. injection H as <-.
  assert (Hgen : forall rest pos out,
            searchFrom r pos rest = Some out ->
            exists skipped u w after,
              rest = skipped ++ u ++ w ++ after /\ lang A u /\ lang G w
              /\ capture out i
                 = Some (pos + List.length skipped + List.length u,
                         pos + List.length skipped + List.length u + List.length w)).
  { induction rest as [|c rest IH]; intros pos o Ho; cbn [searchFrom] in Ho;
      rewrite Hr in Ho.
    - destruct (framed A G T i pos []) as [o'|] eqn:Hf; [|discriminate].
      injection Ho as ->.
      destruct (framed_sound _ _ _ _ _ _ _ Hi HT Hf) as [u [w [r' [E [Hu [Hw Hcap]]]]]].
      exists [], u, w, r'. cbn [app List.length]. rewrite Nat.add_0_r. auto.
    - destruct (framed A G T i pos (c :: rest)) as [o'|] eqn:Hf.
      + injection Ho as ->.
        destruct (framed_sound _ _ _ _ _ _ _ Hi HT Hf) as [u [w [r' [E [Hu [Hw Hcap]]]]]].
        exists [], u, w, r'. cbn [app List.length]. rewrite Nat.add_0_r. auto.
      + apply IH in Ho. destruct Ho as [sk [u [w [af [-> [Hu [Hw Hcap]]]]]]].
        exists (c :: sk), u, w, af. cbn [app List.length].
        repeat split; auto. rewrite Hcap. f_equal. f_equal; lia. }
  destruct (Hgen s 0 out Hs) as [sk [u [w [af [-> [Hu [Hw Hcap]]]]]]].
  rewrite Hcap in Hc. injection Hc as <- <-.
  assert (Hsl : slice (sk ++ u ++ w ++ af)
                      (List.length sk + List.length u)
                      (List.length sk + List.length u + List.length w) = w).
  { replace (sk ++ u ++ w ++ af) with ((sk ++ u) ++ w ++ af)
      by now rewrite <- app_assoc.
    rewrite <- length_app. apply slice_middle. }
  rewrite Hsl. now exists sk, u, af.
Qed.

(** A run of characters of a class: as many as the bounds allow, each of
    the class. *)
Lemma lang_run (lo : nat) (hi : option nat) (p : N -> bool) (w : jsstring) :
  lang (RRep lo hi (RChar p)) w ->
  lo <= List.length w
  /\ match hi with Some h => List.length w <= h | None => True end
  /\ Forall (fun c => p c = true) w.
Proof.
  cbn [lang]. intros [ws [-> [Hws [Hlo Hhi]]]].
  assert (H : List.length (List.concat ws) = List.length ws
              /\ Forall (fun c => p c = true) (List.concat ws)).
  { clear Hlo Hhi. induction Hws as [|x ws Hx Hws [IH1 IH2]]; cbn; [auto|].
    destruct Hx as [c [-> Hc]]. cbn.
    split; [now rewrite IH1 | now constructor]. }
  destruct H as [-> H]. auto.
Qed.

End Matcher.

Section Heuristic.

Lemma trimStart_Forall (p : N -> Prop) (s : jsstring) :
  Forall p s -> Forall p (trimStart s).
Proof.
  induction 1 as [|c s Hc Hs IH]; cbn [trimStart]; [constructor|].
  destruct (isWhite c); [exact IH | now constructor].
Qed.

Lemma trim_Forall (p : N -> Prop) (s : jsstring) :
  Forall p s -> Forall p (trim s).
Proof.
  intros H. unfold trim, trimEnd.
  apply Forall_rev, trimStart_Forall, Forall_rev, trimStart_Forall, H.
Qed.

Lemma amount_framed (pos : nat) (rest : jsstring) :
  rmatch reAmount pos rest [] (fun p _ c => Some ((0, (pos, p)) :: c))
  = framed REmpty amountPart currencyPart 1 pos rest.
Proof. reflexivity. Qed.

Lemma full_date_framed (pos : nat) (rest : jsstring) :
  rmatch reFull pos rest [] (fun p _ c => Some ((0, (pos, p)) :: c))
  = framed REmpty ymd (RSeq (opt (oneOf " T")) (RGroup 2 hhmm)) 1 pos rest.
Proof. reflexivity. Qed.

Lemma full_time_framed (pos : nat) (rest : jsstring) :
  rmatch reFull pos rest [] (fun p _ c => Some ((0, (pos, p)) :: c))
  = framed (RSeq (RGroup 1 ymd) (opt (oneOf " T"))) hhmm REmpty 2 pos rest.
Proof. reflexivity. Qed.

Lemma ymd_framed (pos : nat) (rest : jsstring) :
  rmatch reYMD pos rest [] (fun p _ c => Some ((0, (pos, p)) :: c))
  = framed REmpty ymd REmpty 1 pos rest.
Proof. reflexivity. Qed.

Lemma hm_framed (pos : nat) (rest : jsstring) :
  rmatch reHM pos rest [] (fun p _ c => Some ((0, (pos, p)) :: c))
  = framed REmpty hhmm REmpty 1 pos rest.
Proof. reflexivity. Qed.

Lemma payee_framed (pos : nat) (rest : jsstring) :
  rmatch rePayee pos rest [] (fun p _ c => Some ((0, (pos, p)) :: c))
  = framed (oneOf "在于去给向") (between 2 20 (RChar payeeClass)) REmpty 1 pos rest.
Proof. reflexivity. Qed.

Lemma word_framed (pos : nat) (rest : jsstring) :
  rmatch reWord pos rest [] (fun p _ c => Some ((0, (pos, p)) :: c))
  = framed REmpty (between 2 20 (RChar wordClass)) REmpty 1 pos rest.
Proof. reflexivity. Qed.

Lemma opt_cases (a : regex) (w : jsstring) :
  lang (opt a) w -> w = [] \/ lang a w.
Proof.
  cbn [opt lang]. intros [ws [-> [Hws [_ Hhi]]]].
  destruct ws as [|x [|y ws]]; cbn in *; [now left | right | lia].
  rewrite app_nil_r. now inversion Hws.
Qed.

(** The strings of the amount pattern: a sign or none, digits, and then
    nothing or a separator and digits. *)
Lemma amount_shape (w : jsstring) :
  lang amountPart w ->
  exists sgn ds tail,
    w = sgn ++ ds ++ tail /\ (sgn = [] \/ sgn = [45%N])
    /\ ds <> [] /\ Forall (fun c => isDigit c = true) ds
    /\ (tail = []
        \/ exists sep ds2,
             tail = sep :: ds2 /\ (sep = 46%N \/ sep = 44%N)
             /\ ds2 <> [] /\ Forall (fun c => isDigit c = true) ds2).
Proof.
  unfold amountPart. cbn [seqs]. cbn [lang].
  intros [u [v [-> [Hu [u2 [v2 [-> [Hd Ht]]]]]]]].
  exists u, u2, v2. split; [reflexivity|]. split; [|split; [|split]].
  - apply opt_cases in Hu. destruct Hu as [->|[c [-> Hc]]]; [now left|].
    right. apply N.eqb_eq in Hc. now subst.
  - apply lang_run in Hd. destruct Hd as [Hlen _]. destruct u2; cbn in *; [lia|discriminate].
  - apply lang_run in Hd. tauto.
  - apply opt_cases in Ht. destruct Ht as [->|Ht]; [now left|]. right.
    cbn [seqs lang] in Ht. destruct Ht as [x [y [-> [[c [-> Hc]] Hy]]]].
    apply lang_run in Hy. destruct Hy as [Hlen [_ Hy]].
    exists c, y. split; [reflexivity|]. split; [|split].
    + revert Hc. unfold oneOf. vm_compute (js ".,"). cbn [existsb].
      rewrite orb_false_r, orb_true_iff, !N.eqb_eq. tauto.
    + destruct y; cbn in *; [lia|discriminate].
    + exact Hy.
Qed.
















Lemma starts_with_digit (lo : nat) (hi : option nat) (b : regex) (w : jsstring) :
  lang (RSeq (RRep (S lo) hi digit) b) w ->
  exists c, In c w /\ isDigit c = true.
Proof.
  cbn [lang]. intros [u [v [-> [Hu _]]]].
  apply (lang_run (S lo) hi isDigit) in Hu. destruct Hu as [Hlen [_ Hu]].
  destruct u as [|c u]; [cbn in Hlen; lia|]. exists c.
  split; [now left | exact (Forall_inv Hu)].
Qed.

Lemma no_digit_no_match (r A G T : regex) (i : nat) (s : jsstring) :
  (forall pos rest,
     rmatch r pos rest [] (fun p _ c => Some ((0, (pos, p)) :: c))
     = framed A G T i pos rest) ->
  i <> 0 -> ~ In i (groupsOf T) ->
  (forall w, lang G w -> exists c, In c w /\ isDigit c = true) ->
  Forall (fun c => isDigit c = false) s ->
  matchGroup s r i = None.
Proof.
  intros Hr Hi HT HG Hs.
  destruct (matchGroup s r i) as [g|] eqn:Hm; [|reflexivity].
  destruct (matchGroup_framed r A G T i s g Hr Hi HT Hm)
    as [before [u [after [-> [_ Hg]]]]].
  destruct (HG g Hg) as [c [Hin Hc]].
  rewrite Forall_forall in Hs. rewrite Hs in Hc; [discriminate|].
  apply in_or_app. right. apply in_or_app. right. apply in_or_app. now left.
Qed.

End Heuristic.

(** ** Further properties: the heuristic extractor *)

Section Drafts.

Lemma no_digits_no_fields (text : jsstring) :
  Forall (fun c => isDigit c = false) text ->
  d_amount (parseTextHeuristic text) = VNull
  /\ d_time (parseTextHeuristic text) = None.
Proof.
  intros Hno. pose proof (trim_Forall _ _ Hno) as Hs.
  assert (Ha : matchGroup (trim text) reAmount 1 = None).
  { apply (no_digit_no_match _ _ _ _ _ _ amount_framed); auto.
    intros w Hw. apply amount_shape in Hw.
    destruct Hw as [sgn [ds [tail [-> [_ [Hne [Hds _]]]]]]].
    destruct ds as [|c ds]; [congruence|]. exists c. split.
    - apply in_or_app. right. now left.
    - exact (Forall_inv Hds). }
  assert (Hf : matchGroup (trim text) reFull 1 = None).
  { apply (no_digit_no_match _ _ _ _ _ _ full_date_framed); auto.
    - cbn. intuition discriminate.
    - intros w. apply starts_with_digit. }
  assert (Hh : matchGroup (trim text) reHM 1 = None).
  { apply (no_digit_no_match _ _ _ _ _ _ hm_framed); auto.
    intros w. apply starts_with_digit. }
  unfold parseTextHeuristic. cbn [d_amount d_time]. rewrite Ha, Hf, Hh.
  split; [reflexivity|]. now destruct (matchGroup (trim text) reYMD 1).
Qed.

(** X14.  A text without a digit has no amount and no time for the
    heuristic extractor; so, when no provider answers for it, the
    parse-and-create route refuses it with 400 and writes nothing. *)
Theorem heuristic_without_digits (text : jsstring) :
  Forall (fun c => isDigit c = false) text ->
  d_amount (parseTextHeuristic text) = VNull
  /\ d_time (parseTextHeuristic text) = None
  /\ forall P cfg now store tz scope,
       extractByAI P cfg text = None -> trim text <> [] ->
       parseExpense P cfg now store
         {| pb_text := Some text; pb_tz := tz; pb_chat_id := scope |}
       = (Failed 400 "failed to parse amount", store).
Proof.
  intros Hno. destruct (no_digits_no_fields text Hno) as [Hamt Htime].
  split; [exact Hamt|]. split; [exact Htime|].
  intros P cfg now store tz scope Hai Hne. unfold parseExpense. cbn [pb_text].
  destruct (trim text) eqn:Ht; [congruence|]. cbn [nonEmpty negb].
  unfold extract. rewrite Hai, Hamt. reflexivity.
Qed.


Lemma clock_shape (w : jsstring) : lang hhmm w -> clockString w.
Proof.
  unfold hhmm. cbn [seqs]. cbn [lang].
  intros [h [v [-> [Hh [c [m [-> [[x [-> Hx]] Hm]]]]]]]].
  apply N.eqb_eq in Hx. subst x.
  apply (lang_run 1 (Some 2) isDigit) in Hh. destruct Hh as [H1 [H2 Hh]].
  apply (lang_run 2 (Some 2) isDigit) in Hm. destruct Hm as [H3 [H4 Hm]].
  exists h, m. cbn [app]. repeat split; try lia. apply Forall_app. now split.
Qed.

Lemma day_shape (w : jsstring) : lang ymd w -> dayString w.
Proof.
  unfold ymd. cbn [seqs]. cbn [lang].
  intros [y [v [-> [Hy [c1 [v1 [-> [[x [-> Hx]] H]]]]]]]].
  destruct H as [mo [v2 [-> [Hmo [c2 [da [-> [[z [-> Hz]] Hda]]]]]]]].
  apply N.eqb_eq in Hx, Hz. subst x z.
  apply (lang_run 4 (Some 4) isDigit) in Hy. destruct Hy as [H1 [H2 Hy]].
  apply (lang_run 1 (Some 2) isDigit) in Hmo. destruct Hmo as [H3 [H4 Hmo]].
  apply (lang_run 1 (Some 2) isDigit) in Hda. destruct Hda as [H5 [H6 Hda]].
  exists y, mo, da. cbn [app]. repeat split; try lia.
  apply Forall_app. split; [exact Hy|]. apply Forall_app. now split.
Qed.

(** X18.  The payee of a heuristic draft is empty, or a piece of the
    trimmed text of 2 to 20 characters, each a Han character, a Latin
    letter, a digit, an underscore, a hyphen or a middle dot. *)
Theorem heuristic_payee (text : jsstring) :
  exists p,
    d_payee (parseTextHeuristic text) = Some p
    /\ (p = []
        \/ 2 <= List.length p <= 20
           /\ Forall (fun c => payeeClass c = true) p
           /\ includes (trim text) p = true).
Proof.
  unfold parseTextHeuristic. cbn [d_payee]. eexists. split; [reflexivity|].
  assert (Hrun : forall cls g before u after,
            trim text = before ++ u ++ g ++ after ->
            lang (between 2 20 (RChar cls)) g ->
            (forall c, cls c = true -> payeeClass c = true) ->
            2 <= List.length g <= 20
            /\ Forall (fun c => payeeClass c = true) g
            /\ includes (trim text) g = true).
  { intros cls g before u after Ht Hg Hcls.
    apply (lang_run 2 (Some 20) cls) in Hg. destruct Hg as [H1 [H2 Hg]].
    split; [lia|]. split.
    - eapply Forall_impl; [|exact Hg]. exact Hcls.
    - apply includes_app. exists (before ++ u), after.
      rewrite Ht. now rewrite <- app_assoc. }
  destruct (matchGroup (trim text) rePayee 1) as [[|c p]|] eqn:Hp.
  - destruct (matchGroup (trim text) reWord 1) as [g|] eqn:Hw; [|now left].
    right.
    destruct (matchGroup_framed _ _ _ _ _ _ _ word_framed
                ltac:(discriminate) ltac:(cbn; tauto) Hw)
      as [before [u [after [Ht [_ Hg]]]]].
    apply (Hrun wordClass g before u after Ht Hg).
    intros x Hx. unfold payeeClass. unfold wordClass in Hx.
    apply orb_true_iff in Hx. destruct Hx as [-> | ->]; cbn;
      rewrite ?orb_true_r; reflexivity.
  - right.
    destruct (matchGroup_framed _ _ _ _ _ _ _ payee_framed
                ltac:(discriminate) ltac:(cbn; tauto) Hp)
      as [before [u [after [Ht [_ Hg]]]]].
    apply (Hrun payeeClass (c :: p) before u after Ht Hg). auto.
  - destruct (matchGroup (trim text) reWord 1) as [g|] eqn:Hw; [|now left].
    right.
    destruct (matchGroup_framed _ _ _ _ _ _ _ word_framed
                ltac:(discriminate) ltac:(cbn; tauto) Hw)
      as [before [u [after [Ht [_ Hg]]]]].
    apply (Hrun wordClass g before u after Ht Hg).
    intros x Hx. unfold payeeClass. unfold wordClass in Hx.
    apply orb_true_iff in Hx. destruct Hx as [-> | ->]; cbn;
      rewrite ?orb_true_r; reflexivity.
Qed.

(** X19.  The time of a heuristic draft, when there is one, has one of two
    shapes: an hour and minutes alone, or a day, one space, and an hour and
    minutes, whatever stood between the two in the text. *)
Theorem heuristic_time_shape (text t : jsstring) :
  d_time (parseTextHeuristic text) = Some t ->
  clockString t
  \/ exists d c, t = d ++ js " " ++ c /\ dayString d /\ clockString c.
Proof.
  unfold parseTextHeuristic. cbn [d_time].
  assert (Hclock : forall g, matchGroup (trim text) reHM 1 = Some g -> clockString g).
  { intros g Hg.
    destruct (matchGroup_framed _ _ _ _ _ _ _ hm_framed
                ltac:(discriminate) ltac:(cbn; tauto) Hg)
      as [_ [_ [_ [_ [_ H]]]]]. now apply clock_shape. }
  assert (Hday : forall g, matchGroup (trim text) reYMD 1 = Some g -> dayString g).
  { intros g Hg.
    destruct (matchGroup_framed _ _ _ _ _ _ _ ymd_framed
                ltac:(discriminate) ltac:(cbn; tauto) Hg)
      as [_ [_ [_ [_ [_ H]]]]]. now apply day_shape. }
  assert (Hlater :
            match matchGroup (trim text) reYMD 1, matchGroup (trim text) reHM 1 with
            | Some d, Some c => Some (d ++ js " " ++ c)
            | _, Some c => Some c
            | _, None => None
            end = Some t ->
            clockString t
            \/ exists d c, t = d ++ js " " ++ c /\ dayString d /\ clockString c).
  { destruct (matchGroup (trim text) reYMD 1) as [d|] eqn:Hd,
             (matchGroup (trim text) reHM 1) as [c|] eqn:Hc; try discriminate;
      intros H; injection H as <-.
    - right. exists d, c. auto.
    - left. auto. }
  destruct (matchGroup (trim text) reFull 1) as [d|] eqn:H1; [|exact Hlater].
  destruct (matchGroup (trim text) reFull 2) as [c|] eqn:H2; [|exact Hlater].
  intros H. injection H as <-. right. exists d, c. split; [reflexivity|]. split.
  - destruct (matchGroup_framed _ _ _ _ _ _ _ full_date_framed
                ltac:(discriminate) ltac:(cbn; intuition discriminate) H1)
      as [_ [_ [_ [_ [_ H]]]]]. now apply day_shape.
  - destruct (matchGroup_framed _ _ _ _ _ _ _ full_time_framed
                ltac:(discriminate) ltac:(cbn; tauto) H2)
      as [_ [_ [_ [_ [_ H]]]]]. now apply clock_shape.
Qed.

End Drafts.

(** X14 on a text without digits. *)
Lemma heuristic_without_digits_witness :
  d_amount (parseTextHeuristic (js "买菜 超市")) = VNull
  /\ parseExpense host plain 1755003000000 [lunch]
       {| pb_text := Some (js "买菜 超市"); pb_tz := None; pb_chat_id := VUndefined |}
     = (Failed 400 "failed to parse amount", [lunch]).
Proof.
  assert (H : Forall (fun c => isDigit c = false) (js "买菜 超市")).
  { apply Forall_forall. intros c Hc.
    assert (Hall : forallb (fun c => negb (isDigit c)) (js "买菜 超市") = true)
      by (vm_compute; reflexivity).
    rewrite forallb_forall in Hall. apply negb_true_iff. now apply Hall. }
  destruct (heuristic_without_digits (js "买菜 超市") H) as [Ha [_ Hr]].
  split; [exact Ha|]. apply Hr; [reflexivity|]. vm_compute. discriminate.
Defined.


(** X19 on a text with a day and a time glued by a T. *)
Lemma heuristic_time_shape_witness :
  clockString (js "2025-8-12 9:05")
  \/ exists d c, js "2025-8-12 9:05" = d ++ js " " ++ c
                 /\ dayString d /\ clockString c.
Proof.
  apply (heuristic_time_shape (js "  机票 980 2025-8-12T9:05 ")).
  vm_compute. reflexivity.
Defined.

(** ** Further properties: writing, then reading *)

Section RoundTrip.

Variable P : Platform.
Variable cfg : Config.
Variable now : Z.

Lemma stage_app (store : list doc) (timed : list (doc * bson)) (d : doc) (t : bson) :
  addParsedTimeStage P store = Some timed -> parsedTime P d = Value t ->
  addParsedTimeStage P (store ++ [d]) = Some (timed ++ [(d, t)]).
Proof.
  revert timed. induction store as [|e store IH]; intros timed Hs Hd.
  - injection Hs as <-. cbn. now rewrite Hd.
  - cbn [app addParsedTimeStage] in *.
    destruct (parsedTime P e) as [te|]; [|discriminate].
    destruct (addParsedTimeStage P store) as [out|]; [|discriminate].
    injection Hs as <-. now rewrite (IH out eq_refl Hd).
Qed.

Lemma stage_filter (keep : doc -> bool) (store : list doc)
    (timed : list (doc * bson)) :
  addParsedTimeStage P store = Some timed ->
  addParsedTimeStage P (filter keep store)
  = Some (filter (fun dt => keep (fst dt)) timed).
Proof.
  revert timed. induction store as [|e store IH]; intros timed Hs.
  - injection Hs as <-. reflexivity.
  - cbn [addParsedTimeStage] in Hs.
    destruct (parsedTime P e) as [te|] eqn:He; [|discriminate].
    destruct (addParsedTimeStage P store) as [out|]; [|discriminate].
    injection Hs as <-. cbn [filter fst]. destruct (keep e).
    + cbn [addParsedTimeStage]. now rewrite He, (IH out eq_refl).
    + now apply IH.
Qed.

(** What an accepted create appends. *)
Lemma create_appends (store : list doc) (body : createBody) (d : doc) (t : Z) :
  fst (createExpense P cfg now store body) = Sent 201 d ->
  newDate P (b_time body) = Some t ->
  snd (createExpense P cfg now store body) = store ++ [d]
  /\ time d = BDate t /\ chat_id d = scopeOf cfg (b_chat_id body).
Proof.
  intros Hc Ht. unfold createExpense in *.
  destruct (negb (truthy (b_amount body)) || negb (truthy (b_time body)));
    [discriminate|].
  destruct (payloadOf P cfg now _ _ _ _ _ _ _ _) as [payload|] eqn:Hp;
    [|discriminate].
  destruct (Expense_create now store payload) as [[d' store']|] eqn:Hcr;
    [|discriminate].
  cbn [fst snd] in *. injection Hc as ->.
  apply Expense_create_inserts in Hcr. destruct Hcr as [_ [Hd ->]].
  apply payloadOf_fields in Hp. destruct Hp as [x [iso [Hx [_ Hpl]]]].
  rewrite Ht in Hx. injection Hx as <-.
  split; [reflexivity|]. split; rewrite Hd, Hpl; reflexivity.
Qed.

(** What a delete keeps, when its identifier denotes an ObjectId. *)
Lemma delete_filters (store : list doc) (id : jsstring) (i : N) :
  castObjectId P id = Some i ->
  snd (deleteExpense P store id) = filter (fun d => negb (_id d =? i)%N) store.
Proof.
  intros Hc. unfold deleteExpense. rewrite Hc.
  destruct (find _ store) eqn:Hf; cbn [snd]; [reflexivity|].
  clear Hc. induction store as [|d store IH]; [reflexivity|].
  cbn [find filter] in *. destruct (_id d =? i)%N; [discriminate|].
  cbn [negb]. now rewrite <- IH.
Qed.

Lemma filters_shorter {A : Type} (k s t : A -> bool) (l : list A) :
  List.length (filter t (filter s (filter k l)))
  <= List.length (filter t (filter s l)).
Proof.
  induction l as [|x l IH]; [reflexivity|]. cbn [filter].
  destruct (k x), (s x) eqn:Es; cbn [filter]; rewrite ?Es; cbn [filter];
    destruct (t x); cbn [List.length]; lia.
Qed.

(** X20.  What is created is listed.  After an accepted create on a
    collection whose listing is answered, the same listing, when it asks
    for no scope and no text and its range, if it has one, holds the
    instant of the body's time, counts one row more, and the answer to
    the request for one of its pages has a row for the new document, with
    that instant as its time; this also while a scope is enforced, since
    the new document carries it. *)
Theorem created_is_listed (store : list doc) (body : createBody) (d : doc)
    (rq : query) (b : listing) (t : Z) :
  fst (createExpense P cfg now store body) = Sent 201 d ->
  listExpenses P cfg store rq = Sent 200 b ->
  newDate P (b_time body) = Some t ->
  q_chat_id rq = None -> q_q rq = None -> rangeStage P rq (BDate t) = true ->
  exists k,
    1 <= k <= ceilDiv (S (l_total b)) (l_limit b)
    /\ forall pg,
         parseInt10 pg = Fin (inject_Z (Z.of_nat k)) ->
         exists b' r,
           listExpenses P cfg (snd (createExpense P cfg now store body))
             (withPage rq pg) = Sent 200 b'
           /\ l_total b' = S (l_total b) /\ l_page b' = k
           /\ In r (l_data b')
           /\ r_id r = _id d /\ r_time r = BDate t /\ r_amount r = amount d.
Proof.
  intros Hc Hb Ht Hq Hqq Hr.
  destruct (create_appends store body d t Hc Ht) as [-> [Htime Hchat]].
  unfold listExpenses in Hb.
  destruct (wholeOf (pageOf rq)) as [page|]; [|discriminate].
  destruct (wholeOf (limitOf rq)) as [limit|] eqn:Hl; [|discriminate].
  destruct (addParsedTimeStage P store) as [timed|] eqn:Hst; [|discriminate].
  injection Hb as <-. cbn [l_total l_limit].
  assert (Hres : parsedTime P d = Value (BDate t)).
  { unfold parsedTime, switch. rewrite Htime. reflexivity. }
  pose proof (stage_app store timed d (BDate t) Hst Hres) as Hst'.
  assert (Hs : scopeAndRange P cfg rq (d, BDate t) = true).
  { unfold scopeAndRange, requestedScope. cbn [fst snd]. rewrite Hq, Hr.
    rewrite !andb_true_r. unfold chatGuardStage.
    destruct (enforced cfg) as [n|] eqn:He; [|reflexivity].
    unfold chatIs. rewrite Hchat. unfold scopeOf. rewrite He.
    now rewrite (enforced_equals_itself cfg n He). }
  assert (Hx : textFilter rq (d, BDate t) = true).
  { unfold textFilter. rewrite Hqq. reflexivity. }
  assert (Hrow : In (project (d, BDate t))
                    (listed P cfg rq (timed ++ [(d, BDate t)]))).
  { apply listed_In. exists (d, BDate t). split; [reflexivity|].
    split; [apply in_or_app; right; now left | now split]. }
  assert (Hlen : List.length (listed P cfg rq (timed ++ [(d, BDate t)]))
                 = S (List.length (listed P cfg rq timed))).
  { unfold listed. rewrite !length_map, !sortBy_length, !filter_app.
    cbn [filter]. rewrite Hs. cbn [filter]. rewrite Hx.
    rewrite length_app. cbn [List.length]. lia. }
  destruct (listed_on_a_page P cfg (store ++ [d]) _ rq limit _ Hst' Hl Hrow)
    as [k [Hk Hpg]].
  rewrite Hlen in Hk. exists k. split; [exact Hk|]. intros pg Hk'.
  destruct (Hpg pg Hk') as [b' [Hb' [Hin [Hpage Htot]]]].
  exists b', (project (d, BDate t)). rewrite Hlen in Htot.
  repeat (split; [assumption|]). cbn. auto.
Qed.

(** X21.  What is deleted is no longer listed, and nothing else leaves.
    After a delete whose identifier denotes an ObjectId, a listing that
    was answered before is answered, counts no more rows than before and
    has no row of that identifier; each of its rows was on a page of the
    listing before, and each row of the listing before that has another
    identifier is on a page of the listing after. *)
Theorem deleted_is_unlisted (store : list doc) (id : jsstring) (i : N)
    (rq : query) (b : listing) :
  castObjectId P id = Some i ->
  listExpenses P cfg store rq = Sent 200 b ->
  exists b',
    listExpenses P cfg (snd (deleteExpense P store id)) rq = Sent 200 b'
    /\ l_total b' <= l_total b
    /\ l_page b' = l_page b /\ l_limit b' = l_limit b
    /\ (forall r, In r (l_data b') ->
          r_id r <> i
          /\ exists k,
               1 <= k <= l_pages b
               /\ forall pg,
                    parseInt10 pg = Fin (inject_Z (Z.of_nat k)) ->
                    exists b0,
                      listExpenses P cfg store (withPage rq pg) = Sent 200 b0
                      /\ In r (l_data b0))
    /\ (forall r, In r (l_data b) -> r_id r <> i ->
          exists k,
            1 <= k <= l_pages b'
            /\ forall pg,
                 parseInt10 pg = Fin (inject_Z (Z.of_nat k)) ->
                 exists b1,
                   listExpenses P cfg (snd (deleteExpense P store id))
                     (withPage rq pg) = Sent 200 b1
                   /\ In r (l_data b1)).
Proof.
  intros Hc Hb. rewrite (delete_filters store id i Hc).
  set (keep := fun d : doc => negb (_id d =? i)%N).
  unfold listExpenses in Hb.
  destruct (wholeOf (pageOf rq)) as [page|] eqn:Hp; [|discriminate].
  destruct (wholeOf (limitOf rq)) as [limit|] eqn:Hl; [|discriminate].
  destruct (addParsedTimeStage P store) as [timed|] eqn:Hst; [|discriminate].
  injection Hb as <-.
  pose proof (stage_filter keep store timed Hst) as Hst'.
  set (timed' := filter (fun dt => keep (fst dt)) timed) in *.
  exists {| l_total := List.length (listed P cfg rq timed');
            l_page := page;
            l_pages := ceilDiv (List.length (listed P cfg rq timed')) limit;
            l_limit := limit;
            l_data := firstn limit (skipn ((page - 1) * limit)
                                          (listed P cfg rq timed')) |}.
  split; [unfold listExpenses; now rewrite Hp, Hl, Hst'|].
  cbn [l_total l_page l_limit l_data l_pages].
  assert (Hiff : forall r, In r (listed P cfg rq timed')
                           <-> In r (listed P cfg rq timed) /\ r_id r <> i).
  { intros r. rewrite !listed_In. split.
    - intros [dt [-> [Hd [Hs Hx]]]]. apply filter_In in Hd.
      destruct Hd as [Hd Hk]. unfold keep in Hk.
      apply negb_true_iff, N.eqb_neq in Hk. split; [now exists dt | exact Hk].
    - intros [[dt [-> [Hd [Hs Hx]]]] Hi]. exists dt. split; [reflexivity|].
      split; [|now split]. apply filter_In. split; [exact Hd|].
      unfold keep. now apply negb_true_iff, N.eqb_neq. }
  split.
  { unfold listed. rewrite !length_map, !sortBy_length. apply filters_shorter. }
  split; [reflexivity|]. split; [reflexivity|]. split.
  - intros r Hr. apply page_In, Hiff in Hr. destruct Hr as [Hr Hi].
    split; [exact Hi|].
    destruct (listed_on_a_page P cfg store timed rq limit r Hst Hl Hr)
      as [k [Hk Hpg]].
    exists k. split; [exact Hk|]. intros pg Hk'.
    destruct (Hpg pg Hk') as [b0 [Hb0 [Hin _]]]. exists b0.
    split; [exact Hb0 | exact Hin].
  - intros r Hr Hi. apply page_In in Hr.
    assert (Hr' : In r (listed P cfg rq timed')) by (apply Hiff; now split).
    destruct (listed_on_a_page P cfg (filter keep store) timed' rq limit r
                Hst' Hl Hr') as [k [Hk Hpg]].
    exists k. split; [exact Hk|]. intros pg Hk'.
    destruct (Hpg pg Hk') as [b1 [Hb1 [Hin _]]]. exists b1.
    split; [exact Hb1 | exact Hin].
Qed.

End RoundTrip.

(** X20 on the platform: ten at noon-fifty UTC of 12 August 2025, created
    beside the lunch and listed in August. *)
Lemma created_is_listed_witness :
  exists d b k,
    fst (createExpense host plain 1756000000000 [lunch] asks957) = Sent 201 d
    /\ listExpenses host plain [lunch] august = Sent 200 b
    /\ 1 <= k <= ceilDiv (S (l_total b)) (l_limit b)
    /\ forall pg,
         parseInt10 pg = Fin (inject_Z (Z.of_nat k)) ->
         exists b' r,
           listExpenses host plain
             (snd (createExpense host plain 1756000000000 [lunch] asks957))
             (withPage august pg) = Sent 200 b'
           /\ l_total b' = S (l_total b) /\ In r (l_data b') /\ r_id r = _id d.
Proof.
  pose (d := match fst (createExpense host plain 1756000000000 [lunch] asks957) with
             | Sent _ d => d
             | Failed _ _ => lunch
             end).
  pose (b := match listExpenses host plain [lunch] august with
             | Sent _ b => b
             | Failed _ _ => noListing
             end).
  assert (Hc : fst (createExpense host plain 1756000000000 [lunch] asks957)
               = Sent 201 d) by (vm_compute; reflexivity).
  assert (Hb : listExpenses host plain [lunch] august = Sent 200 b)
    by (vm_compute; reflexivity).
  assert (Ht : newDate host (b_time asks957) = Some 1755003000000%Z)
    by (vm_compute; reflexivity).
  assert (Hr : rangeStage host august (BDate 1755003000000) = true)
    by (vm_compute; reflexivity).
  destruct (created_is_listed host plain 1756000000000 [lunch] asks957 d august b
              1755003000000 Hc Hb Ht eq_refl eq_refl Hr) as [k [Hk Hpg]].
  exists d, b, k. split; [exact Hc|]. split; [exact Hb|]. split; [exact Hk|].
  intros pg Hk'. destruct (Hpg pg Hk') as [b' [r [Hb' [Htot [_ [Hin [Hid _]]]]]]].
  exists b', r. auto.
Defined.

(** X21 on the platform: the second of the three documents is deleted. *)
Lemma deleted_is_unlisted_witness :
  exists b b',
    listExpenses host plain three everything = Sent 200 b
    /\ listExpenses host plain (snd (deleteExpense host three (oid "02"))) everything
       = Sent 200 b'
    /\ l_total b = 3 /\ l_total b' <= l_total b
    /\ forall r, In r (l_data b') -> r_id r <> 2%N.
Proof.
  pose (b := match listExpenses host plain three everything with
             | Sent _ b => b
             | Failed _ _ => noListing
             end).
  assert (Hb : listExpenses host plain three everything = Sent 200 b)
    by (vm_compute; reflexivity).
  destruct (deleted_is_unlisted host plain three (oid "02") 2 everything b
              ltac:(vm_compute; reflexivity) Hb)
    as [b' [Hb' [Htot [_ [_ [Hrows _]]]]]].
  exists b, b'. split; [exact Hb|]. split; [exact Hb'|].
  split; [reflexivity|]. split; [exact Htot|].
  intros r Hr. exact (proj1 (Hrows r Hr)).
Defined.

(** ** Further properties: the answer of a provider *)

Section LooseJson.

Variable J : Type.
Variable null : J.
Variable JSON_parse : jsstring -> option J.

Lemma braces_shape (X : regex) (w : jsstring) :
  lang (seqs [lit 123; X; lit 125]) w -> braced w.
Proof.
  cbn [seqs lang lit].
  intros [u [v [-> [[c [-> Hc]] [x [y [-> [_ [e [-> He]]]]]]]]]].
  apply N.eqb_eq in Hc, He. subst. now exists x.
Qed.

Lemma fence_framed (n pos : nat) (rest : jsstring) :
  rmatch (reFence n) pos rest [] (fun p _ c => Some ((0, (pos, p)) :: c))
  = framed (RSeq (word litI "```json") (star (RChar isWhite)))
           (seqs [lit 123; lazyStar n anyUnit; lit 125])
           (RSeq (star (RChar isWhite)) (word litI "```")) 1 pos rest.
Proof. reflexivity. Qed.

Lemma object_framed (pos : nat) (rest : jsstring) :
  rmatch reObject pos rest [] (fun p _ c => Some ((0, (pos, p)) :: c))
  = framed REmpty (seqs [lit 123; star anyUnit; lit 125]) REmpty 1 pos rest.
Proof. reflexivity. Qed.

Lemma fence_group (s g : jsstring) :
  matchGroup s (reFence (List.length s)) 1 = Some g ->
  exists before after,
    s = before ++ g ++ after /\ braced g /\ In 96%N before.
Proof.
  intros Hm.
  destruct (matchGroup_framed _ _ _ _ 1 s g (fence_framed (List.length s))
              ltac:(discriminate) ltac:(cbn; tauto) Hm)
    as [before [u [after [-> [Hu Hg]]]]].
  exists (before ++ u), after. rewrite <- app_assoc. split; [reflexivity|].
  split; [exact (braces_shape _ _ Hg)|].
  destruct Hu as [a [b [-> [Ha _]]]].
  change (word litI "```json")
    with (RSeq (litI 96) (seqs (map litI (js "``json")))) in Ha.
  destruct Ha as [a1 [a2 [-> [[c [-> Hc]] _]]]].
  apply N.eqb_eq in Hc. change (lowerUnit 96) with 96%N in Hc.
  assert (c = 96%N) as ->.
  { unfold lowerUnit in Hc.
    destruct ((65 <=? c) && (c <=? 90))%N eqn:E; [|exact Hc].
    apply andb_true_iff in E. rewrite !N.leb_le in E. lia. }
  apply in_or_app. right. now left.
Qed.

Lemma object_group (s g : jsstring) :
  matchGroup s reObject 1 = Some g ->
  exists before after, s = before ++ g ++ after /\ braced g.
Proof.
  intros Hm.
  destruct (matchGroup_framed _ _ _ _ 1 s g object_framed
              ltac:(discriminate) ltac:(cbn; tauto) Hm)
    as [before [u [after [-> [Hu Hg]]]]].
  cbn in Hu. subst u. exists before, after. split; [reflexivity|].
  exact (braces_shape _ _ Hg).
Qed.

(** X22.  What the lenient reader answers is null, or what [JSON.parse]
    makes of the whole answer, or what it makes of a piece of the answer
    that runs from an opening brace to a closing brace; it parses nothing
    else. *)
Theorem extractJsonLoose_reads (str : jsstring) :
  extractJsonLoose J null JSON_parse str = null
  \/ JSON_parse str = Some (extractJsonLoose J null JSON_parse str)
  \/ exists before g after,
       str = before ++ g ++ after /\ braced g
       /\ JSON_parse g = Some (extractJsonLoose J null JSON_parse str).
Proof.
  unfold extractJsonLoose. destruct str as [|c0 str0]; [now left|].
  set (str := c0 :: str0).
  destruct (JSON_parse str) as [v|] eqn:Hp; [right; now left|].
  assert (Hobj : forall r,
             r = match matchGroup str reObject 1 with
                 | Some g => match JSON_parse g with Some v => v | None => null end
                 | None => null
                 end ->
             r = null
             \/ exists before g after,
                  str = before ++ g ++ after /\ braced g /\ JSON_parse g = Some r).
  { intros r ->. destruct (matchGroup str reObject 1) as [g|] eqn:Hm; [|now left].
    destruct (JSON_parse g) as [v|] eqn:Hg; [|now left].
    destruct (object_group _ _ Hm) as [before [after [Hs Hb]]].
    right. now exists before, g, after. }
  destruct (matchGroup str (reFence _) 1) as [g|] eqn:Hm.
  - destruct (JSON_parse g) as [v|] eqn:Hg.
    + destruct (fence_group _ _ Hm) as [before [after [Hs [Hb _]]]].
      right. right. now exists before, g, after.
    + destruct (Hobj _ eq_refl) as [H|H]; [now left | right; now right].
  - destruct (Hobj _ eq_refl) as [H|H]; [now left | right; now right].
Qed.

(** The greedy star over any code unit, before a closing brace: it gives
    back code units until the last closing brace. *)
Lemma star_any_nil (pos : nat) (cs : captures) (k : cont) :
  rmatch (star anyUnit) pos [] cs k = k pos [] cs.
Proof. reflexivity. Qed.

Lemma star_any_cons (pos : nat) (c : N) (rest : jsstring) (cs : captures)
    (k : cont) :
  rmatch (star anyUnit) pos (c :: rest) cs k
  = match rmatch (star anyUnit) (S pos) rest cs k with
    | Some out => Some out
    | None => k pos (c :: rest) cs
    end.
Proof.
  assert (E : Nat.eqb (S pos) pos = false) by (apply Nat.eqb_neq; lia).
  unfold star, anyUnit.
  cbn [rmatch List.length Nat.add hiZero Nat.pred option_map].
  rewrite E. reflexivity.
Qed.

Lemma star_any_none (post : jsstring) :
  Forall (fun c => c <> 125%N) post ->
  forall pos cs (k : cont),
    rmatch (star anyUnit) pos post cs (fun p r c => rmatch (lit 125) p r c k)
    = None.
Proof.
  induction 1 as [|c post Hc _ IH]; intros pos cs k.
  - rewrite star_any_nil. reflexivity.
  - rewrite star_any_cons, IH. cbn [rmatch lit].
    destruct (N.eqb 125 c) eqn:E; [|reflexivity].
    apply N.eqb_eq in E. congruence.
Qed.

Lemma star_any_last (mid post : jsstring) (out : captures) :
  Forall (fun c => c <> 125%N) post ->
  forall pos cs (k : cont),
    k (S (pos + List.length mid)) post cs = Some out ->
    rmatch (star anyUnit) pos (mid ++ 125%N :: post) cs
      (fun p r c => rmatch (lit 125) p r c k) = Some out.
Proof.
  intros Hpost. induction mid as [|c mid IH]; intros pos cs k Hk.
  - cbn [app]. rewrite star_any_cons, (star_any_none post Hpost).
    cbn [rmatch lit]. rewrite N.eqb_refl.
    cbn [List.length] in Hk. now rewrite Nat.add_0_r in Hk.
  - cbn [app]. rewrite star_any_cons, (IH (S pos) cs k); [reflexivity|].
    cbn [List.length] in Hk. now rewrite Nat.add_succ_r in Hk.
Qed.

Lemma object_head (pos : nat) (c : N) (rest : jsstring) (k : cont) :
  rmatch reObject pos (c :: rest) [] k
  = if N.eqb 123 c
    then rmatch (star anyUnit) (S pos) rest []
           (fun p r cs =>
              rmatch (lit 125) p r cs
                (fun p' r' cs' => k p' r' ((1, (pos, p')) :: cs')))
    else None.
Proof. reflexivity. Qed.

Lemma object_search (pre mid post : jsstring) :
  Forall (fun c => c <> 123%N) pre -> Forall (fun c => c <> 125%N) post ->
  forall pos,
    searchFrom reObject pos (pre ++ 123%N :: mid ++ 125%N :: post)
    = Some [(0, (pos + List.length pre,
                 pos + List.length pre + List.length (123%N :: mid ++ [125%N])));
            (1, (pos + List.length pre,
                 pos + List.length pre + List.length (123%N :: mid ++ [125%N])))].
Proof.
  intros Hpre Hpost. induction Hpre as [|c pre Hc _ IH]; intros pos.
  - cbn [app searchFrom]. rewrite object_head, N.eqb_refl.
    erewrite (star_any_last mid post _ Hpost); [reflexivity|].
    cbn [List.length]. rewrite length_app. cbn [List.length].
    rewrite !Nat.add_0_r.
    replace (pos + S (List.length mid + 1)) with (S (S pos + List.length mid))
      by lia.
    reflexivity.
  - cbn [app searchFrom]. rewrite object_head.
    destruct (N.eqb 123 c) eqn:E; [apply N.eqb_eq in E; congruence|].
    rewrite IH. cbn [List.length]. now rewrite !Nat.add_succ_r.
Qed.

Lemma object_span (pre mid post : jsstring) :
  Forall (fun c => c <> 123%N) pre -> Forall (fun c => c <> 125%N) post ->
  matchGroup (pre ++ 123%N :: mid ++ 125%N :: post) reObject 1
  = Some (123%N :: mid ++ [125%N]).
Proof.
  intros Hpre Hpost. unfold matchGroup.
  rewrite (object_search pre mid post Hpre Hpost 0). cbn [capture Nat.eqb Nat.add].
  f_equal.
  replace (pre ++ 123%N :: mid ++ 125%N :: post)
    with (pre ++ (123%N :: mid ++ [125%N]) ++ post).
  - apply slice_middle.
  - cbn [app]. now rewrite <- app_assoc.
Qed.

(** X23.  Of an answer that is not JSON as a whole and holds no backtick,
    the lenient reader parses the piece from the first opening brace to
    the last closing brace, and nothing else: it answers with what
    [JSON.parse] makes of that piece, or with null.  So two objects side
    by side in one answer are read as one piece. *)
Theorem extractJsonLoose_span (pre mid post : jsstring) :
  JSON_parse (pre ++ 123%N :: mid ++ 125%N :: post) = None ->
  Forall (fun c => c <> 96%N) (pre ++ 123%N :: mid ++ 125%N :: post) ->
  Forall (fun c => c <> 123%N) pre -> Forall (fun c => c <> 125%N) post ->
  extractJsonLoose J null JSON_parse (pre ++ 123%N :: mid ++ 125%N :: post)
  = match JSON_parse (123%N :: mid ++ [125%N]) with
    | Some v => v
    | None => null
    end.
Proof.
  intros Hp Htick Hpre Hpost.
  assert (Hm : matchGroup (pre ++ 123%N :: mid ++ 125%N :: post)
                 (reFence (List.length (pre ++ 123%N :: mid ++ 125%N :: post))) 1
               = None).
  { destruct (matchGroup _ (reFence _) 1) as [g|] eqn:Hm; [|reflexivity].
    destruct (fence_group _ _ Hm) as [before [after [Hs [_ Hin]]]].
    rewrite Forall_forall in Htick. exfalso. apply (Htick 96%N); [|reflexivity].
    rewrite Hs. apply in_or_app. now left. }
  pose proof (object_span pre mid post Hpre Hpost) as Ho.
  unfold extractJsonLoose.
  destruct (pre ++ 123%N :: mid ++ 125%N :: post) as [|c0 s0];
    [destruct pre; discriminate|].
  now rewrite Hp, Hm, Ho.
Qed.

End LooseJson.

(** X23 on an answer with two objects, read by a parser that knows the
    empty object alone: the piece from the first brace to the last is not
    one, and the answer is null. *)
Lemma extractJsonLoose_span_witness :
  extractJsonLoose jsval VNull emptyObjectOnly (js "ok {} or {}") = VNull.
Proof.
  exact (extractJsonLoose_span jsval VNull emptyObjectOnly
           (js "ok ") (js "} or {") []
           ltac:(vm_compute; reflexivity)
           ltac:(vm_compute; repeat constructor; discriminate)
           ltac:(vm_compute; repeat constructor; discriminate)
           ltac:(constructor)).
Defined.

(** ** Further properties: the month of a document *)

Section Month.

Lemma month_range (z0 : Z) :
  (1 <= snd (fst (civil_from_days z0)) <= 12)%Z.
Proof.
  unfold civil_from_days. cbn [fst snd].
  set (z := (z0 + 719468)%Z).
  set (doe := (z - z / 146097 * 146097)%Z).
  assert (Hdoe : (0 <= doe <= 146096)%Z).
  { subst doe. pose proof (Z.div_mod z 146097 ltac:(lia)).
    pose proof (Z.mod_pos_bound z 146097 ltac:(lia)). lia. }
  clearbody doe. clear z.
  set (yoe := ((doe - doe / 1460 + doe / 36524 - doe / 146096) / 365)%Z).
  set (doy := (doe - (365 * yoe + yoe / 4 - yoe / 100))%Z).
  assert (Hdoy : (0 <= doy <= 366)%Z).
  { subst doy yoe. Z.div_mod_to_equations. lia. }
  clearbody doy. clear yoe.
  destruct ((5 * doy + 2) / 153 <? 10)%Z eqn:E;
    [apply Z.ltb_lt in E | apply Z.ltb_ge in E];
    Z.div_mod_to_equations; lia.
Qed.

Lemma upTo_all (f : Z -> bool) (n : nat) :
  forall z0, upTo f n z0 = true ->
             forall z, (z0 <= z < z0 + Z.of_nat n)%Z -> f z = true.
Proof.
  induction n as [|n IH]; intros z0 H z Hz; [lia|].
  cbn [upTo] in H. apply andb_true_iff in H. destruct H as [H0 H].
  destruct (Z.eq_dec z z0) as [->|Hne]; [exact H0|].
  apply (IH (z0 + 1)%Z H). lia.
Qed.

Lemma padded_digits (n : nat) (bound : Z) :
  upTo (fun z => let s := padStart0 n (intString z) in
                 Nat.eqb (List.length s) n && forallb isDigit s)
       (Z.to_nat bound) 0 = true ->
  forall z, (0 <= z < bound)%Z ->
            List.length (padStart0 n (intString z)) = n
            /\ Forall (fun c => isDigit c = true) (padStart0 n (intString z)).
Proof.
  intros H z Hz. pose proof (upTo_all _ _ _ H z ltac:(lia)) as Hf.
  cbv zeta in Hf. apply andb_true_iff in Hf. destruct Hf as [Hl Hd].
  apply Nat.eqb_eq in Hl. split; [exact Hl|].
  apply Forall_forall. now apply forallb_forall.
Qed.

Lemma year_digits (y : Z) :
  (0 <= y <= 9999)%Z ->
  List.length (padStart0 4 (intString y)) = 4
  /\ Forall (fun c => isDigit c = true) (padStart0 4 (intString y)).
Proof.
  intros Hy. apply (padded_digits 4 10000); [vm_compute; reflexivity | lia].
Qed.

Lemma pad_digits (m : Z) :
  (0 <= m <= 99)%Z ->
  List.length (pad m) = 2 /\ Forall (fun c => isDigit c = true) (pad m).
Proof.
  intros Hm. apply (padded_digits 2 100); [vm_compute; reflexivity | lia].
Qed.

Lemma iso_month (t : Z) :
  (0 <= getUTCFullYear t <= 9999)%Z ->
  exists iso,
    toISOString (Some t) = Some iso
    /\ slice iso 0 7
       = padStart0 4 (intString (getUTCFullYear t))
         ++ 45%N :: pad (getUTCMonth t + 1)
    /\ monthString (slice iso 0 7).
Proof.
  intros Hy. destruct (year_digits _ Hy) as [Hl4 Hd4].
  assert (Hm : (1 <= getUTCMonth t + 1 <= 12)%Z).
  { unfold getUTCMonth. pose proof (month_range (t / msPerDay)). lia. }
  destruct (pad_digits (getUTCMonth t + 1) ltac:(lia)) as [Hl2 Hd2].
  eexists. split.
  { unfold toISOString.
    replace ((0 <=? getUTCFullYear t) && (getUTCFullYear t <=? 9999))%Z with true;
      [reflexivity|].
    symmetry. apply andb_true_iff. rewrite !Z.leb_le. exact Hy. }
  set (Y := padStart0 4 (intString (getUTCFullYear t))) in *.
  set (M := pad (getUTCMonth t + 1)) in *.
  assert (Hs : forall tail, slice (Y ++ js "-" ++ M ++ tail) 0 7 = Y ++ 45%N :: M).
  { intros tail. unfold slice. cbn [skipn Nat.sub].
    change (js "-") with [45%N].
    replace (Y ++ [45%N] ++ M ++ tail) with ((Y ++ 45%N :: M) ++ tail)
      by (rewrite <- !app_assoc; reflexivity).
    rewrite firstn_app.
    replace (List.length (Y ++ 45%N :: M)) with 7
      by (rewrite length_app; cbn [List.length]; lia).
    rewrite Nat.sub_diag, firstn_O, app_nil_r.
    apply firstn_all2. rewrite length_app. cbn [List.length]. lia. }
  rewrite Hs. split; [reflexivity|].
  exists Y, M. split; [reflexivity|]. split; [exact Hl4|]. split; [exact Hl2|].
  apply Forall_app. now split.
Qed.

(** X24.  The month a create writes.  For a time in the years 0 to 9999
    of the calendar in UTC, the [ym] of the created document is the year
    in four digits, a dash and the month in two digits, of the instant of
    the body's time in UTC, whatever the zone of the request. *)
Theorem created_month (P : Platform) (cfg : Config) (now : Z)
    (store : list doc) (body : createBody) (d : doc) (t : Z) :
  fst (createExpense P cfg now store body) = Sent 201 d ->
  newDate P (b_time body) = Some t ->
  (0 <= getUTCFullYear t <= 9999)%Z ->
  exists w,
    ym d = BStr w /\ monthString w
    /\ w = padStart0 4 (intString (getUTCFullYear t))
           ++ 45%N :: pad (getUTCMonth t + 1)
    /\ (1 <= getUTCMonth t + 1 <= 12)%Z.
Proof.
  intros Hc Ht Hy. unfold createExpense in Hc.
  destruct (negb (truthy (b_amount body)) || negb (truthy (b_time body)));
    [discriminate|].
  destruct (payloadOf P cfg now _ _ _ _ _ _ _ _) as [payload|] eqn:Hp;
    [|discriminate].
  destruct (Expense_create now store payload) as [[d' store']|] eqn:Hcr;
    [|discriminate].
  cbn [fst] in Hc. injection Hc as ->.
  apply Expense_create_inserts in Hcr. destruct Hcr as [_ [Hd _]].
  apply payloadOf_fields in Hp. destruct Hp as [x [iso [Hx [Hi Hpl]]]].
  rewrite Ht in Hx. injection Hx as <-.
  destruct (iso_month t Hy) as [iso' [Hi' [Hs Hm]]].
  rewrite Hi in Hi'. injection Hi' as <-.
  exists (slice iso 0 7). split; [rewrite Hd, Hpl; reflexivity|].
  split; [exact Hm|]. split; [exact Hs|].
  unfold getUTCMonth. pose proof (month_range (t / msPerDay)). lia.
Qed.

End Month.

(** X24 on the platform: the last millisecond of 2025 in UTC, asked for
    from Shanghai, where it is 2026 already. *)
Lemma created_month_witness :
  exists d,
    fst (createExpense host plain 0 [] (atInstant 1767225599999)) = Sent 201 d
    /\ ym d = BStr (js "2025-12").
Proof.
  pose (d := match fst (createExpense host plain 0 [] (atInstant 1767225599999)) with
             | Sent _ d => d
             | Failed _ _ => lunch
             end).
  assert (Hc : fst (createExpense host plain 0 [] (atInstant 1767225599999))
               = Sent 201 d) by (vm_compute; reflexivity).
  destruct (created_month host plain 0 [] (atInstant 1767225599999) d
              1767225599999 Hc ltac:(vm_compute; reflexivity)
              ltac:(vm_compute; split; discriminate))
    as [w [Hw [_ [Hv _]]]].
  exists d. split; [exact Hc|]. rewrite Hw, Hv. vm_compute. reflexivity.
Defined.

(** ** The embedding on some inputs *)

Example js_han : js "买a" = [20080%N; 97%N].
Proof. reflexivity. Qed.

Example guess_starbucks : guessCategory (js "") (js "星巴克 28") = js "餐饮".
Proof. vm_compute. reflexivity. Qed.

Example guess_metro : guessCategory (js "") (js "星巴克 地铁") = js "出行".
Proof. vm_compute. reflexivity. Qed.

Example heur1 :
  let d := parseTextHeuristic (js "买菜 45.5 超市 18:30") in
  d_amount d = VNum (Fin (91 # 2)%Q) /\ d_time d = Some (js "18:30")
  /\ d_payee d = Some (js "买菜") /\ d_category d = Some (js "购物").
Proof. vm_compute. repeat split. Qed.

Example heur2 : d_amount (parseTextHeuristic (js "hello there")) = VNull.
Proof. vm_compute. reflexivity. Qed.

Example heur3 :
  d_time (parseTextHeuristic (js "x 2025-8-12:30 12,50元")) = Some (js "2025-8-1 2:30").
Proof. vm_compute. reflexivity. Qed.

Example heur4 :
  d_amount (parseTextHeuristic (js "在星巴克 12,50元")) = VNum (Fin 1250)
  /\ d_payee (parseTextHeuristic (js "在星巴克 12,50元")) = Some (js "星巴克").
Proof. vm_compute. split; reflexivity. Qed.

Example iso1 : toISOString (Some 1754974200000%Z) = Some (js "2025-08-12T04:50:00.000Z").
Proof. vm_compute. reflexivity. Qed.
Example iso2 : toISOString (Some (-1)%Z) = Some (js "1969-12-31T23:59:59.999Z").
Proof. vm_compute. reflexivity. Qed.
Example dfc : days_from_civil 2025 8 12 = 20312%Z.
Proof. vm_compute. reflexivity. Qed.

Example host_parse : DateParse host (js "2025-08-12 12:50") = Some 1755003000000%Z.
Proof. vm_compute. reflexivity. Qed.

Example host_fmt :
  formatTimeLocal host (Some 1755003000000%Z) (js "Asia/Shanghai") = js "2025-08-12 20:50"
  /\ formatTimeLocal host (Some 1755003000000%Z) (js "Mars/Phobos") = js "2025-08-12 12:50".
Proof. vm_compute. split; reflexivity. Qed.

Example host_combine :
  combineDateTime host 1755003000000%Z (js "Asia/Shanghai") (js "18:30") = Some 1755023400000%Z
  /\ combineDateTime host 1755003000000%Z (js "Asia/Shanghai") (js "99:99") = None.
Proof. vm_compute. split; reflexivity. Qed.

Example host_parse_route :
  fst (parseExpense host plain 1755003000000%Z []
         {| pb_text := Some (js "买菜 45.5 超市 18:30"); pb_tz := None; pb_chat_id := VUndefined |})
  = Sent 201
      ({| _id := 1; amount := BNum (Fin (91 # 2)%Q); category := BStr (js "购物");
          payee := BStr (js "买菜"); time := BDate 1755023400000;
          chat_id := BMissing; ts_utc := BDate 1755023400000;
          time_local := BStr (js "2025-08-13 02:30"); tz := BStr (js "Asia/Shanghai");
          ym := BStr (js "2025-08"); created_at_utc := BDate 1755003000000;
          note := BStr (js "买菜 45.5 超市 18:30"); source := BStr (js "web");
          createdAt := BDate 1755003000000 |},
       parseTextHeuristic (js "买菜 45.5 超市 18:30")).
Proof. vm_compute. reflexivity. Qed.
